(** * Update_manager: error classification, offline cache and config files

    A shallow embedding of the error-classification and offline-resilience
    layer of the admin panel ([src/utils/errorHandler.ts], which also holds
    the network diagnostics, [src/utils/offlineManager.ts]) and of the
    configuration import/export utilities, followed by the properties of
    these functions that the specification states (Part II) and by further
    properties that the code shows (Part III).

    Conventions of the embedding.
    - A JavaScript string is a [string]: the UTF-8 bytes of its text.
      Where the source counts UTF-16 code units ([.length]) the model
      recounts them from the bytes ([utf16_length]).
    - A JavaScript value that can come out of [JSON.parse] is a [json];
      [option json] adds [undefined] ([None]).  Numbers are the integers
      ([Z]); doubles that are not integers are outside the model.
    - A function that can throw returns a [completion].
    - [localStorage] is a finite map from keys to strings that accepts
      every write (no quota), and [Date.now()] is an explicit argument. *)

From stdpp Require Import gmap strings list.
From Stdlib Require Import ZArith Ascii String Lia.
From Stdlib Require DecimalN DecimalPos DecimalFacts.
Import ListNotations.
Open Scope Z_scope.

(* ================================================================= *)
(** ** Part I: the embedding *)
(* ================================================================= *)

(** *** Strings and characters *)

Definition chars (s : string) : list ascii := list_ascii_of_string s.
Definition str (l : list ascii) : string := string_of_list_ascii l.

Definition is_digit (c : ascii) : bool :=
  ((48 <=? N_of_ascii c) && (N_of_ascii c <=? 57))%N.

(** Number of UTF-16 code units of a string given by its UTF-8 bytes:
    a continuation byte counts for nothing, the lead byte of a four-byte
    sequence (a surrogate pair) for two. *)
Definition utf16_units (c : ascii) : nat :=
  let n := N_of_ascii c in
  if ((128 <=? n) && (n <? 192))%N then 0%nat
  else if (240 <=? n)%N then 2%nat
  else 1%nat.

Definition utf16_length (s : string) : nat :=
  sum_list (map utf16_units (chars s)).

Definition is_empty (s : string) : bool :=
  match s with EmptyString => true | String _ _ => false end.

(** [String.prototype.startsWith] *)
Fixpoint startsWith (s p : list ascii) : bool :=
  match p, s with
  | [], _ => true
  | a :: p', b :: s' => Ascii.eqb a b && startsWith s' p'
  | _ :: _, [] => false
  end.

(** [Array.prototype.join] on strings given as character lists. *)
Fixpoint join_with (sep : list ascii) (parts : list (list ascii)) : list ascii :=
  match parts with
  | [] => []
  | [p] => p
  | p :: ps => p ++ sep ++ join_with sep ps
  end.

Definition join_strings (sep : string) (parts : list string) : string :=
  str (join_with (chars sep) (map chars parts)).

(** *** Values *)

Unset Elimination Schemes.
Inductive json : Type :=
| JNull
| JBool (b : bool)
| JNum (n : Z)
| JStr (s : string)
| JArr (elems : list json)
| JObj (members : list (string * json)).
Set Elimination Schemes.

Section json_induction.
Variable P : json -> Prop.
Hypothesis Hnull : P JNull.
Hypothesis Hbool : forall b, P (JBool b).
Hypothesis Hnum : forall n, P (JNum n).
Hypothesis Hstr : forall s, P (JStr s).
Hypothesis Harr : forall elems, Forall P elems -> P (JArr elems).
Hypothesis Hobj :
  forall members, Forall (fun kv => P (snd kv)) members -> P (JObj members).

Fixpoint json_ind (v : json) : P v :=
  match v with
  | JNull => Hnull
  | JBool b => Hbool b
  | JNum n => Hnum n
  | JStr s => Hstr s
  | JArr elems =>
    Harr elems
      ((fix all (l : list json) : Forall P l :=
          match l with
          | [] => List.Forall_nil P
          | x :: l' => List.Forall_cons P x l' (json_ind x) (all l')
          end) elems)
  | JObj members =>
    Hobj members
      ((fix all (l : list (string * json)) : Forall (fun kv => P (snd kv)) l :=
          match l with
          | [] => List.Forall_nil _
          | kv :: l' => List.Forall_cons _ kv l' (json_ind (snd kv)) (all l')
          end) members)
  end.
End json_induction.

(** An object has no two members of one name. *)
Fixpoint json_wf (v : json) : bool :=
  match v with
  | JArr elems => forallb json_wf elems
  | JObj members =>
    bool_decide (NoDup (map fst members))
    && forallb (fun kv => json_wf (snd kv)) members
  | _ => true
  end.

Definition value_wf (v : option json) : bool :=
  match v with Some j => json_wf j | None => true end.

Inductive exn : Type :=
| SyntaxError
| TypeError
| Error (message : string).

Inductive completion (A : Type) : Type :=
| Return (a : A)
| Throw (e : exn).
Arguments Return {A} a.
Arguments Throw {A} e.

Definition null : option json := Some JNull.
Definition undefined : option json := None.

(** Truthiness ([ToBoolean]). *)
Definition truthy (v : option json) : bool :=
  match v with
  | None => false
  | Some JNull => false
  | Some (JBool b) => b
  | Some (JNum n) => negb (n =? 0)
  | Some (JStr s) => negb (is_empty s)
  | Some (JArr _) => true
  | Some (JObj _) => true
  end.

Inductive js_type : Type :=
| TUndefined | TObject | TBoolean | TNumber | TString.

(** [typeof]: [null], arrays and objects are all ["object"]. *)
Definition typeof (v : option json) : js_type :=
  match v with
  | None => TUndefined
  | Some JNull => TObject
  | Some (JBool _) => TBoolean
  | Some (JNum _) => TNumber
  | Some (JStr _) => TString
  | Some (JArr _) => TObject
  | Some (JObj _) => TObject
  end.

Definition is_object_type (v : option json) : bool :=
  match typeof v with TObject => true | _ => false end.

Definition is_string_type (v : option json) : bool :=
  match typeof v with TString => true | _ => false end.

(** Own member of an object (an object has no two members of one
    name, see [json_wf]). *)
Fixpoint lookup_member (k : string) (m : list (string * json)) : option json :=
  match m with
  | [] => None
  | (k', v) :: m' => if String.eqb k' k then Some v else lookup_member k m'
  end.

(** [v.k] for a member name [k] that no built-in prototype defines
    (none of the names the sources read is one, [length] apart, which
    [length_of] handles): the member of an object, [undefined] on any
    other value. *)
Definition member (v : json) (k : string) : option json :=
  match v with
  | JObj m => lookup_member k m
  | _ => None
  end.

(** [v?.k]: [undefined] when [v] is [null] or [undefined]. *)
Definition opt_member (v : option json) (k : string) : option json :=
  match v with
  | Some j => member j k
  | None => None
  end.

(** [v.k] where the source does not guard against [null]: reading a
    member of [null] or [undefined] throws a [TypeError]. *)
Definition get_member (v : option json) (k : string) : completion (option json) :=
  match v with
  | None => Throw TypeError
  | Some JNull => Throw TypeError
  | Some j => Return (member j k)
  end.

(** [k in v] for an object or array [v]. *)
Definition has_member (k : string) (v : json) : bool :=
  match v with
  | JObj m => existsb (fun kv => String.eqb (fst kv) k) m
  | _ => false
  end.

Fixpoint digits_of_uint (u : Decimal.uint) : list ascii :=
  match u with
  | Decimal.Nil => []
  | Decimal.D0 u => "0"%char :: digits_of_uint u
  | Decimal.D1 u => "1"%char :: digits_of_uint u
  | Decimal.D2 u => "2"%char :: digits_of_uint u
  | Decimal.D3 u => "3"%char :: digits_of_uint u
  | Decimal.D4 u => "4"%char :: digits_of_uint u
  | Decimal.D5 u => "5"%char :: digits_of_uint u
  | Decimal.D6 u => "6"%char :: digits_of_uint u
  | Decimal.D7 u => "7"%char :: digits_of_uint u
  | Decimal.D8 u => "8"%char :: digits_of_uint u
  | Decimal.D9 u => "9"%char :: digits_of_uint u
  end.

(** [Number::toString] on an integer (decimal, no exponent form: exact
    below 10^21 in size, from where JavaScript prints an exponent). *)
Definition NumberToString (n : Z) : list ascii :=
  if n <? 0 then "-"%char :: digits_of_uint (N.to_uint (Z.abs_N n))
  else digits_of_uint (N.to_uint (Z.abs_N n)).

(** [ToString]: what a template literal or [RegExp.prototype.test]
    makes of a value.  An array joins its elements with commas, [null]
    elements printing as nothing. *)
Fixpoint ToString (v : json) : list ascii :=
  match v with
  | JNull => chars "null"
  | JBool true => chars "true"
  | JBool false => chars "false"
  | JNum n => NumberToString n
  | JStr s => chars s
  | JArr elems =>
    join_with [","%char]
      (map (fun x => match x with JNull => [] | _ => ToString x end) elems)
  | JObj _ => chars "[object Object]"
  end.

Definition ToString_opt (v : option json) : list ascii :=
  match v with
  | Some j => ToString j
  | None => chars "undefined"
  end.

(** [ToNumber], [None] standing for [NaN].  Exact on [undefined],
    [null], booleans and numbers; strings, arrays and objects, which
    JavaScript would try to read as numeric literals, are [NaN] here. *)
Definition ToNumber (v : option json) : option Z :=
  match v with
  | Some JNull => Some 0
  | Some (JBool b) => Some (if b then 1 else 0)
  | Some (JNum n) => Some n
  | _ => None
  end.

(** [a < b] and [a > b] on numbers: false as soon as one side is [NaN]. *)
Definition num_lt (a b : option Z) : bool :=
  match a, b with
  | Some x, Some y => x <? y
  | _, _ => false
  end.

Definition num_gt (a b : option Z) : bool := num_lt b a.

Definition num_sub (a b : option Z) : option Z :=
  match a, b with
  | Some x, Some y => Some (x - y)
  | _, _ => None
  end.

(** [v.length]: code units of a string, elements of an array, the
    member of that name of an object. *)
Definition length_of (v : json) : option json :=
  match v with
  | JStr s => Some (JNum (Z.of_nat (utf16_length s)))
  | JArr elems => Some (JNum (Z.of_nat (List.length elems)))
  | JObj m => lookup_member "length" m
  | _ => None
  end.

(** *** [JSON.stringify] and [JSON.parse] *)

Module JSON.

Definition hex_digit (n : N) : ascii :=
  ascii_of_N (if (n <? 10)%N then 48 + n else 87 + n).

(** [QuoteJSONString]: the two-character escapes, [\u00xx] for the
    other control characters, every other byte as it is. *)
Definition escape_char (c : ascii) : list ascii :=
  if Ascii.eqb c "034" then ["\"; "034"]%char
  else if Ascii.eqb c "\" then ["\"; "\"]%char
  else if Ascii.eqb c "008" then ["\"; "b"]%char
  else if Ascii.eqb c "012" then ["\"; "f"]%char
  else if Ascii.eqb c "010" then ["\"; "n"]%char
  else if Ascii.eqb c "013" then ["\"; "r"]%char
  else if Ascii.eqb c "009" then ["\"; "t"]%char
  else if (N_of_ascii c <? 32)%N
       then ["\"; "u"; "0"; "0"]%char
              ++ [hex_digit (N_of_ascii c / 16); hex_digit (N_of_ascii c mod 16)]
  else [c].

Definition QuoteJSONString (s : string) : list ascii :=
  "034"%char :: flat_map escape_char (chars s) ++ ["034"%char].

Definition spaces (n : nat) : list ascii := repeat " "%char n.

(** The line break and indentation that separate members when a gap
    is given; nothing in the compact form. *)
Definition line_break (gap indent : nat) : list ascii :=
  match gap with O => [] | _ => "010"%char :: spaces indent end.

Definition colon_space (gap : nat) : list ascii :=
  match gap with O => [] | _ => [" "%char] end.

(** [SerializeJSONProperty] with its [SerializeJSONArray] and
    [SerializeJSONObject], [gap] spaces per level and [indent] spaces
    at the current one. *)
Fixpoint SerializeJSONProperty (gap indent : nat) (v : json) : list ascii :=
  match v with
  | JNull => chars "null"
  | JBool true => chars "true"
  | JBool false => chars "false"
  | JNum n => NumberToString n
  | JStr s => QuoteJSONString s
  | JArr elems =>
    match elems with
    | [] => chars "[]"
    | _ =>
      let inner := (indent + gap)%nat in
      "["%char :: line_break gap inner
        ++ join_with (","%char :: line_break gap inner)
                     (map (SerializeJSONProperty gap inner) elems)
        ++ line_break gap indent ++ ["]"%char]
    end
  | JObj members =>
    match members with
    | [] => chars "{}"
    | _ =>
      let inner := (indent + gap)%nat in
      "{"%char :: line_break gap inner
        ++ join_with (","%char :: line_break gap inner)
                     (map (fun kv => QuoteJSONString (fst kv) ++ ":"%char ::
                                     colon_space gap
                                     ++ SerializeJSONProperty gap inner (snd kv))
                          members)
        ++ line_break gap indent ++ ["}"%char]
    end
  end.

(** [JSON.stringify(v, null, space)]; [space] is clamped to 10 and
    [0] gives the compact form of [JSON.stringify(v)]. *)
Definition stringify (v : json) (space : nat) : string :=
  str (SerializeJSONProperty (Nat.min space 10) 0 v).

Definition is_ws (c : ascii) : bool :=
  Ascii.eqb c " " || Ascii.eqb c "009" || Ascii.eqb c "010" || Ascii.eqb c "013".

Fixpoint skip_ws (s : list ascii) : list ascii :=
  match s with
  | c :: r => if is_ws c then skip_ws r else s
  | [] => []
  end.

Definition hex_value (c : ascii) : option N :=
  let n := N_of_ascii c in
  if ((48 <=? n) && (n <=? 57))%N then Some (n - 48)%N
  else if ((97 <=? n) && (n <=? 102))%N then Some (n - 87)%N
  else if ((65 <=? n) && (n <=? 70))%N then Some (n - 55)%N
  else None.

Definition hex4 (h1 h2 h3 h4 : ascii) : option N :=
  match hex_value h1, hex_value h2, hex_value h3, hex_value h4 with
  | Some a, Some b, Some c, Some d => Some (((a * 16 + b) * 16 + c) * 16 + d)%N
  | _, _, _, _ => None
  end.

Definition utf8_encode (cp : N) : list ascii :=
  (if cp <? 128 then [ascii_of_N cp]
   else if cp <? 2048 then
     [ascii_of_N (192 + cp / 64); ascii_of_N (128 + cp mod 64)]
   else if cp <? 65536 then
     [ascii_of_N (224 + cp / 4096); ascii_of_N (128 + (cp / 64) mod 64);
      ascii_of_N (128 + cp mod 64)]
   else
     [ascii_of_N (240 + cp / 262144); ascii_of_N (128 + (cp / 4096) mod 64);
      ascii_of_N (128 + (cp / 64) mod 64); ascii_of_N (128 + cp mod 64)])%N.

Definition unescape (e : ascii) : option ascii :=
  if Ascii.eqb e "034" then Some "034"%char
  else if Ascii.eqb e "\" then Some "\"%char
  else if Ascii.eqb e "/" then Some "/"%char
  else if Ascii.eqb e "b" then Some "008"%char
  else if Ascii.eqb e "f" then Some "012"%char
  else if Ascii.eqb e "n" then Some "010"%char
  else if Ascii.eqb e "r" then Some "013"%char
  else if Ascii.eqb e "t" then Some "009"%char
  else None.

(** The low half of a surrogate pair written as a second [\u] escape. *)
Definition low_surrogate_after (hi : N) (s : list ascii) : option N :=
  if ((55296 <=? hi) && (hi <? 56320))%N then
    match s with
    | b :: u :: l1 :: l2 :: l3 :: l4 :: _ =>
      if Ascii.eqb b "\" && Ascii.eqb u "u" then
        match hex4 l1 l2 l3 l4 with
        | Some lo => if ((56320 <=? lo) && (lo <? 57344))%N then Some lo else None
        | None => None
        end
      else None
    | _ => None
    end
  else None.

Definition prepend (p : list ascii) (r : option (list ascii * list ascii))
  : option (list ascii * list ascii) :=
  match r with
  | Some (body, rest) => Some (p ++ body, rest)
  | None => None
  end.

(** The characters of a string literal after its opening quote, and
    what follows the closing one. *)
Fixpoint parse_string (s : list ascii) : option (list ascii * list ascii) :=
  match s with
  | [] => None
  | c :: r =>
    if Ascii.eqb c "034" then Some ([], r)
    else if Ascii.eqb c "\" then
      match r with
      | [] => None
      | e :: r1 =>
        if Ascii.eqb e "u" then
          match r1 with
          | h1 :: h2 :: h3 :: h4 :: r2 =>
            match hex4 h1 h2 h3 h4 with
            | None => None
            | Some hi =>
              match low_surrogate_after hi r2 with
              | Some lo =>
                match r2 with
                | _ :: _ :: _ :: _ :: _ :: _ :: r3 =>
                  prepend (utf8_encode (65536 + (hi - 55296) * 1024 + (lo - 56320))%N)
                          (parse_string r3)
                | _ => None
                end
              | None => prepend (utf8_encode hi) (parse_string r2)
              end
            end
          | _ => None
          end
        else
          match unescape e with
          | Some c' => prepend [c'] (parse_string r1)
          | None => None
          end
      end
    else if (N_of_ascii c <? 32)%N then None
    else prepend [c] (parse_string r)
  end.

Fixpoint span_digits (s : list ascii) : list ascii * list ascii :=
  match s with
  | c :: r =>
    if is_digit c then let (ds, rest) := span_digits r in (c :: ds, rest)
    else ([], s)
  | [] => ([], [])
  end.

Definition push_digit (c : ascii) (u : Decimal.uint) : Decimal.uint :=
  match (N_of_ascii c - 48)%N with
  | 0%N => Decimal.D0 u | 1%N => Decimal.D1 u | 2%N => Decimal.D2 u
  | 3%N => Decimal.D3 u | 4%N => Decimal.D4 u | 5%N => Decimal.D5 u
  | 6%N => Decimal.D6 u | 7%N => Decimal.D7 u | 8%N => Decimal.D8 u
  | _ => Decimal.D9 u
  end.

Definition uint_of_digits (ds : list ascii) : Decimal.uint :=
  fold_right push_digit Decimal.Nil ds.

Definition starts_fraction (s : list ascii) : bool :=
  match s with
  | c :: _ => Ascii.eqb c "." || Ascii.eqb c "e" || Ascii.eqb c "E"
  | [] => false
  end.

(** An integer literal without a leading zero.  A fraction or an
    exponent would make a number that is not an integer: such a text
    is refused, as the model has integers only. *)
Definition parse_digits (s : list ascii) : option (N * list ascii) :=
  let (ds, rest) := span_digits s in
  match ds with
  | [] => None
  | d :: more =>
    if Ascii.eqb d "0" && negb (match more with [] => true | _ => false end) then None
    else if starts_fraction rest then None
    else Some (N.of_uint (uint_of_digits ds), rest)
  end.

Definition parse_number (s : list ascii) : option (json * list ascii) :=
  match s with
  | c :: r =>
    if Ascii.eqb c "-" then
      match parse_digits r with
      | Some (n, rest) => Some (JNum (- Z.of_N n), rest)
      | None => None
      end
    else
      match parse_digits s with
      | Some (n, rest) => Some (JNum (Z.of_N n), rest)
      | None => None
      end
  | [] => None
  end.

Fixpoint drop_literal (p s : list ascii) : option (list ascii) :=
  match p, s with
  | [], _ => Some s
  | a :: p', b :: s' => if Ascii.eqb a b then drop_literal p' s' else None
  | _ :: _, [] => None
  end.

Definition keyword (kw : string) (v : json) (s : list ascii) : option (json * list ascii) :=
  match drop_literal (chars kw) s with
  | Some rest => Some (v, rest)
  | None => None
  end.

Definition has_key (k : string) (m : list (string * json)) : bool :=
  existsb (fun kv => String.eqb (fst kv) k) m.

Fixpoint replace_key (k : string) (v : json) (m : list (string * json))
  : list (string * json) :=
  match m with
  | [] => []
  | (k', v') :: m' =>
    if String.eqb k' k then (k', v) :: m' else (k', v') :: replace_key k v m'
  end.

(** [CreateDataProperty]: a name met again keeps its place and takes
    the new value. *)
Definition obj_set (m : list (string * json)) (k : string) (v : json)
  : list (string * json) :=
  if has_key k m then replace_key k v m else m ++ [(k, v)].

(** Recursive descent on the text; [fuel] bounds the number of nested
    calls and is taken larger than the text is long. *)
Fixpoint parse_value (fuel : nat) (s : list ascii) {struct fuel}
  : option (json * list ascii) :=
  match fuel with
  | O => None
  | S fuel' =>
    match skip_ws s with
    | [] => None
    | c :: r =>
      if Ascii.eqb c "n" then keyword "null" JNull (c :: r)
      else if Ascii.eqb c "t" then keyword "true" (JBool true) (c :: r)
      else if Ascii.eqb c "f" then keyword "false" (JBool false) (c :: r)
      else if Ascii.eqb c "034" then
        match parse_string r with
        | Some (body, rest) => Some (JStr (str body), rest)
        | None => None
        end
      else if Ascii.eqb c "[" then
        match skip_ws r with
        | c' :: r' =>
          if Ascii.eqb c' "]" then Some (JArr [], r')
          else parse_elements fuel' r []
        | [] => None
        end
      else if Ascii.eqb c "{" then
        match skip_ws r with
        | c' :: r' =>
          if Ascii.eqb c' "}" then Some (JObj [], r')
          else parse_members fuel' r []
        | [] => None
        end
      else parse_number (c :: r)
    end
  end
with parse_elements (fuel : nat) (s : list ascii) (acc : list json) {struct fuel}
  : option (json * list ascii) :=
  match fuel with
  | O => None
  | S fuel' =>
    match parse_value fuel' s with
    | None => None
    | Some (v, rest) =>
      match skip_ws rest with
      | c :: r =>
        if Ascii.eqb c "," then parse_elements fuel' r (acc ++ [v])
        else if Ascii.eqb c "]" then Some (JArr (acc ++ [v]), r)
        else None
      | [] => None
      end
    end
  end
with parse_members (fuel : nat) (s : list ascii) (acc : list (string * json))
  {struct fuel} : option (json * list ascii) :=
  match fuel with
  | O => None
  | S fuel' =>
    match skip_ws s with
    | q :: r =>
      if Ascii.eqb q "034" then
        match parse_string r with
        | None => None
        | Some (key, rest) =>
          match skip_ws rest with
          | colon :: r1 =>
            if Ascii.eqb colon ":" then
              match parse_value fuel' r1 with
              | None => None
              | Some (v, rest1) =>
                match skip_ws rest1 with
                | c :: r2 =>
                  if Ascii.eqb c ","
                  then parse_members fuel' r2 (obj_set acc (str key) v)
                  else if Ascii.eqb c "}"
                  then Some (JObj (obj_set acc (str key) v), r2)
                  else None
                | [] => None
                end
              end
            else None
          | [] => None
          end
        end
      else None
    | [] => None
    end
  end.

(** [JSON.parse(text)]: the value, or a [SyntaxError] when the text is
    not one JSON value alone. *)
Definition parse (text : string) : completion json :=
  let cs := chars text in
  match parse_value (S (List.length cs)) cs with
  | Some (v, rest) =>
    match skip_ws rest with
    | [] => Return v
    | _ :: _ => Throw SyntaxError
    end
  | None => Throw SyntaxError
  end.

End JSON.

(** *** Regular expressions *)

Module RegExp.

(** The fragment of the pattern language that the sources use:
    literal text, [\d], a character class of ranges, [.*], sequence,
    alternation, a counted repetition and the two anchors. *)
Inductive regex : Type :=
| Lit (s : string)
| Digit
| Class (ranges : list (ascii * ascii))
| AnyStar
| Seq (r1 r2 : regex)
| Alt (r1 r2 : regex)
| Repeat (n : nat) (r : regex)
| Bol
| Eol.

Definition to_lower (c : ascii) : ascii :=
  let n := N_of_ascii c in
  if ((65 <=? n) && (n <=? 90))%N then ascii_of_N (n + 32) else c.

Definition to_upper (c : ascii) : ascii :=
  let n := N_of_ascii c in
  if ((97 <=? n) && (n <=? 122))%N then ascii_of_N (n - 32) else c.

(** Two characters match; under the [i] flag, up to the case of the
    ASCII letters (no character beyond ASCII folds to an ASCII one
    without the [u] flag). *)
Definition char_eq (ci : bool) (a b : ascii) : bool :=
  if ci then Ascii.eqb (to_lower a) (to_lower b) else Ascii.eqb a b.

Fixpoint match_literal (ci : bool) (lit s : list ascii) : option (list ascii) :=
  match lit, s with
  | [], _ => Some s
  | a :: lit', b :: s' => if char_eq ci a b then match_literal ci lit' s' else None
  | _ :: _, [] => None
  end.

Definition in_ranges (c : ascii) (ranges : list (ascii * ascii)) : bool :=
  existsb (fun r => (N_of_ascii (fst r) <=? N_of_ascii c)%N
                    && (N_of_ascii c <=? N_of_ascii (snd r))%N) ranges.

Definition class_match (ci : bool) (ranges : list (ascii * ascii)) (c : ascii) : bool :=
  in_ranges c ranges
  || (ci && (in_ranges (to_lower c) ranges || in_ranges (to_upper c) ranges)).

(** A line terminator starts here: LF, CR, or the UTF-8 bytes of
    U+2028 or U+2029.  The dot matches none of them. *)
Definition line_terminator_at (s : list ascii) : bool :=
  match s with
  | c :: r =>
    Ascii.eqb c "010" || Ascii.eqb c "013"
    || (Ascii.eqb c "226"
        && match r with
           | c2 :: c3 :: _ =>
             Ascii.eqb c2 "128" && (Ascii.eqb c3 "168" || Ascii.eqb c3 "169")
           | _ => false
           end)
  | [] => false
  end.

(** The ends of the matches of [.*] from here, the longest first. *)
Fixpoint any_star (pos : nat) (s : list ascii) : list (nat * list ascii) :=
  match s with
  | [] => [(pos, [])]
  | _ :: r =>
    if line_terminator_at s then [(pos, s)]
    else any_star (S pos) r ++ [(pos, s)]
  end.

(** The matches of [r] that start at index [pos], where [s] is the
    text from there on: each with the index where it ends and the text
    left, in the order in which a backtracking matcher tries them. *)
Fixpoint ends (ci : bool) (r : regex) (pos : nat) (s : list ascii)
  : list (nat * list ascii) :=
  match r with
  | Lit l =>
    match match_literal ci (chars l) s with
    | Some rest => [((pos + List.length (chars l))%nat, rest)]
    | None => []
    end
  | Digit =>
    match s with
    | c :: rest => if is_digit c then [(S pos, rest)] else []
    | [] => []
    end
  | Class ranges =>
    match s with
    | c :: rest => if class_match ci ranges c then [(S pos, rest)] else []
    | [] => []
    end
  | AnyStar => any_star pos s
  | Seq r1 r2 =>
    flat_map (fun m => ends ci r2 (fst m) (snd m)) (ends ci r1 pos s)
  | Alt r1 r2 => ends ci r1 pos s ++ ends ci r2 pos s
  | Repeat n r1 =>
    Nat.iter n (flat_map (fun m => ends ci r1 (fst m) (snd m))) [(pos, s)]
  | Bol => if Nat.eqb pos 0 then [(pos, s)] else []
  | Eol => match s with [] => [(pos, s)] | _ :: _ => [] end
  end.

(** The end of the first match at or after index [pos]. *)
Fixpoint search (ci : bool) (r : regex) (pos : nat) (s : list ascii) : option nat :=
  match ends ci r pos s with
  | (e, _) :: _ => Some e
  | [] =>
    match s with
    | [] => None
    | _ :: s' => search ci r (S pos) s'
    end
  end.

(** A regular-expression object: its pattern and flags, and the
    mutable [lastIndex]. *)
Record object : Type := {
  source : regex;
  ignoreCase : bool;
  global : bool;
  lastIndex : nat
}.

(** [RegExp.prototype.test] ([RegExpBuiltinExec]): the result, and the
    value that it assigns to [lastIndex] when it assigns one, which it
    does only under the [g] flag.  Indices count bytes here. *)
Definition test (re : object) (s : list ascii) : bool * option nat :=
  let start := if global re then lastIndex re else 0%nat in
  if (List.length s <? start)%nat
  then (false, if global re then Some 0%nat else None)
  else
    match search (ignoreCase re) (source re) start (drop start s) with
    | Some e => (true, if global re then Some e else None)
    | None => (false, if global re then Some 0%nat else None)
    end.

(** [test] on the object that a regular-expression literal without
    the [g] flag makes. *)
Definition test_literal (r : regex) (ci : bool) (s : list ascii) : bool :=
  fst (test {| source := r; ignoreCase := ci; global := false; lastIndex := 0 |} s).

End RegExp.

(** *** Shared state *)

(** The names of the [ERROR_PATTERNS] table of the error handler. *)
Inductive pattern_name : Type :=
| NETWORK_FAILED | NETWORK_TIMEOUT | NETWORK_OFFLINE | DNS_FAILED
| CORS_ERROR
| API_UNAUTHORIZED | API_FORBIDDEN | API_NOT_FOUND | API_RATE_LIMIT
| API_SERVER_ERROR
| CONFIG_MISSING | CONFIG_INVALID.

Definition pattern_name_eq_dec (a b : pattern_name) : {a = b} + {a <> b}.
Proof. decide equality. Defined.

(** What the modelled functions can reach beyond their arguments: the
    regular-expression objects of the error handler (one per pattern,
    made once when the singleton is built) and the browser's
    [localStorage]. *)
Record World : Type := {
  patterns : pattern_name -> RegExp.object;
  localStorage : gmap string string
}.

Definition M (A : Type) : Type := World -> A * World.

Definition ret {A : Type} (a : A) : M A := fun w => (a, w).

Definition bind {A B : Type} (m : M A) (k : A -> M B) : M B :=
  fun w => let (a, w') := m w in k a w'.

Definition set_lastIndex (name : pattern_name) (i : nat) (w : World) : World :=
  {| patterns := fun n =>
       if pattern_name_eq_dec n name
       then {| RegExp.source := RegExp.source (patterns w n);
               RegExp.ignoreCase := RegExp.ignoreCase (patterns w n);
               RegExp.global := RegExp.global (patterns w n);
               RegExp.lastIndex := i |}
       else patterns w n;
     localStorage := localStorage w |}.

(** [this.ERROR_PATTERNS.NAME.test(s)] *)
Definition test_pattern (name : pattern_name) (s : list ascii) : M bool :=
  fun w =>
    let (result, assigned) := RegExp.test (patterns w name) s in
    (result, match assigned with
             | Some i => set_lastIndex name i w
             | None => w
             end).

Definition getItem (k : string) (w : World) : option string :=
  localStorage w !! k.

Definition setItem (k v : string) (w : World) : World :=
  {| patterns := patterns w; localStorage := <[k := v]> (localStorage w) |}.

Definition removeItem (k : string) (w : World) : World :=
  {| patterns := patterns w; localStorage := delete k (localStorage w) |}.

(** *** The error handler ([ErrorHandler] of errorHandler.ts) *)

Inductive ErrorType : Type :=
| network | api | auth | config | timeout | cors | unknown.

Inductive Severity : Type :=
| low | medium | high | critical.

(** [ErrorInfo]; [shouldEnableOfflineMode] is optional in the source
    and absent ([None]) from the diagnoses that do not set it. *)
Record ErrorInfo : Type := {
  type : ErrorType;
  severity : Severity;
  message : string;
  details : json;
  suggestions : list string;
  canRetry : bool;
  shouldEnableOfflineMode : option bool
}.

Definition alt3 (a b c : RegExp.regex) : RegExp.regex :=
  RegExp.Alt a (RegExp.Alt b c).

Definition alt4 (a b c d : RegExp.regex) : RegExp.regex :=
  RegExp.Alt a (RegExp.Alt b (RegExp.Alt c d)).

(** The sources of the twelve patterns. *)
Definition pattern_source (name : pattern_name) : RegExp.regex :=
  match name with
  | NETWORK_FAILED =>
    alt3 (RegExp.Lit "net::ERR_FAILED") (RegExp.Lit "Failed to fetch")
         (RegExp.Lit "Network request failed")
  | NETWORK_TIMEOUT =>
    alt3 (RegExp.Lit "timeout") (RegExp.Lit "ETIMEDOUT")
         (RegExp.Lit "Request timed out")
  | NETWORK_OFFLINE =>
    RegExp.Alt (RegExp.Lit "net::ERR_INTERNET_DISCONNECTED") (RegExp.Lit "offline")
  | DNS_FAILED =>
    RegExp.Alt (RegExp.Lit "net::ERR_NAME_NOT_RESOLVED") (RegExp.Lit "DNS")
  | CORS_ERROR =>
    alt3 (RegExp.Lit "CORS") (RegExp.Lit "Cross-Origin") (RegExp.Lit "Access-Control")
  | API_UNAUTHORIZED =>
    alt3 (RegExp.Lit "401") (RegExp.Lit "Unauthorized") (RegExp.Lit "Invalid token")
  | API_FORBIDDEN =>
    alt3 (RegExp.Lit "403") (RegExp.Lit "Forbidden") (RegExp.Lit "Access denied")
  | API_NOT_FOUND =>
    alt3 (RegExp.Lit "404") (RegExp.Lit "Not found") (RegExp.Lit "Worker not found")
  | API_RATE_LIMIT =>
    alt3 (RegExp.Lit "429") (RegExp.Lit "Too many requests") (RegExp.Lit "Rate limit")
  | API_SERVER_ERROR =>
    alt3 (RegExp.Seq (RegExp.Lit "5") (RegExp.Repeat 2 RegExp.Digit))
         (RegExp.Lit "Internal server error") (RegExp.Lit "Service unavailable")
  | CONFIG_MISSING =>
    alt4 (RegExp.Lit "API token") (RegExp.Lit "Account ID")
         (RegExp.Seq (RegExp.Lit "Worker ID")
                     (RegExp.Seq RegExp.AnyStar (RegExp.Lit "required")))
         (RegExp.Lit "not configured")
  | CONFIG_INVALID =>
    RegExp.Alt (RegExp.Seq (RegExp.Lit "Invalid")
                           (RegExp.Seq RegExp.AnyStar (RegExp.Lit "format")))
               (RegExp.Lit "Malformed")
  end.

(** [ERROR_PATTERNS]: every pattern carries the flag [i] and no other. *)
Definition ERROR_PATTERNS (name : pattern_name) : RegExp.object :=
  {| RegExp.source := pattern_source name;
     RegExp.ignoreCase := true;
     RegExp.global := false;
     RegExp.lastIndex := 0 |}.

(** The table after any history: the objects are never replaced
    ([readonly]), only their [lastIndex] is open to assignment. *)
Definition patterns_at (lastIndexes : pattern_name -> nat) (name : pattern_name)
  : RegExp.object :=
  {| RegExp.source := pattern_source name;
     RegExp.ignoreCase := true;
     RegExp.global := false;
     RegExp.lastIndex := lastIndexes name |}.

(** [if (v) return v;] with what follows it. *)
Definition if_truthy (v : option json) (otherwise : json) : json :=
  match v with
  | Some j => if truthy v then j else otherwise
  | None => otherwise
  end.

Definition extractErrorMessage (error : option json) : json :=
  match error with
  | Some (JStr s) => JStr s
  | _ =>
    if_truthy (opt_member error "message")
      (if_truthy (opt_member error "error")
         (if_truthy (opt_member error "statusText")
            (JStr "未知错误")))
  end.

Definition createNetworkFailedError (message : json) : ErrorInfo :=
  {| type := network;
     severity := high;
     message := "网络连接失败";
     details := message;
     suggestions :=
       [ "检查网络连接是否正常";
         "确认防火墙或代理设置";
         "尝试切换到离线模式继续工作";
         "检查Cloudflare API服务状态";
         "运行网络诊断获取详细信息" ]%string;
     canRetry := true;
     shouldEnableOfflineMode := Some true |}.

Definition createTimeoutError (message : json) : ErrorInfo :=
  {| type := timeout;
     severity := medium;
     message := "请求超时";
     details := message;
     suggestions :=
       [ "检查网络连接速度";
         "稍后重试";
         "考虑使用离线模式";
         "检查是否有网络代理影响速度" ]%string;
     canRetry := true;
     shouldEnableOfflineMode := Some true |}.

Definition createOfflineError (message : json) : ErrorInfo :=
  {| type := network;
     severity := high;
     message := "设备处于离线状态";
     details := message;
     suggestions :=
       [ "检查网络连接";
         "启用离线模式继续工作";
         "连接网络后重新同步数据" ]%string;
     canRetry := false;
     shouldEnableOfflineMode := Some true |}.

Definition createDnsError (message : json) : ErrorInfo :=
  {| type := network;
     severity := high;
     message := "DNS解析失败";
     details := message;
     suggestions :=
       [ "检查DNS设置";
         "尝试使用其他DNS服务器（如8.8.8.8）";
         "检查网络连接";
         "联系网络管理员" ]%string;
     canRetry := true;
     shouldEnableOfflineMode := None |}.

Definition createCorsError (message : json) : ErrorInfo :=
  {| type := cors;
     severity := medium;
     message := "跨域请求被阻止";
     details := message;
     suggestions :=
       [ "这通常是浏览器安全策略导致的";
         "尝试使用HTTPS访问";
         "检查Cloudflare Worker的CORS设置";
         "考虑使用浏览器扩展或代理" ]%string;
     canRetry := true;
     shouldEnableOfflineMode := None |}.

Definition createAuthError (message : json) : ErrorInfo :=
  {| type := auth;
     severity := high;
     message := "API Token无效或已过期";
     details := message;
     suggestions :=
       [ "检查API Token是否正确";
         "确认Token是否已过期";
         "重新生成API Token";
         "检查Token权限设置" ]%string;
     canRetry := false;
     shouldEnableOfflineMode := None |}.

Definition createForbiddenError (message : json) : ErrorInfo :=
  {| type := auth;
     severity := high;
     message := "权限不足";
     details := message;
     suggestions :=
       [ "检查API Token权限";
         "确认Account ID是否正确";
         "联系管理员获取必要权限";
         "检查Worker访问权限设置" ]%string;
     canRetry := false;
     shouldEnableOfflineMode := None |}.

Definition createNotFoundError (message : json) : ErrorInfo :=
  {| type := api;
     severity := medium;
     message := "资源未找到";
     details := message;
     suggestions :=
       [ "检查Worker ID是否正确";
         "确认Account ID是否正确";
         "检查Worker是否已部署";
         "验证API端点URL" ]%string;
     canRetry := false;
     shouldEnableOfflineMode := None |}.

Definition createRateLimitError (message : json) : ErrorInfo :=
  {| type := api;
     severity := medium;
     message := "API调用频率超限";
     details := message;
     suggestions :=
       [ "等待一段时间后重试";
         "减少API调用频率";
         "考虑升级API计划";
         "使用离线模式减少API调用" ]%string;
     canRetry := true;
     shouldEnableOfflineMode := Some true |}.

Definition createServerError (message : json) : ErrorInfo :=
  {| type := api;
     severity := high;
     message := "Cloudflare服务器错误";
     details := message;
     suggestions :=
       [ "稍后重试";
         "检查Cloudflare服务状态";
         "使用离线模式继续工作";
         "联系Cloudflare支持" ]%string;
     canRetry := true;
     shouldEnableOfflineMode := Some true |}.

Definition createConfigMissingError (message : json) : ErrorInfo :=
  {| type := config;
     severity := critical;
     message := "配置信息缺失";
     details := message;
     suggestions :=
       [ "前往配置页面设置API Token";
         "确保Account ID已正确填写";
         "检查Worker ID配置";
         "保存配置后重试" ]%string;
     canRetry := false;
     shouldEnableOfflineMode := None |}.

Definition createConfigInvalidError (message : json) : ErrorInfo :=
  {| type := config;
     severity := high;
     message := "配置格式无效";
     details := message;
     suggestions :=
       [ "检查API Token格式";
         "验证Account ID格式";
         "确认Worker ID格式";
         "参考官方文档检查配置" ]%string;
     canRetry := false;
     shouldEnableOfflineMode := None |}.

Definition createUnknownError (message : json) : ErrorInfo :=
  {| type := unknown;
     severity := medium;
     message := "未知错误";
     details := message;
     suggestions :=
       [ "尝试刷新页面";
         "检查浏览器控制台获取更多信息";
         "运行网络诊断";
         "联系技术支持" ]%string;
     canRetry := true;
     shouldEnableOfflineMode := None |}.

(** [`${errorMessage} ${error?.stack || ''} ${context || ''}`] *)
Definition errorString (error : option json) (context : option string) : list ascii :=
  ToString (extractErrorMessage error)
  ++ " "%char ::
     (if truthy (opt_member error "stack")
      then ToString_opt (opt_member error "stack") else [])
  ++ " "%char ::
     match context with
     | Some c => chars c
     | None => []
     end.

(** [if (this.ERROR_PATTERNS.NAME.test(errorString)) return hit;] with
    what follows it. *)
Definition when_matches (name : pattern_name) (s : list ascii)
  (hit : ErrorInfo) (otherwise : M ErrorInfo) : M ErrorInfo :=
  bind (test_pattern name s) (fun matched => if matched then ret hit else otherwise).

Definition analyzeError (error : option json) (context : option string) : M ErrorInfo :=
  let errorMessage := extractErrorMessage error in
  let errorString := errorString error context in
  when_matches NETWORK_FAILED errorString (createNetworkFailedError errorMessage)
  (when_matches NETWORK_TIMEOUT errorString (createTimeoutError errorMessage)
  (when_matches NETWORK_OFFLINE errorString (createOfflineError errorMessage)
  (when_matches DNS_FAILED errorString (createDnsError errorMessage)
  (when_matches CORS_ERROR errorString (createCorsError errorMessage)
  (when_matches API_UNAUTHORIZED errorString (createAuthError errorMessage)
  (when_matches API_FORBIDDEN errorString (createForbiddenError errorMessage)
  (when_matches API_NOT_FOUND errorString (createNotFoundError errorMessage)
  (when_matches API_RATE_LIMIT errorString (createRateLimitError errorMessage)
  (when_matches API_SERVER_ERROR errorString (createServerError errorMessage)
  (when_matches CONFIG_MISSING errorString (createConfigMissingError errorMessage)
  (when_matches CONFIG_INVALID errorString (createConfigInvalidError errorMessage)
  (ret (createUnknownError errorMessage))))))))))))).

Definition is_no_retry_type (t : ErrorType) : bool :=
  match t with
  | auth => true
  | config => true
  | _ => false
  end.

(** [shouldRetry(errorInfo, retryCount, maxRetries = 3)] *)
Definition shouldRetry (errorInfo : ErrorInfo) (retryCount : Z) (maxRetries : option Z)
  : bool :=
  let maxRetries := match maxRetries with Some m => m | None => 3 end in
  if negb (canRetry errorInfo) || (maxRetries <=? retryCount) then false
  else if is_no_retry_type (type errorInfo) then false
  else true.

(** The doubles that the delay computation meets on integer
    arguments: an integer, an infinity or [NaN].  An integer stands for
    the double of that value (an integer that no double holds is not an
    input), and the two zeros are not told apart. *)
Inductive double : Type :=
| Int (n : Z)
| Infinity
| NegInfinity
| NaN.

(** The double for an exact result [n] whose odd part fits the
    mantissa, as the product of a double by a power of two is: [n]
    itself while it is below 2^1024 in size, an infinity from there on. *)
Definition double_of_Z (n : Z) : double :=
  if 2 ^ 1024 <=? n then Infinity
  else if n <=? - 2 ^ 1024 then NegInfinity
  else Int n.

(** [Math.pow(2, n)] for a count [n]: exact up to 2^1023, [Infinity]
    from 2^1024 on. *)
Definition Math_pow2 (n : N) : double :=
  if (1024 <=? n)%N then Infinity else Int (2 ^ Z.of_N n).

(** An integer times an infinity. *)
Definition times_infinity (a : Z) (positive : bool) : double :=
  if a =? 0 then NaN
  else if Bool.eqb (0 <? a) positive then Infinity
  else NegInfinity.

(** [x * p] where one factor is a power of two or an infinity: the
    product of two integers is then exact, or an infinity. *)
Definition double_mul (x p : double) : double :=
  match x, p with
  | NaN, _ => NaN
  | _, NaN => NaN
  | Int a, Int b => double_of_Z (a * b)
  | Int a, Infinity => times_infinity a true
  | Int a, NegInfinity => times_infinity a false
  | Infinity, Int b => times_infinity b true
  | NegInfinity, Int b => times_infinity b false
  | Infinity, Infinity => Infinity
  | NegInfinity, NegInfinity => Infinity
  | Infinity, NegInfinity => NegInfinity
  | NegInfinity, Infinity => NegInfinity
  end.

(** [Math.min(x, y)]: [NaN] as soon as one argument is. *)
Definition Math_min (x y : double) : double :=
  match x, y with
  | NaN, _ => NaN
  | _, NaN => NaN
  | NegInfinity, _ => NegInfinity
  | _, NegInfinity => NegInfinity
  | Infinity, _ => y
  | _, Infinity => x
  | Int a, Int b => Int (Z.min a b)
  end.

(** [calculateRetryDelay(retryCount, baseDelay = 1000)], for a retry
    count that is a natural number and a base delay that is an
    integer. *)
Definition calculateRetryDelay (retryCount : N) (baseDelay : option Z) : double :=
  let baseDelay := match baseDelay with Some b => b | None => 1000 end in
  Math_min (double_mul (Int baseDelay) (Math_pow2 retryCount)) (Int 10000).

(** The module's convenience wrappers. *)
Definition shouldRetryError := shouldRetry.
Definition getRetryDelay := calculateRetryDelay.

(** *** Network diagnostics ([NetworkDiagnostics] of errorHandler.ts) *)

Record NetworkDiagnosticResult : Type := {
  success : bool;
  result_message : string;
  result_details : option json;
  timestamp : Z;
  duration : option Z
}.

Inductive OverallStatus : Type :=
| healthy | degraded | failed.

Record Overall : Type := {
  status : OverallStatus;
  issues : list string;
  recommendations : list string
}.

Record DiagnosticReport : Type := {
  basicConnectivity : NetworkDiagnosticResult;
  dnsResolution : NetworkDiagnosticResult;
  cloudflareApi : NetworkDiagnosticResult;
  corsSupport : NetworkDiagnosticResult;
  overall : Overall
}.

(** What the four probes answer during one run: they only talk to the
    network, and each hands back a result whatever happens. *)
Record Probes : Type := {
  testBasicConnectivity : NetworkDiagnosticResult;
  testDnsResolution : NetworkDiagnosticResult;
  testCloudflareApi : option string -> NetworkDiagnosticResult;
  testCorsSupport : NetworkDiagnosticResult
}.

Definition token_given (apiToken : option string) : bool :=
  match apiToken with
  | Some t => negb (is_empty t)
  | None => false
  end.

(** [issues.push(issue); recommendations.push(advice)] when the probe
    failed. *)
Definition note (ok : bool) (issue advice : string)
  (lists : list string * list string) : list string * list string :=
  if ok then lists else (fst lists ++ [issue], snd lists ++ [advice]).

Definition generateDiagnosticReport (net : Probes) (apiToken : option string)
  : DiagnosticReport :=
  let basicConnectivity := testBasicConnectivity net in
  let dnsResolution := testDnsResolution net in
  let cloudflareApi := testCloudflareApi net apiToken in
  let corsSupport := testCorsSupport net in
  let lists := ([], []) in
  let lists :=
    note (success basicConnectivity)
         "基础网络连接失败" "检查网络连接和防火墙设置" lists in
  let lists :=
    note (success dnsResolution)
         "DNS解析失败" "检查DNS设置，尝试使用8.8.8.8或1.1.1.1" lists in
  let lists :=
    note (success cloudflareApi)
         "Cloudflare API连接失败"
         (if token_given apiToken
          then "检查API Token有效性和权限设置"
          else "配置有效的Cloudflare API Token") lists in
  let lists :=
    note (success corsSupport)
         "CORS支持异常" "检查浏览器CORS设置或使用代理" lists in
  let overallStatus :=
    if success basicConnectivity && success cloudflareApi
    then match fst lists with [] => healthy | _ :: _ => degraded end
    else failed in
  {| basicConnectivity := basicConnectivity;
     dnsResolution := dnsResolution;
     cloudflareApi := cloudflareApi;
     corsSupport := corsSupport;
     overall := {| status := overallStatus;
                   issues := fst lists;
                   recommendations := snd lists |} |}.

(** *** The offline manager's cache ([OfflineManager] of offlineManager.ts) *)

Definition CACHE_DURATION : Z := 24 * 60 * 60 * 1000.

(** [`cache-${key}`] *)
Definition cache_key (key : string) : string := ("cache-" ++ key)%string.

(** The object [{ data, timestamp }]; a member whose value is
    [undefined] is not serialized. *)
Definition cache_record (data : option json) (now : Z) : json :=
  JObj (match data with
        | Some d => [("data"%string, d)]
        | None => []
        end ++ [("timestamp"%string, JNum now)]).

(** [cacheData(key, data)] at time [now].  Nothing in the [try] block
    can throw in the model (the store takes every write), so the
    [catch] that logs a warning never runs. *)
Definition cacheData (key : string) (data : option json) (now : Z) (w : World) : World :=
  let cacheKey := cache_key key in
  let cacheData := cache_record data now in
  setItem cacheKey (JSON.stringify cacheData 0) w.

(** [Date.now() - cacheData.timestamp > this.CACHE_DURATION] *)
Definition isExpired (now : Z) (timestamp : option json) : bool :=
  num_gt (num_sub (Some now) (ToNumber timestamp)) (Some CACHE_DURATION).

(** The [try] block of [getCachedData] once the stored text is at
    hand: what it returns and the store it leaves, or what it throws. *)
Definition read_cached (cacheKey stored : string) (now : Z) (w : World)
  : completion (option json * World) :=
  match JSON.parse stored with
  | Throw e => Throw e
  | Return cacheData =>
    match get_member (Some cacheData) "timestamp" with
    | Throw e => Throw e
    | Return timestamp =>
      if isExpired now timestamp
      then Return (null, removeItem cacheKey w)
      else
        match get_member (Some cacheData) "data" with
        | Throw e => Throw e
        | Return data => Return (data, w)
        end
    end
  end.

(** [getCachedData(key)] at time [now].  The [catch] logs a warning
    and returns [null]; it has nothing to undo, as the one write of the
    block is its last step before returning. *)
Definition getCachedData (key : string) (now : Z) (w : World) : option json * World :=
  let cacheKey := cache_key key in
  match getItem cacheKey w with
  | None => (null, w)
  | Some stored =>
    if is_empty stored then (null, w)
    else
      match read_cached cacheKey stored now w with
      | Return r => r
      | Throw _ => (null, w)
      end
  end.

(** [Object.keys(localStorage).filter(key => key.startsWith('cache-'))] *)
Definition cacheKeys (w : World) : list string :=
  filter (fun key => startsWith (chars key) (chars "cache-") = true)
         (map fst (map_to_list (localStorage w))).

(** One round of the loop of [cleanExpiredCache]: the store and the
    count of removed entries. *)
Definition clean_entry (now : Z) (state : World * nat) (key : string) : World * nat :=
  let (w, cleanedCount) := state in
  match getItem key w with
  | None => state
  | Some stored =>
    if is_empty stored then state
    else
      match JSON.parse stored with
      | Throw _ => (removeItem key w, S cleanedCount)
      | Return cacheData =>
        match get_member (Some cacheData) "timestamp" with
        | Throw _ => (removeItem key w, S cleanedCount)
        | Return timestamp =>
          if isExpired now timestamp
          then (removeItem key w, S cleanedCount)
          else state
        end
      end
  end.

(** [cleanExpiredCache()] at time [now], with the number of entries it
    reports as cleaned. *)
Definition cleanExpiredCache (now : Z) (w : World) : World * nat :=
  fold_left (clean_entry now) (cacheKeys w) (w, 0%nat).

Record CacheStats : Type := {
  totalItems : nat;
  totalSize : nat;
  oldestItem : option Z
}.

(** One round of the loop of [getCacheStats], on the running size and
    oldest timestamp.  The size grows before the text is parsed; the
    timestamp is kept as the number it compares as, which is exact for
    the timestamps that are numbers (a string, which JavaScript keeps
    as it is and compares with another string by code units, is not
    followed). *)
Definition stats_entry (w : World) (state : nat * Z) (key : string) : nat * Z :=
  let (totalSize, oldestTimestamp) := state in
  match getItem key w with
  | None => state
  | Some stored =>
    if is_empty stored then state
    else
      let totalSize := (totalSize + utf16_length stored)%nat in
      match JSON.parse stored with
      | Throw _ => (totalSize, oldestTimestamp)
      | Return cacheData =>
        match get_member (Some cacheData) "timestamp" with
        | Throw _ => (totalSize, oldestTimestamp)
        | Return timestamp =>
          match ToNumber timestamp with
          | Some t =>
            if t <? oldestTimestamp then (totalSize, t)
            else (totalSize, oldestTimestamp)
          | None => (totalSize, oldestTimestamp)
          end
        end
      end
  end.

(** [getCacheStats()] at time [now]; [oldestItem] is [undefined]
    ([None]) when there is no cache key. *)
Definition getCacheStats (now : Z) (w : World) : CacheStats :=
  let cacheKeys := cacheKeys w in
  let (totalSize, oldestTimestamp) :=
    fold_left (stats_entry w) cacheKeys (0%nat, now) in
  {| totalItems := List.length cacheKeys;
     totalSize := totalSize;
     oldestItem := match cacheKeys with
                   | [] => None
                   | _ :: _ => Some oldestTimestamp
                   end |}.

(** *** Configuration files (configuration import/export utilities) *)

(** [Config] of the store. *)
Record Config : Type := {
  cloudflareApiToken : string;
  cloudflareAccountId : string;
  cloudflareWorkerId : string;
  cosSecretId : string;
  cosSecretKey : string;
  cosBucket : string;
  cosRegion : string
}.

(** The object that a [Config] is at run time. *)
Definition json_of_config (c : Config) : json :=
  JObj [ ("cloudflareApiToken"%string, JStr (cloudflareApiToken c));
         ("cloudflareAccountId"%string, JStr (cloudflareAccountId c));
         ("cloudflareWorkerId"%string, JStr (cloudflareWorkerId c));
         ("cosSecretId"%string, JStr (cosSecretId c));
         ("cosSecretKey"%string, JStr (cosSecretKey c));
         ("cosBucket"%string, JStr (cosBucket c));
         ("cosRegion"%string, JStr (cosRegion c)) ].

Record ValidationResult : Type := {
  isValid : bool;
  errors : list string;
  warnings : list string
}.

Definition requiredFields : list string :=
  [ "cloudflareApiToken"; "cloudflareAccountId"; "cloudflareWorkerId";
    "cosSecretId"; "cosSecretKey"; "cosBucket"; "cosRegion" ]%string.

Definition cloudflareFields : list string :=
  [ "cloudflareApiToken"; "cloudflareAccountId"; "cloudflareWorkerId" ]%string.

Definition cosFields : list string :=
  [ "cosSecretId"; "cosSecretKey"; "cosBucket"; "cosRegion" ]%string.

Definition validRegions : list string :=
  [ "ap-beijing"; "ap-shanghai"; "ap-guangzhou"; "ap-chengdu"; "ap-nanjing";
    "ap-hongkong" ]%string.

(** [validRegions.includes(v)] *)
Definition is_valid_region (v : option json) : bool :=
  match v with
  | Some (JStr s) => existsb (String.eqb s) validRegions
  | _ => false
  end.

(** [/^[a-f0-9]{32}$/i] *)
Definition account_id_pattern : RegExp.regex :=
  RegExp.Seq RegExp.Bol
    (RegExp.Seq (RegExp.Repeat 32 (RegExp.Class [("a", "f"); ("0", "9")]%char))
                RegExp.Eol).

(** The two branches of the loop over [requiredFields]. *)
Definition field_errors (config : json) (field : string) : list string :=
  if negb (has_member field config)
  then [("缺少配置字段: " ++ field)%string]
  else if negb (is_string_type (member config field))
  then [("配置字段 " ++ field ++ " 类型错误，应为字符串")%string]
  else [].

(** The warning about a group of fields of which some are filled in
    and some are not. *)
Definition group_warning (config : json) (fields : list string) (label : string)
  : list string :=
  let hasConfig := existsb (fun field => truthy (member config field)) fields in
  let missingFields :=
    List.filter (fun field => negb (truthy (member config field))) fields in
  match missingFields with
  | [] => []
  | _ :: _ =>
    if hasConfig
    then [(label ++ join_strings ", " missingFields)%string]
    else []
  end.

(** [v.length < 20] *)
Definition shorter_than (v : json) (n : Z) : bool :=
  num_lt (ToNumber (length_of v)) (Some n).

Section ConfigFile.

(** Whether [new Date(s).getTime()] is a number: the date parser of
    the platform, which accepts more than the ISO format and is not
    part of the sources. *)
Variable Date_valid : string -> bool.

Definition version_errors (data : json) : list string :=
  if negb (truthy (member data "version")) then ["缺少版本信息"%string]
  else if negb (is_string_type (member data "version")) then ["版本信息格式错误"%string]
  else [].

Definition timestamp_errors (data : json) : list string :=
  match member data "timestamp" with
  | Some (JStr s) =>
    if is_empty s then ["缺少时间戳"%string]
    else if Date_valid s then []
    else ["时间戳格式无效"%string]
  | other =>
    if negb (truthy other) then ["缺少时间戳"%string]
    else ["时间戳格式错误"%string]
  end.

Definition config_warnings (config : json) : list string :=
  group_warning config cloudflareFields "Cloudflare配置不完整，缺少: "
  ++ group_warning config cosFields "腾讯云COS配置不完整，缺少: "
  ++ (if truthy (member config "cosRegion")
         && negb (is_valid_region (member config "cosRegion"))
      then [("COS地域 '" ++ str (ToString_opt (member config "cosRegion"))
             ++ "' 可能不是有效的地域代码")%string]
      else [])
  ++ (match member config "cloudflareApiToken" with
      | Some token =>
        if truthy (Some token) && shorter_than token 20
        then ["Cloudflare API Token 长度可能不正确"%string]
        else []
      | None => []
      end)
  ++ (match member config "cloudflareAccountId" with
      | Some id =>
        if truthy (Some id)
           && negb (RegExp.test_literal account_id_pattern true (ToString id))
        then ["Cloudflare Account ID 格式可能不正确（应为32位十六进制字符串）"%string]
        else []
      | None => []
      end).

Definition validateConfigFileDetailed (data : json) : ValidationResult :=
  if negb (truthy (Some data)) || negb (is_object_type (Some data))
  then {| isValid := false;
          errors := ["配置文件格式无效：不是有效的JSON对象"%string];
          warnings := [] |}
  else
    let errors := version_errors data ++ timestamp_errors data in
    if negb (truthy (member data "config"))
    then {| isValid := false;
            errors := errors ++ ["缺少配置信息"%string];
            warnings := [] |}
    else if negb (is_object_type (member data "config"))
    then {| isValid := false;
            errors := errors ++ ["配置信息格式错误"%string];
            warnings := [] |}
    else
      match member data "config" with
      | None =>
        {| isValid := false;
           errors := errors ++ ["缺少配置信息"%string];
           warnings := [] |}
      | Some cfg =>
        let errors := errors ++ flat_map (field_errors cfg) requiredFields in
        {| isValid := match errors with [] => true | _ :: _ => false end;
           errors := errors;
           warnings := config_warnings cfg |}
      end.

Definition validateConfigFile (data : json) : bool :=
  isValid (validateConfigFileDetailed data).

(** What [exportConfigToFile] hands to the browser as a download. *)
Record Download : Type := {
  download : string;
  content : string
}.

(** [isoString.split('T')[0]] *)
Fixpoint before_T (s : list ascii) : list ascii :=
  match s with
  | [] => []
  | c :: r => if Ascii.eqb c "T" then [] else c :: before_T r
  end.

(** The [ConfigFile] object that the export builds; [now] is what
    [new Date().toISOString()] gives. *)
Definition config_file (config : Config) (now : string) (description : string) : json :=
  JObj [ ("version"%string, JStr "1.0.0");
         ("timestamp"%string, JStr now);
         ("config"%string, json_of_config config);
         ("metadata"%string,
          JObj [ ("exportedBy"%string, JStr "Version Manager");
                 ("description"%string, JStr description) ]) ].

(** [exportConfigToFile(config, filename)]: the file that the user
    gets.  [now] is the ISO text of the current time. *)
Definition exportConfigToFile (config : Config) (filename : option string) (now : string)
  : Download :=
  let configFile := config_file config now "API配置文件导出" in
  let jsonString := JSON.stringify configFile 2 in
  {| download :=
       match filename with
       | Some name =>
         if is_empty name
         then ("config-" ++ str (before_T (chars now)) ++ ".json")%string
         else name
       | None => ("config-" ++ str (before_T (chars now)) ++ ".json")%string
       end;
     content := jsonString |}.

(** [importConfigFromFile()]: the promise settles on what the load
    handler does with the text of the chosen file, resolved ([Return])
    or rejected ([Throw]); [None] is the dialog closed on no file.
    Reading the chosen file is taken to succeed. *)
Definition importConfigFromFile (file : option string) : completion (option json) :=
  match file with
  | None => Throw (Error "未选择文件")
  | Some content =>
    match JSON.parse content with
    | Throw e => Throw e
    | Return data =>
      if negb (validateConfigFile data)
      then Throw (Error "配置文件格式无效")
      else Return (member data "config")
    end
  end.

End ConfigFile.

(** *** Notions used to state and prove the properties *)

(** Text after which a number literal ends where it should: not a
    digit, nor the start of a fraction or an exponent. *)
Definition number_end (s : list ascii) : bool :=
  match s with
  | [] => true
  | c :: _ => negb (is_digit c) && negb (JSON.starts_fraction s)
  end.

(** Nested calls that the parser needs on the serialization of a value. *)
Fixpoint fuel_of (v : json) : nat :=
  match v with
  | JArr elems => S (sum_list (map (fun x => S (fuel_of x)) elems))
  | JObj members => S (sum_list (map (fun kv => S (fuel_of (snd kv))) members))
  | _ => 1%nat
  end.

Definition print_member (gap inner : nat) (kv : string * json) : list ascii :=
  JSON.QuoteJSONString (fst kv) ++ ":"%char ::
    JSON.colon_space gap ++ JSON.SerializeJSONProperty gap inner (snd kv).

(** The parser reads back the serialization of [v], whatever the
    layout, and stops right after it. *)
Definition roundtrips (v : json) : Prop :=
  json_wf v = true ->
  forall gap indent fuel rest,
    (fuel_of v <= fuel)%nat -> number_end rest = true ->
    JSON.parse_value fuel (JSON.SerializeJSONProperty gap indent v ++ rest)
    = Some (v, rest).

(** [hay.toLowerCase().includes(needle.toLowerCase())] for ASCII
    needles: the needle occurs in the text, up to the case of letters. *)
Fixpoint includes_ci (needle hay : list ascii) : bool :=
  match RegExp.match_literal true needle hay with
  | Some _ => true
  | None =>
    match hay with
    | [] => false
    | _ :: hay' => includes_ci needle hay'
    end
  end.

Definition found (o : option nat) : bool :=
  match o with Some _ => true | None => false end.

(** What [test] answers for one of the handler's patterns as declared. *)
Definition tested (name : pattern_name) (s : list ascii) : bool :=
  RegExp.test_literal (pattern_source name) true s.

(** A state of the page: the handler's pattern objects after any
    history of assignments to their [lastIndex], and any store. *)
Definition browser (lastIndexes : pattern_name -> nat) (store : gmap string string)
  : World :=
  {| patterns := patterns_at lastIndexes; localStorage := store |}.

(** The state of a page just loaded, with the given store. *)
Definition fresh_page (store : gmap string string) : World :=
  {| patterns := ERROR_PATTERNS; localStorage := store |}.

(** A probe result with the given outcome, and the run in which only
    the basic-connectivity probe fails. *)
Definition probe_result (ok : bool) : NetworkDiagnosticResult :=
  {| success := ok;
     result_message := "probe";
     result_details := None;
     timestamp := 0;
     duration := Some 0 |}.

Definition connectivity_down : Probes :=
  {| testBasicConnectivity := probe_result false;
     testDnsResolution := probe_result true;
     testCloudflareApi := fun _ => probe_result true;
     testCorsSupport := probe_result true |}.

(** A store with one corrupt cache entry, and one that also holds a
    sound entry written at time 500. *)
Definition corrupt_store : gmap string string :=
  {[ "cache-version-info"%string := "{oops"%string ]}.

Definition mixed_store : gmap string string :=
  <[ "cache-version-info"%string := "{oops"%string ]>
    (localStorage (cacheData "worker-code" (Some (JStr "code")) 500 (fresh_page ∅))).

(** A date parser for the examples: it accepts the texts shaped like
    the output of [toISOString], [d] standing for a digit, and no
    other. *)
Fixpoint has_shape (shape s : list ascii) : bool :=
  match shape, s with
  | [], [] => true
  | p :: shape', c :: s' =>
    (if Ascii.eqb p "d" then is_digit c else Ascii.eqb p c) && has_shape shape' s'
  | _, _ => false
  end.

Definition iso_date_valid (s : string) : bool :=
  has_shape (chars "dddd-dd-ddTdd:dd:dd.dddZ") (chars s).

Definition empty_config : Config :=
  {| cloudflareApiToken := EmptyString;
     cloudflareAccountId := EmptyString;
     cloudflareWorkerId := EmptyString;
     cosSecretId := EmptyString;
     cosSecretKey := EmptyString;
     cosBucket := EmptyString;
     cosRegion := EmptyString |}.

Definition odd_config : Config :=
  {| cloudflareApiToken := "short";
     cloudflareAccountId := "not-hex";
     cloudflareWorkerId := "updater";
     cosSecretId := EmptyString;
     cosSecretKey := EmptyString;
     cosBucket := EmptyString;
     cosRegion := "mars-1" |}.

(** What one key adds to the size that [getCacheStats] reports. *)
Definition entry_size (w : World) (key : string) : nat :=
  match getItem key w with
  | Some stored => if is_empty stored then 0%nat else utf16_length stored
  | None => 0%nat
  end.

(** [analyzeError] read as a function: the same chain of tests, each
    answered by the pattern as declared. *)
Definition classify (error : option json) (context : option string) : ErrorInfo :=
  let errorMessage := extractErrorMessage error in
  let errorString := errorString error context in
  if tested NETWORK_FAILED errorString then createNetworkFailedError errorMessage
  else if tested NETWORK_TIMEOUT errorString then createTimeoutError errorMessage
  else if tested NETWORK_OFFLINE errorString then createOfflineError errorMessage
  else if tested DNS_FAILED errorString then createDnsError errorMessage
  else if tested CORS_ERROR errorString then createCorsError errorMessage
  else if tested API_UNAUTHORIZED errorString then createAuthError errorMessage
  else if tested API_FORBIDDEN errorString then createForbiddenError errorMessage
  else if tested API_NOT_FOUND errorString then createNotFoundError errorMessage
  else if tested API_RATE_LIMIT errorString then createRateLimitError errorMessage
  else if tested API_SERVER_ERROR errorString then createServerError errorMessage
  else if tested CONFIG_MISSING errorString then createConfigMissingError errorMessage
  else if tested CONFIG_INVALID errorString then createConfigInvalidError errorMessage
  else createUnknownError errorMessage.

(** An [Error] object with the given message and no stack. *)
Definition error_with_message (text : string) : option json :=
  Some (JObj [("message"%string, JStr text)]).

(** *** The page: notifications, timers and the offline manager's state *)

(** The state of the page beyond the store: the [offlineConfig] object
    of the offline manager (its members, in insertion order; names that
    read as array indices are not moved to the front as JavaScript
    would), [navigator.onLine], the notifications shown so far (oldest
    first), the callbacks waiting on [setTimeout], and the clipboard,
    which takes every write.  What goes to the console is not kept. *)

Inductive ToastKind : Type :=
| toast_success | toast_error | toast_warning | toast_info.

(** One call of [toast.kind(text, { description, duration })]. *)
Record Toast : Type := {
  toast_kind : ToastKind;
  toast_text : string;
  toast_description : option json;
  toast_duration : option Z
}.

Inductive TimerTask : Type :=
| SuggestNetworkDiagnostics.

(** One call of [setTimeout(task, delay)]. *)
Record Timer : Type := {
  timer_delay : Z;
  timer_task : TimerTask
}.

Record Page : Type := {
  world : World;
  offlineConfig : list (string * json);
  onLine : bool;
  toasts : list Toast;
  timers : list Timer;
  clipboard : string
}.

Definition set_world (w : World) (p : Page) : Page :=
  {| world := w; offlineConfig := offlineConfig p; onLine := onLine p;
     toasts := toasts p; timers := timers p; clipboard := clipboard p |}.

Definition set_offlineConfig (c : list (string * json)) (p : Page) : Page :=
  {| world := world p; offlineConfig := c; onLine := onLine p;
     toasts := toasts p; timers := timers p; clipboard := clipboard p |}.

Definition set_onLine (b : bool) (p : Page) : Page :=
  {| world := world p; offlineConfig := offlineConfig p; onLine := b;
     toasts := toasts p; timers := timers p; clipboard := clipboard p |}.

Definition set_clipboard (text : string) (p : Page) : Page :=
  {| world := world p; offlineConfig := offlineConfig p; onLine := onLine p;
     toasts := toasts p; timers := timers p; clipboard := text |}.

(** [toast.kind(text, { description, duration })] *)
Definition toast (k : ToastKind) (text : string) (description : option json)
  (duration : option Z) (p : Page) : Page :=
  {| world := world p; offlineConfig := offlineConfig p; onLine := onLine p;
     toasts := toasts p ++ [ {| toast_kind := k; toast_text := text;
                                toast_description := description;
                                toast_duration := duration |} ];
     timers := timers p; clipboard := clipboard p |}.

(** [setTimeout(task, delay)] *)
Definition setTimeout (task : TimerTask) (delay : Z) (p : Page) : Page :=
  {| world := world p; offlineConfig := offlineConfig p; onLine := onLine p;
     toasts := toasts p;
     timers := timers p ++ [ {| timer_delay := delay; timer_task := task |} ];
     clipboard := clipboard p |}.

(** The UTF-16 code units of a text given by its UTF-8 bytes, each as
    the bytes that stand for it alone: a character of the basic plane
    is one unit, a four-byte sequence gives its two surrogates (in the
    three-byte form that [JSON.utf8_encode] gives a lone surrogate).  A
    byte that starts no well-formed sequence is a unit of its own. *)
Definition is_continuation (c : ascii) : bool :=
  ((128 <=? N_of_ascii c) && (N_of_ascii c <? 192))%N.

Definition surrogates (b0 b1 b2 b3 : ascii) : list (list ascii) :=
  let cp := ((N_of_ascii b0 - 240) * 262144 + (N_of_ascii b1 - 128) * 4096
             + (N_of_ascii b2 - 128) * 64 + (N_of_ascii b3 - 128))%N in
  [ JSON.utf8_encode (55296 + (cp - 65536) / 1024)%N;
    JSON.utf8_encode (56320 + (cp - 65536) mod 1024)%N ].

Fixpoint code_units (s : list ascii) : list (list ascii) :=
  match s with
  | [] => []
  | b0 :: r0 =>
    let n := N_of_ascii b0 in
    if (n <? 192)%N then [b0] :: code_units r0
    else
      match r0 with
      | b1 :: r1 =>
        if negb (is_continuation b1) then [b0] :: code_units r0
        else if (n <? 224)%N then [b0; b1] :: code_units r1
        else
          match r1 with
          | b2 :: r2 =>
            if negb (is_continuation b2) then [b0] :: code_units r0
            else if (n <? 240)%N then [b0; b1; b2] :: code_units r2
            else
              match r2 with
              | b3 :: r3 =>
                if negb (is_continuation b3) then [b0] :: code_units r0
                else surrogates b0 b1 b2 b3 ++ code_units r3
              | [] => [b0] :: code_units r0
              end
          | [] => [b0] :: code_units r0
          end
      | [] => [[b0]]
      end
  end.

(** The value of a unit that is a surrogate in its three-byte form. *)
Definition unit_value (u : list ascii) : option N :=
  match u with
  | [b0; b1; b2] =>
    if (N_of_ascii b0 =? 237)%N
    then Some (53248 + (N_of_ascii b1 - 128) * 64 + (N_of_ascii b2 - 128))%N
    else None
  | _ => None
  end.

(** The text of a sequence of code units: a high surrogate followed
    by a low one is the four-byte sequence of their character. *)
Fixpoint text_of_units (us : list (list ascii)) : list ascii :=
  match us with
  | [] => []
  | h :: tl =>
    match unit_value h, tl with
    | Some hi, l :: r =>
      match unit_value l with
      | Some lo =>
        if ((55296 <=? hi) && (hi <? 56320) && (56320 <=? lo) && (lo <? 57344))%N
        then JSON.utf8_encode (65536 + (hi - 55296) * 1024 + (lo - 56320))%N
             ++ text_of_units r
        else h ++ text_of_units tl
      | None => h ++ text_of_units tl
      end
    | _, _ => h ++ text_of_units tl
    end
  end.

(** The own enumerable members that an object spread copies: those of
    an object, the elements of an array and the code units of a string
    under their indices, nothing for the other values. *)
Definition index_name (i : nat) : string := str (NumberToString (Z.of_nat i)).

Definition own_entries (v : option json) : list (string * json) :=
  match v with
  | Some (JObj m) => m
  | Some (JArr elems) => imap (fun i x => (index_name i, x)) elems
  | Some (JStr s) =>
    imap (fun i u => (index_name i, JStr (str u))) (code_units (chars s))
  | _ => []
  end.

(** [{ ...target, ...source }] *)
Definition spread (target : list (string * json)) (source : option json)
  : list (string * json) :=
  fold_left (fun acc kv => JSON.obj_set acc (fst kv) (snd kv))
            (own_entries source) target.

(** *** The offline manager: mode and mock data (offlineManager.ts) *)

Definition STORAGE_KEY : string := "offline-manager-data".

(** [offlineConfig] as the class initializes it: [{ enabled: false }]. *)
Definition default_offlineConfig : list (string * json) :=
  [("enabled"%string, JBool false)].

(** [loadOfflineConfig()]: a missing, empty or unparsable text leaves
    the configuration as it is (the [catch] logs a warning). *)
Definition loadOfflineConfig (p : Page) : Page :=
  match getItem STORAGE_KEY (world p) with
  | None => p
  | Some stored =>
    if is_empty stored then p
    else
      match JSON.parse stored with
      | Throw _ => p
      | Return parsed => set_offlineConfig (spread (offlineConfig p) (Some parsed)) p
      end
  end.

(** [saveOfflineConfig()] *)
Definition saveOfflineConfig (p : Page) : Page :=
  set_world (setItem STORAGE_KEY (JSON.stringify (JObj (offlineConfig p)) 0) (world p)) p.

(** [setOfflineMode(enabled)] *)
Definition setOfflineMode (enabled : bool) (p : Page) : Page :=
  let p := set_offlineConfig
             (JSON.obj_set (offlineConfig p) "enabled" (JBool enabled)) p in
  let p := saveOfflineConfig p in
  if enabled
  then toast toast_info "📱 离线模式已启用，使用缓存数据" None None p
  else p.

(** [isOfflineMode()]: the value of
    [this.offlineConfig.enabled || !navigator.onLine]. *)
Definition isOfflineMode (p : Page) : json :=
  match lookup_member "enabled" (offlineConfig p) with
  | Some enabled =>
    if truthy (Some enabled) then enabled else JBool (negb (onLine p))
  | None => JBool (negb (onLine p))
  end.

(** [if (this.isOfflineMode())] *)
Definition offline (p : Page) : bool := truthy (Some (isOfflineMode p)).

(** The constructor of [OfflineManager], run when the module loads;
    its listeners are [online_listener] and [offline_listener]. *)
Definition new_OfflineManager (p : Page) : Page :=
  loadOfflineConfig (set_offlineConfig default_offlineConfig p).

(** The listener of the window's [online] event. *)
Definition online_listener (p : Page) : Page :=
  if truthy (lookup_member "enabled" (offlineConfig p))
  then setOfflineMode false
         (toast toast_success "🌐 网络连接已恢复，退出离线模式" None None p)
  else p.

(** The listener of the window's [offline] event. *)
Definition offline_listener (p : Page) : Page :=
  setOfflineMode true
    (toast toast_warning "🚫 网络连接断开，启用离线模式" None None p).

(** The browser regains or loses its connection: [navigator.onLine]
    changes and the event is dispatched. *)
Definition goes_online (p : Page) : Page := online_listener (set_onLine true p).
Definition goes_offline (p : Page) : Page := offline_listener (set_onLine false p).

(** The exported shorthands. *)
Definition enableOfflineMode : Page -> Page := setOfflineMode true.
Definition disableOfflineMode : Page -> Page := setOfflineMode false.
Definition isOffline : Page -> json := isOfflineMode.

(** The methods of the cache, on the store of the page. *)
Definition page_cacheData (key : string) (data : option json) (now : Z) (p : Page)
  : Page :=
  set_world (cacheData key data now (world p)) p.

Definition page_getCachedData (key : string) (now : Z) (p : Page)
  : option json * Page :=
  let (cached, w) := getCachedData key now (world p) in (cached, set_world w p).

(** The version information that [getMockVersionInfo] falls back on. *)
Definition default_version_info : json :=
  JObj [ ("version"%string, JStr "1.0.0");
         ("downloadUrl"%string, JStr "https://example.com/app-v1.0.0.zip");
         ("changelog"%string,
          JArr [ JStr "修复了一些已知问题"; JStr "优化了用户体验";
                 JStr "添加了新功能" ]);
         ("forceUpdate"%string, JBool false) ].

(** [getMockVersionInfo()] at time [now] *)
Definition getMockVersionInfo (now : Z) (p : Page) : json * Page :=
  let (cached, p) := page_getCachedData "version-info" now p in
  match cached with
  | Some value => if truthy cached then (value, p) else (default_version_info, p)
  | None => (default_version_info, p)
  end.

Definition quote : string := String "034" EmptyString.
Definition newline : string := String "010" EmptyString.

(** The lines of the worker script around the version information. *)
Definition worker_code_head : string :=
  "addEventListener('fetch', event => {
  event.respondWith(handleRequest(event.request))
})

async function handleRequest(request) {
  // 离线模式 - 模拟版本信息
  const versionInfo = {
    version: ".

Definition worker_code_tail : string :=
  ("
  };

  const headers = {
    " ++ quote ++ "Access-Control-Allow-Origin" ++ quote ++ ": "
      ++ quote ++ "*" ++ quote ++ ",
    " ++ quote ++ "Access-Control-Allow-Methods" ++ quote ++ ": "
      ++ quote ++ "GET, OPTIONS" ++ quote ++ ",
    " ++ quote ++ "Content-Type" ++ quote ++ ": "
      ++ quote ++ "application/json" ++ quote ++ "
  };

  if (request.method === " ++ quote ++ "OPTIONS" ++ quote ++ ") {
    return new Response(null, { headers });
  }

  return new Response(JSON.stringify(versionInfo), {
    status: 200,
    headers: headers
  });
}")%string.

(** One line of the change log: [`      "${item}"`]. *)
Definition changelog_line (item : json) : list ascii :=
  chars "      " ++ chars quote ++ ToString item ++ chars quote.

(** The template of [getMockWorkerCode] filled in from [info].
    [info.changelog.map] is a call: it throws a [TypeError] unless the
    change log is an array. *)
Definition worker_code_template (info : json) : completion string :=
  match member info "changelog" with
  | Some (JArr items) =>
    Return
      (worker_code_head
       ++ quote ++ str (ToString_opt (member info "version")) ++ quote ++ ",
    downloadUrl: "
       ++ quote ++ str (ToString_opt (member info "downloadUrl")) ++ quote ++ ",
    changelog: [
" ++ str (join_with (chars ("," ++ newline)) (map changelog_line items)) ++ "
    ],
    forceUpdate: " ++ str (ToString_opt (member info "forceUpdate"))
       ++ worker_code_tail)%string
  | _ => Throw TypeError
  end.

(** [getMockWorkerCode()] at time [now]: what it returns or throws,
    and the page it leaves (reading the cache can drop an expired
    entry). *)
Definition getMockWorkerCode (now : Z) (p : Page) : completion json * Page :=
  let (cached, p) := page_getCachedData "worker-code" now p in
  match cached with
  | Some value =>
    if truthy cached then (Return value, p)
    else
      let (mockVersionInfo, p) := getMockVersionInfo now p in
      (match worker_code_template mockVersionInfo with
       | Return code => Return (JStr code)
       | Throw e => Throw e
       end, p)
  | None =>
    let (mockVersionInfo, p) := getMockVersionInfo now p in
    (match worker_code_template mockVersionInfo with
     | Return code => Return (JStr code)
     | Throw e => Throw e
     end, p)
  end.

(** [getMockWorkerData()]: [{ code, status: 'running', lastUpdated }]. *)
Definition getMockWorkerData (now : Z) (p : Page) : completion json * Page :=
  let (code, p) := getMockWorkerCode now p in
  (match code with
   | Return c =>
     Return (JObj [ ("code"%string, c); ("status"%string, JStr "running");
                    ("lastUpdated"%string, JNum now) ])
   | Throw e => Throw e
   end, p).

(** The mock calls below first wait for a random delay; they are given
    as what they do when they resume, at time [now], on the page as it
    is then. *)

(** [mockNetworkCheck()]: [{ isConnected, error }]. *)
Definition mockNetworkCheck (p : Page) : bool * option string :=
  if offline p
  then (false, Some "🚫 当前处于离线模式，使用缓存数据"%string)
  else (true, None).

(** [mockFetchWorkerCode()] *)
Definition mockFetchWorkerCode (now : Z) (p : Page) : completion json * Page :=
  let p :=
    if offline p
    then toast toast_info "📱 离线模式：使用缓存的Worker代码" None None p
    else p in
  getMockWorkerCode now p.

(** [mockUpdateWorkerCode(code)] *)
Definition mockUpdateWorkerCode (code : string) (now : Z) (p : Page) : bool * Page :=
  if offline p
  then
    let p := page_cacheData "worker-code" (Some (JStr code)) now p in
    (false,
     toast toast_warning
           "📱 离线模式：代码已保存到本地缓存，联网后请重新部署" None None p)
  else (true, page_cacheData "worker-code" (Some (JStr code)) now p).

(** The callback of the hourly [setInterval]. *)
Definition hourly_sweep (now : Z) (p : Page) : Page :=
  set_world (fst (cleanExpiredCache now (world p))) p.

(** *** The error handler: notifications and suggestions (errorHandler.ts) *)

(** [getErrorIcon(severity)] *)
Definition getErrorIcon (s : Severity) : string :=
  match s with
  | critical => "🚨"
  | high => "❌"
  | medium => "⚠️"
  | low => "ℹ️"
  end.

(** [showErrorToast(errorInfo)] *)
Definition showErrorToast (errorInfo : ErrorInfo) (p : Page) : Page :=
  let icon := getErrorIcon (severity errorInfo) in
  let message := (icon ++ " " ++ message errorInfo)%string in
  match severity errorInfo with
  | critical => toast toast_error message (Some (details errorInfo)) (Some 8000) p
  | high => toast toast_error message (Some (details errorInfo)) (Some 8000) p
  | medium => toast toast_warning message (Some (details errorInfo)) (Some 6000) p
  | low => toast toast_info message (Some (details errorInfo)) (Some 4000) p
  end.

(** [suggestNetworkDiagnostics()] *)
Definition suggestNetworkDiagnostics (p : Page) : Page :=
  toast toast_info "🔍 建议运行网络诊断"
        (Some (JStr ("点击Worker管理页面的" ++ quote ++ "网络诊断" ++ quote
                     ++ "按钮获取详细信息")))
        (Some 10000) p.

(** A timer fires: its callback runs. *)
Definition run_task (t : TimerTask) (p : Page) : Page :=
  match t with
  | SuggestNetworkDiagnostics => suggestNetworkDiagnostics p
  end.

(** The defaults of the options of [handleError]. *)
Definition default_options : list (string * json) :=
  [ ("showToast"%string, JBool true);
    ("enableAutoOffline"%string, JBool true);
    ("runDiagnostics"%string, JBool false) ].

Definition is_network (t : ErrorType) : bool :=
  match t with network => true | _ => false end.

Definition flag_set (flag : option bool) : bool :=
  match flag with Some b => b | None => false end.

(** [handleError(error, context, options)]: the diagnosis that the
    promise resolves to and the page after the call. *)
Definition handleError (error : option json) (context : option string)
  (options : option json) (p : Page) : ErrorInfo * Page :=
  let (errorInfo, w) := analyzeError error context (world p) in
  let p := set_world w p in
  let opts := spread default_options options in
  let p :=
    if truthy (lookup_member "showToast" opts) then showErrorToast errorInfo p
    else p in
  let p :=
    if truthy (lookup_member "enableAutoOffline" opts)
       && flag_set (shouldEnableOfflineMode errorInfo)
    then setOfflineMode true p
    else p in
  let p :=
    if truthy (lookup_member "runDiagnostics" opts) && is_network (type errorInfo)
    then setTimeout SuggestNetworkDiagnostics 2000 p
    else p in
  (errorInfo, p).

Inductive Priority : Type :=
| priority_high | priority_medium | priority_low.

(** What the [action] of a suggestion does when it is called. *)
Inductive SuggestedAction : Type :=
| RunDiagnosticReport
| EnableOfflineMode.

Record DiagnosticSuggestion : Type := {
  title : string;
  description : string;
  action : option SuggestedAction;
  priority : Priority
}.

(** [generateDiagnosticSuggestions(errorInfo)] *)
Definition generateDiagnosticSuggestions (errorInfo : ErrorInfo)
  : list DiagnosticSuggestion :=
  let suggestions :=
    match type errorInfo with
    | network =>
      [ {| title := "运行网络诊断";
           description := "检查网络连接、DNS解析和API可达性";
           action := Some RunDiagnosticReport;
           priority := priority_high |} ]
    | auth =>
      [ {| title := "检查API配置";
           description := "验证API Token和权限设置";
           action := None;
           priority := priority_high |} ]
    | config =>
      [ {| title := "更新配置";
           description := "前往配置页面检查和更新设置";
           action := None;
           priority := priority_high |} ]
    | _ => []
    end in
  if flag_set (shouldEnableOfflineMode errorInfo)
  then suggestions ++
       [ {| title := "启用离线模式";
            description := "在网络问题解决前使用本地功能";
            action := Some EnableOfflineMode;
            priority := priority_medium |} ]
  else suggestions.

(** *** Configuration utilities: local storage, clipboard, batch, preview *)

(** The [ConfigFile] object of [saveConfigToLocal]: its metadata has a
    description only. *)
Definition local_config_file (config : Config) (now : string) : json :=
  JObj [ ("version"%string, JStr "1.0.0");
         ("timestamp"%string, JStr now);
         ("config"%string, json_of_config config);
         ("metadata"%string,
          JObj [ ("description"%string, JStr "本地保存的配置") ]) ].

Definition key_or_default (key : option string) : string :=
  match key with
  | Some k => k
  | None => "saved-config"%string
  end.

(** [saveConfigToLocal(config, key = 'saved-config')]; [now] is the
    ISO text of the current time. *)
Definition saveConfigToLocal (config : Config) (key : option string) (now : string)
  (p : Page) : Page :=
  let configFile := local_config_file config now in
  let p := set_world (setItem (key_or_default key) (JSON.stringify configFile 0)
                              (world p)) p in
  toast toast_success "配置已保存到本地" None None p.

(** [deleteSavedConfig(key)] *)
Definition deleteSavedConfig (key : string) (p : Page) : Page :=
  toast toast_success "配置已删除" None None
        (set_world (removeItem key (world p)) p).

(** [getSavedConfigKeys()]: the keys of the store that start with
    [saved-config], in the order of the store. *)
Definition getSavedConfigKeys (p : Page) : list string :=
  filter (fun key => negb (is_empty key)
                     && startsWith (chars key) (chars "saved-config") = true)
         (map fst (map_to_list (localStorage (world p)))).

(** [exportConfigToClipboard(config)] *)
Definition exportConfigToClipboard (config : Config) (now : string) (p : Page) : Page :=
  let configFile := config_file config now "API配置文件（剪贴板导出）" in
  let jsonString := JSON.stringify configFile 2 in
  toast toast_success "配置已复制到剪贴板" None None (set_clipboard jsonString p).

(** One entry of the batch export: [{ name, config, timestamp }]. *)
Definition batch_entry (now : string) (item : string * Config) : json :=
  JObj [ ("name"%string, JStr (fst item));
         ("config"%string, json_of_config (snd item));
         ("timestamp"%string, JStr now) ].

(** The object that [exportMultipleConfigs] serializes; [now] is the ISO
    text of the current time, the same at each reading during the call. *)
Definition batch_file (configs : list (string * Config)) (now : string) : json :=
  JObj [ ("version"%string, JStr "1.0.0");
         ("timestamp"%string, JStr now);
         ("type"%string, JStr "multiple-configs");
         ("configs"%string, JArr (map (batch_entry now) configs));
         ("metadata"%string,
          JObj [ ("exportedBy"%string, JStr "Version Manager");
                 ("description"%string, JStr "批量配置文件导出");
                 ("count"%string, JNum (Z.of_nat (List.length configs))) ]) ].

(** [exportMultipleConfigs(configs)]: the download and the page. *)
Definition exportMultipleConfigs (configs : list (string * Config)) (now : string)
  (p : Page) : Download * Page :=
  let exportData := batch_file configs now in
  let jsonString := JSON.stringify exportData 2 in
  ({| download := ("configs-batch-" ++ str (before_T (chars now)) ++ ".json")%string;
      content := jsonString |},
   toast toast_success
         ("已导出 " ++ str (NumberToString (Z.of_nat (List.length configs)))
          ++ " 个配置文件")%string None None p).

(** [getConfigInfo(config)] *)
Record ConfigInfo : Type := {
  hasCloudflareToken : bool;
  hasCloudflareAccountId : bool;
  hasCloudflareWorkerId : bool;
  hasCosSecretId : bool;
  hasCosSecretKey : bool;
  info_cosBucket : string;
  info_cosRegion : string;
  completeness_cloudflare : bool;
  completeness_cos : bool
}.

Definition filled (s : string) : bool := negb (is_empty s).

Definition getConfigInfo (c : Config) : ConfigInfo :=
  {| hasCloudflareToken := filled (cloudflareApiToken c);
     hasCloudflareAccountId := filled (cloudflareAccountId c);
     hasCloudflareWorkerId := filled (cloudflareWorkerId c);
     hasCosSecretId := filled (cosSecretId c);
     hasCosSecretKey := filled (cosSecretKey c);
     info_cosBucket := cosBucket c;
     info_cosRegion := cosRegion c;
     completeness_cloudflare :=
       filled (cloudflareApiToken c) && filled (cloudflareAccountId c)
       && filled (cloudflareWorkerId c);
     completeness_cos :=
       filled (cosSecretId c) && filled (cosSecretKey c)
       && filled (cosBucket c) && filled (cosRegion c) |}.

(** [maskString(str, visibleChars = 4)], on the code units of the text:
    [substring], [length] and [repeat] count UTF-16 code units. *)
Definition maskString (s : string) (visibleChars : option nat) : string :=
  let visibleChars := match visibleChars with Some n => n | None => 4%nat end in
  let units := code_units (chars s) in
  if is_empty s then EmptyString
  else if (List.length units <=? visibleChars)%nat
  then str (repeat "*"%char (List.length units))
  else str (text_of_units (take visibleChars units)
            ++ repeat "*"%char (List.length units - visibleChars))%list.

(** [previewConfig(config)] *)
Definition previewConfig (c : Config) : Config :=
  {| cloudflareApiToken := maskString (cloudflareApiToken c) None;
     cloudflareAccountId := maskString (cloudflareAccountId c) None;
     cloudflareWorkerId := cloudflareWorkerId c;
     cosSecretId := maskString (cosSecretId c) None;
     cosSecretKey := maskString (cosSecretKey c) None;
     cosBucket := cosBucket c;
     cosRegion := cosRegion c |}.

Section ConfigFile_more.

Variable Date_valid : string -> bool.

(** The message of the [SyntaxError] that the platform's [JSON.parse]
    throws on a text. *)
Variable SyntaxError_message : string -> string.

(** [loadConfigFromLocal(key = 'saved-config')]: the configuration or
    [null], and the page; every failure ends in the [catch], which
    shows an error and returns [null]. *)
Definition loadConfigFromLocal (key : option string) (p : Page) : option json * Page :=
  match getItem (key_or_default key) (world p) with
  | None => (null, p)
  | Some stored =>
    if is_empty stored then (null, p)
    else
      match JSON.parse stored with
      | Throw _ => (null, toast toast_error "加载本地配置失败" None None p)
      | Return data =>
        if negb (validateConfigFile Date_valid data)
        then (null, toast toast_error "加载本地配置失败" None None p)
        else (member data "config", p)
      end
  end.

(** [importConfigFromClipboard()]: resolved or rejected, and the page.
    Reading the clipboard is taken to succeed. *)
Definition importConfigFromClipboard (p : Page) : completion (option json) * Page :=
  match JSON.parse (clipboard p) with
  | Throw e => (Throw e, toast toast_error "剪贴板内容格式错误或为空" None None p)
  | Return data =>
    if negb (validateConfigFile Date_valid data)
    then (Throw (Error "剪贴板中的配置文件格式无效"),
          toast toast_error "剪贴板内容格式错误或为空" None None p)
    else (Return (member data "config"),
          toast toast_success "配置已从剪贴板导入" None None p)
  end.



End ConfigFile_more.

(** *** The probes of the network diagnostics (errorHandler.ts) *)

Module NetworkDiagnostics.

(** What a rejected promise carries: an error with its [name] and
    [message]. *)
Record Thrown : Type := {
  error_name : string;
  error_message : string
}.

(** [Error.prototype.toString] *)
Definition error_toString (e : Thrown) : string :=
  if is_empty (error_name e) then error_message e
  else if is_empty (error_message e) then error_name e
  else (error_name e ++ ": " ++ error_message e)%string.

Inductive Settled (A : Type) : Type :=
| fulfilled (value : A)
| rejected (reason : Thrown).
Arguments fulfilled {A} value.
Arguments rejected {A} reason.

(** What the probes read of a [Response]: its status, status text and
    type, its headers, and what [json()] settles to. *)
Record Response : Type := {
  response_status : Z;
  statusText : string;
  response_type : string;
  header : string -> option string;
  json_body : Settled json
}.

(** [response.ok]: the status is in the range 200-299. *)
Definition response_ok (r : Response) : bool :=
  (200 <=? response_status r) && (response_status r <=? 299).

Inductive Method : Type :=
| GET | HEAD | OPTIONS.

Inductive Mode : Type :=
| mode_cors | mode_no_cors.

(** The arguments of [fetch]; [omit_credentials] stands for
    [credentials: 'omit']. *)
Record Request : Type := {
  url : string;
  method : Method;
  mode : Mode;
  omit_credentials : bool;
  request_headers : list (string * string)
}.

(** What each request of one run settles to.  It tells when a request
    is aborted by the timer of its [AbortController] (a rejection
    named [AbortError]), so the timers are not modelled apart. *)
Definition Network : Type := Request -> Settled Response.

Definition trace : string := "https://www.cloudflare.com/cdn-cgi/trace".
Definition api_endpoint : string := "https://api.cloudflare.com/client/v4".
Definition tokenVerify : string :=
  "https://api.cloudflare.com/client/v4/user/tokens/verify".

(** The result that a [catch] of the probes builds from the error. *)
Definition caught (label : string) (error : Thrown) (startTime now : Z)
  : NetworkDiagnosticResult :=
  {| success := false;
     result_message := (label ++ error_message error)%string;
     result_details := Some (JObj [("error"%string, JStr (error_toString error))]);
     timestamp := now;
     duration := Some (now - startTime) |}.

(** A [Response] and an error inside the [details] of a result, by the
    members that the probes read. *)
Definition response_json (r : Response) : json :=
  JObj [ ("ok"%string, JBool (response_ok r));
         ("status"%string, JNum (response_status r));
         ("statusText"%string, JStr (statusText r));
         ("type"%string, JStr (response_type r)) ].

Definition thrown_json (e : Thrown) : json :=
  JObj [ ("name"%string, JStr (error_name e));
         ("message"%string, JStr (error_message e)) ].

(** An element of the array of [Promise.allSettled]. *)
Definition settled_json (r : Settled Response) : json :=
  match r with
  | fulfilled value =>
    JObj [("status"%string, JStr "fulfilled"); ("value"%string, response_json value)]
  | rejected reason =>
    JObj [("status"%string, JStr "rejected"); ("reason"%string, thrown_json reason)]
  end.

(** [r.status === 'fulfilled' && r.value.ok] *)
Definition settled_ok (r : Settled Response) : bool :=
  match r with
  | fulfilled value => response_ok value
  | rejected _ => false
  end.

Definition get_request (address : string) : Request :=
  {| url := address; method := GET; mode := mode_cors;
     omit_credentials := true; request_headers := [] |}.

Definition testEndpoints : list string :=
  [ trace; "https://httpbin.org/get"; "https://api.github.com" ]%string.

Definition number_text (n : Z) : string := str (NumberToString n).

(** [testBasicConnectivity()], started at [startTime] and resumed at
    [now] once the three requests are settled ([Date.now()] gives
    [now] at each of its calls from there on).  Nothing throws inside
    its [try]: [Promise.allSettled] does not reject. *)
Definition testBasicConnectivity (fetch : Network) (startTime now : Z)
  : NetworkDiagnosticResult :=
  let results := map (fun address => fetch (get_request address)) testEndpoints in
  let successCount := Z.of_nat (List.length (List.filter settled_ok results)) in
  let totalTests := Z.of_nat (List.length testEndpoints) in
  let duration := now - startTime in
  let details :=
    Some (JObj [ ("successCount"%string, JNum successCount);
                 ("totalTests"%string, JNum totalTests);
                 ("results"%string, JArr (map settled_json results)) ]) in
  if successCount =? 0 then
    {| success := false;
       result_message := "🚫 无法连接到任何测试端点，请检查网络连接";
       result_details := details;
       timestamp := now;
       duration := Some duration |}
  else if successCount <? totalTests then
    {| success := true;
       result_message :=
         ("⚠️ 部分网络连接异常 (" ++ number_text successCount ++ "/"
          ++ number_text totalTests ++ " 成功)")%string;
       result_details := details;
       timestamp := now;
       duration := Some duration |}
  else
    {| success := true;
       result_message := ("✅ 网络连接正常 (" ++ number_text duration ++ "ms)")%string;
       result_details := details;
       timestamp := now;
       duration := Some duration |}.

Definition testDomains : list string :=
  [ "api.cloudflare.com"; "www.cloudflare.com"; "httpbin.org" ]%string.

Definition head_request (domain : string) : Request :=
  {| url := ("https://" ++ domain)%string; method := HEAD; mode := mode_no_cors;
     omit_credentials := false; request_headers := [] |}.

(** One round of the loop of [testDnsResolution]: the entry pushed for
    the domain. *)
Definition dns_entry (fetch : Network) (domain : string) : json :=
  match fetch (head_request domain) with
  | fulfilled response =>
    JObj [ ("domain"%string, JStr domain); ("success"%string, JBool true);
           ("type"%string, JStr (response_type response)) ]
  | rejected error =>
    if String.eqb (error_name error) "AbortError"
    then JObj [ ("domain"%string, JStr domain); ("success"%string, JBool false);
                ("error"%string, JStr "DNS解析超时") ]
    else JObj [ ("domain"%string, JStr domain); ("success"%string, JBool true);
                ("error"%string, JStr "DNS解析成功但连接失败") ]
  end.

(** [testDnsResolution()]; every rejection is caught inside the loop,
    so the outer [catch] does not run. *)
Definition testDnsResolution (fetch : Network) (startTime now : Z)
  : NetworkDiagnosticResult :=
  let results := map (dns_entry fetch) testDomains in
  let successCount :=
    Z.of_nat (List.length
                (List.filter (fun r => truthy (member r "success")) results)) in
  let totalTests := Z.of_nat (List.length testDomains) in
  let duration := now - startTime in
  let details := Some (JObj [("results"%string, JArr results)]) in
  if successCount =? 0 then
    {| success := false;
       result_message := "🚫 DNS解析完全失败，请检查DNS设置";
       result_details := details;
       timestamp := now;
       duration := Some duration |}
  else if successCount <? totalTests then
    {| success := true;
       result_message :=
         ("⚠️ 部分DNS解析异常 (" ++ number_text successCount ++ "/"
          ++ number_text totalTests ++ " 成功)")%string;
       result_details := details;
       timestamp := now;
       duration := Some duration |}
  else
    {| success := true;
       result_message := ("✅ DNS解析正常 (" ++ number_text duration ++ "ms)")%string;
       result_details := details;
       timestamp := now;
       duration := Some duration |}.

Definition token_request (apiToken : string) : Request :=
  {| url := tokenVerify; method := GET; mode := mode_cors;
     omit_credentials := true;
     request_headers :=
       [ ("Authorization", "Bearer " ++ apiToken);
         ("Content-Type", "application/json") ]%string |}.

(** A member whose value is [undefined] is left out of the object:
    reading it gives [undefined] in both cases. *)
Definition with_member (name : string) (v : option json) : list (string * json) :=
  match v with
  | Some j => [(name, j)]
  | None => []
  end.

Definition options_request : Request :=
  {| url := api_endpoint; method := OPTIONS; mode := mode_cors;
     omit_credentials := true;
     request_headers :=
       [ ("Access-Control-Request-Method", "GET");
         ("Access-Control-Request-Headers", "Authorization, Content-Type") ]%string |}.

(** [response.headers.get(name)]: the text or [null]. *)
Definition header_json (r : Response) (name : string) : json :=
  match header r name with
  | Some text => JStr text
  | None => JNull
  end.

Section Probes.

(** The message of the [TypeError] that the platform throws when
    a member of [null] is read. *)
Variable null_member_message : string.

(** [testCloudflareApi(apiToken)], started at [startTime]; [answered]
    is the time at which the token request is answered (the duration is
    taken there, before the body is read) and [now] the time at which
    the result is built. *)
Definition testCloudflareApi (fetch : Network) (apiToken : option string)
  (startTime answered now : Z) : NetworkDiagnosticResult :=
  let failed_with := fun error =>
    caught "❌ Cloudflare API连接失败: " error startTime now in
  match fetch (get_request api_endpoint) with
  | rejected error => failed_with error
  | fulfilled apiResponse =>
    if negb (response_ok apiResponse) then
      {| success := false;
         result_message :=
           ("🚫 Cloudflare API端点不可达 (状态码: "
            ++ number_text (response_status apiResponse) ++ ")")%string;
         result_details :=
           Some (JObj [ ("status"%string, JNum (response_status apiResponse));
                        ("statusText"%string, JStr (statusText apiResponse)) ]);
         timestamp := now;
         duration := Some (now - startTime) |}
    else
      match apiToken with
      | Some token =>
        if is_empty token then
          {| success := true;
             result_message :=
               ("✅ Cloudflare API端点可达 (" ++ number_text (now - startTime)
                ++ "ms)")%string;
             result_details :=
               Some (JObj [ ("apiReachable"%string, JBool true);
                            ("tokenProvided"%string, JBool false) ]);
             timestamp := now;
             duration := Some (now - startTime) |}
        else
          match fetch (token_request token) with
          | rejected error => failed_with error
          | fulfilled tokenResponse =>
            let duration := answered - startTime in
            if response_ok tokenResponse then
              match json_body tokenResponse with
              | rejected error => failed_with error
              | fulfilled data =>
                match get_member (Some data) "success" with
                | Throw _ =>
                  failed_with {| error_name := "TypeError";
                                 error_message := null_member_message |}
                | Return verified =>
                  if truthy verified then
                    {| success := true;
                       result_message :=
                         ("✅ Cloudflare API连接正常，Token有效 ("
                          ++ number_text duration ++ "ms)")%string;
                       result_details :=
                         Some (JObj ([ ("tokenValid"%string, JBool true);
                                       ("apiReachable"%string, JBool true) ]
                                     ++ with_member "tokenData" (member data "result")));
                       timestamp := now;
                       duration := Some duration |}
                  else
                    {| success := false;
                       result_message := "🔑 API Token验证失败";
                       result_details :=
                         Some (JObj ([ ("tokenValid"%string, JBool false);
                                       ("apiReachable"%string, JBool true) ]
                                     ++ with_member "errors" (member data "errors")));
                       timestamp := now;
                       duration := Some duration |}
                end
              end
            else
              {| success := false;
                 result_message :=
                   ("🔑 API Token验证失败 (状态码: "
                    ++ number_text (response_status tokenResponse) ++ ")")%string;
                 result_details :=
                   Some (JObj [ ("tokenValid"%string, JBool false);
                                ("apiReachable"%string, JBool true);
                                ("status"%string, JNum (response_status tokenResponse));
                                ("statusText"%string, JStr (statusText tokenResponse)) ]);
                 timestamp := now;
                 duration := Some duration |}
          end
      | None =>
        {| success := true;
           result_message :=
             ("✅ Cloudflare API端点可达 (" ++ number_text (now - startTime)
              ++ "ms)")%string;
           result_details :=
             Some (JObj [ ("apiReachable"%string, JBool true);
                          ("tokenProvided"%string, JBool false) ]);
           timestamp := now;
           duration := Some (now - startTime) |}
      end
  end.

(** [testCorsSupport()] *)
Definition testCorsSupport (fetch : Network) (startTime now : Z)
  : NetworkDiagnosticResult :=
  match fetch options_request with
  | rejected error => caught "❌ CORS测试失败: " error startTime now
  | fulfilled response =>
    let duration := now - startTime in
    let corsHeaders :=
      JObj [ ("allowOrigin"%string, header_json response "Access-Control-Allow-Origin");
             ("allowMethods"%string, header_json response "Access-Control-Allow-Methods");
             ("allowHeaders"%string, header_json response "Access-Control-Allow-Headers") ] in
    if response_ok response || (response_status response =? 204) then
      {| success := true;
         result_message := ("✅ CORS支持正常 (" ++ number_text duration ++ "ms)")%string;
         result_details :=
           Some (JObj [ ("corsHeaders"%string, corsHeaders);
                        ("status"%string, JNum (response_status response)) ]);
         timestamp := now;
         duration := Some duration |}
    else
      {| success := false;
         result_message :=
           ("⚠️ CORS预检请求异常 (状态码: "
            ++ number_text (response_status response) ++ ")")%string;
         result_details :=
           Some (JObj [ ("corsHeaders"%string, corsHeaders);
                        ("status"%string, JNum (response_status response));
                        ("statusText"%string, JStr (statusText response)) ]);
         timestamp := now;
         duration := Some duration |}
  end.

(** The times of one run of the report: the four probes start
    together and each resumes at its own time. *)
Record Clock : Type := {
  started : Z;
  basic_done : Z;
  dns_done : Z;
  token_answered : Z;
  api_done : Z;
  cors_done : Z
}.

(** The four probes of one run, over what the network answers. *)
Definition probes (fetch : Network) (clock : Clock) : Probes :=
  Build_Probes
    (testBasicConnectivity fetch (started clock) (basic_done clock))
    (testDnsResolution fetch (started clock) (dns_done clock))
    (fun apiToken =>
       testCloudflareApi fetch apiToken (started clock) (token_answered clock)
                         (api_done clock))
    (testCorsSupport fetch (started clock) (cors_done clock)).

(** [runQuickDiagnostic(apiToken)] *)
Definition runQuickDiagnostic (fetch : Network) (clock : Clock)
  (apiToken : option string) : DiagnosticReport :=
  generateDiagnosticReport (probes fetch clock) apiToken.

(** [testApiConnection(apiToken)] and [testBasicNetwork()] *)
Definition testApiConnection (fetch : Network) (apiToken : string)
  (startTime answered now : Z) : NetworkDiagnosticResult :=
  testCloudflareApi fetch (Some apiToken) startTime answered now.

Definition testBasicNetwork := testBasicConnectivity.

End Probes.

End NetworkDiagnostics.

(** *** Notions used to state the further properties *)

(** The number of probes of a report that failed, and the issues that
    a report can list, in the order in which the probes are looked at. *)
Definition failed_probes (r : DiagnosticReport) : nat :=
  List.length
    (List.filter negb
       [ success (basicConnectivity r); success (dnsResolution r);
         success (cloudflareApi r); success (corsSupport r) ]).

Definition all_issues : list string :=
  [ "基础网络连接失败"; "DNS解析失败"; "Cloudflare API连接失败"; "CORS支持异常" ]%string.

(** The pattern objects of the handler are those that the class
    declares, whatever was assigned to their [lastIndex]. *)
Definition declared (w : World) : Prop :=
  exists lastIndexes, patterns w = patterns_at lastIndexes.

(** An entry of the cache that a sweep at time [now] removes: its text
    does not parse, is the text of [null], or carries a timestamp older
    than the cache duration. *)
Definition stale (now : Z) (stored : string) : bool :=
  if is_empty stored then false
  else
    match JSON.parse stored with
    | Throw _ => true
    | Return cacheData =>
      match get_member (Some cacheData) "timestamp" with
      | Throw _ => true
      | Return timestamp => isExpired now timestamp
      end
    end.

Definition is_cache_key (key : string) : bool :=
  startsWith (chars key) (chars "cache-").

(** The store without the stale entries of the cache. *)
Definition swept (now : Z) (store : gmap string string) : gmap string string :=
  filter (fun kv => ~ (is_cache_key kv.1 = true /\ stale now kv.2 = true)) store.

(** A page just loaded, with the given store and connection state. *)
Definition loaded_page (store : gmap string string) (connected : bool) : Page :=
  {| world := fresh_page store;
     offlineConfig := default_offlineConfig;
     onLine := connected;
     toasts := [];
     timers := [];
     clipboard := EmptyString |}.

(** A suggestion whose action switches the offline mode on. *)
Definition offers_offline (s : DiagnosticSuggestion) : bool :=
  match action s with
  | Some EnableOfflineMode => true
  | _ => false
  end.

(** The notification that [setOfflineMode(true)] shows. *)
Definition offline_notice : Toast :=
  {| toast_kind := toast_info;
     toast_text := "📱 离线模式已启用，使用缓存数据";
     toast_description := None;
     toast_duration := None |}.

(** Options that switch the notification and the automatic offline
    mode off. *)
Definition quiet_options : list (string * json) :=
  [ ("showToast"%string, JBool false); ("enableAutoOffline"%string, JBool false) ].

(** The request to a domain of the DNS probe was aborted by its timer. *)
Definition timed_out (fetch : NetworkDiagnostics.Network) (domain : string) : bool :=
  match fetch (NetworkDiagnostics.head_request domain) with
  | NetworkDiagnostics.rejected e =>
    String.eqb (NetworkDiagnostics.error_name e) "AbortError"
  | NetworkDiagnostics.fulfilled _ => false
  end.

(** The token, when one is given, is verified: the verification
    request is answered with a success status and a body that parses
    to a value with a truthy [success]. *)
Definition token_verified (fetch : NetworkDiagnostics.Network) (apiToken : option string)
  : bool :=
  match apiToken with
  | Some token =>
    if is_empty token then true
    else
      match fetch (NetworkDiagnostics.token_request token) with
      | NetworkDiagnostics.fulfilled response =>
        NetworkDiagnostics.response_ok response
        && match NetworkDiagnostics.json_body response with
           | NetworkDiagnostics.fulfilled data => truthy (member data "success")
           | NetworkDiagnostics.rejected _ => false
           end
      | NetworkDiagnostics.rejected _ => false
      end
  | None => true
  end.

(** A network on which every request fails with the given error, and a
    clock for the examples. *)
Definition unreachable (e : NetworkDiagnostics.Thrown) : NetworkDiagnostics.Network :=
  fun _ => NetworkDiagnostics.rejected e.

Definition fetch_failure : NetworkDiagnostics.Thrown :=
  {| NetworkDiagnostics.error_name := "TypeError";
     NetworkDiagnostics.error_message := "Failed to fetch" |}.

Definition example_clock : NetworkDiagnostics.Clock :=
  {| NetworkDiagnostics.started := 1000;
     NetworkDiagnostics.basic_done := 1040;
     NetworkDiagnostics.dns_done := 1090;
     NetworkDiagnostics.token_answered := 1050;
     NetworkDiagnostics.api_done := 1060;
     NetworkDiagnostics.cors_done := 1030 |}.

(** The cache entries that parse carry a number as their timestamp,
    as [cacheData] writes it, or no timestamp at all. *)
Definition numeric_timestamps (w : World) : Prop :=
  forall key stored parsed timestamp,
    is_cache_key key = true ->
    getItem key w = Some stored ->
    JSON.parse stored = Return parsed ->
    member parsed "timestamp" = Some timestamp ->
    exists t, timestamp = JNum t.

(** The timestamp [t] is that of an entry of the cache. *)
Definition timestamp_of_entry (w : World) (t : Z) : Prop :=
  exists key stored parsed,
    is_cache_key key = true
    /\ getItem key w = Some stored
    /\ JSON.parse stored = Return parsed
    /\ member parsed "timestamp" = Some (JNum t).


(* ================================================================= *)
(** ** Part II: properties *)
(* ================================================================= *)

(** *** [JSON.parse] reads back what [JSON.stringify] writes *)

Section JSON_facts.
Import JSON.

Lemma skip_ws_app ws s : forallb is_ws ws = true -> skip_ws (ws ++ s) = skip_ws s.
Proof.
  induction ws as [|c ws IH]; simpl; [reflexivity|].
  intros H. apply andb_true_iff in H as [Hc Hws]. rewrite Hc. auto.
Qed.

Lemma skip_ws_head c s : is_ws c = false -> skip_ws (c :: s) = c :: s.
Proof. intros H. simpl. rewrite H. reflexivity. Qed.

Lemma skip_ws_closing ws c rest :
  forallb is_ws ws = true -> is_ws c = false -> skip_ws (ws ++ c :: rest) = c :: rest.
Proof. intros. rewrite skip_ws_app by assumption. now apply skip_ws_head. Qed.

Lemma drop_literal_app p s : drop_literal p (p ++ s) = Some s.
Proof.
  induction p as [|a p IH]; simpl; [reflexivity|].
  rewrite Ascii.eqb_refl. exact IH.
Qed.

(** One escaped character reads back as itself: by cases on the byte. *)
Lemma parse_string_escape_char c r :
  parse_string (escape_char c ++ r) = prepend [c] (parse_string r).
Proof.
  destruct c as [[] [] [] [] [] [] [] []]; reflexivity.
Qed.

Lemma parse_string_quote l rest :
  parse_string (flat_map escape_char l ++ "034"%char :: rest) = Some (l, rest).
Proof.
  induction l as [|c l IH]; [reflexivity|].
  cbn [flat_map]. rewrite <- app_assoc, parse_string_escape_char, IH.
  reflexivity.
Qed.

Lemma uint_of_digits_of_uint u : uint_of_digits (digits_of_uint u) = u.
Proof.
  unfold uint_of_digits.
  induction u as [|u IH|u IH|u IH|u IH|u IH|u IH|u IH|u IH|u IH|u IH];
    cbn [digits_of_uint fold_right]; rewrite ?IH; reflexivity.
Qed.

Lemma digits_are_digits u : forallb is_digit (digits_of_uint u) = true.
Proof. induction u; simpl; auto. Qed.

Lemma span_digits_app ds rest :
  forallb is_digit ds = true ->
  match rest with [] => True | c :: _ => is_digit c = false end ->
  span_digits (ds ++ rest) = (ds, rest).
Proof.
  intros Hds Hrest. induction ds as [|d ds IH].
  - destruct rest as [|c rest]; [reflexivity|]. simpl. rewrite Hrest. reflexivity.
  - simpl in *. apply andb_true_iff in Hds as [Hd Hds].
    rewrite Hd, (IH Hds). reflexivity.
Qed.

Lemma to_uint_normal n : Decimal.unorm (N.to_uint n) = N.to_uint n.
Proof.
  rewrite <- (DecimalN.Unsigned.of_to n) at 2. symmetry.
  apply DecimalN.Unsigned.to_of.
Qed.

Lemma to_uint_head n u : N.to_uint n = Decimal.D0 u -> u = Decimal.Nil.
Proof.
  intros H. pose proof (to_uint_normal n) as Hn. rewrite H in Hn.
  unfold Decimal.unorm in Hn.
  destruct (Decimal.nzhead (Decimal.D0 u)) eqn:E; try congruence.
  exfalso. exact (DecimalFacts.nzhead_nonzero _ _ E).
Qed.

Lemma no_leading_zero n :
  match digits_of_uint (N.to_uint n) with
  | [] => False
  | d :: more =>
    Ascii.eqb d "0" && negb (match more with [] => true | _ => false end) = false
  end.
Proof.
  destruct (N.to_uint n) eqn:E;
    try reflexivity.
  - revert E. rewrite <- to_uint_normal. apply DecimalFacts.unorm_nonnil.
  - apply to_uint_head in E. subst. reflexivity.
Qed.

Lemma number_end_digit rest :
  number_end rest = true -> match rest with [] => True | c :: _ => is_digit c = false end.
Proof.
  destruct rest as [|c rest]; [trivial|]. unfold number_end.
  intros H. apply andb_true_iff in H as [H _]. now apply negb_true_iff in H.
Qed.

Lemma number_end_fraction rest : number_end rest = true -> starts_fraction rest = false.
Proof.
  destruct rest as [|c rest]; [reflexivity|]. unfold number_end.
  intros H. apply andb_true_iff in H as [_ H]. now apply negb_true_iff in H.
Qed.

Lemma parse_digits_print n rest :
  number_end rest = true ->
  parse_digits (digits_of_uint (N.to_uint n) ++ rest) = Some (n, rest).
Proof.
  intros Hend. unfold parse_digits.
  rewrite span_digits_app;
    [| apply digits_are_digits | apply number_end_digit, Hend].
  pose proof (no_leading_zero n) as Hz.
  destruct (digits_of_uint (N.to_uint n)) as [|d more] eqn:E; [contradiction|].
  rewrite Hz, (number_end_fraction _ Hend), <- E, uint_of_digits_of_uint.
  rewrite DecimalN.Unsigned.of_to. reflexivity.
Qed.

Lemma digits_head n :
  exists d more, digits_of_uint (N.to_uint n) = d :: more /\ is_digit d = true.
Proof.
  pose proof (no_leading_zero n) as Hz.
  pose proof (digits_are_digits (N.to_uint n)) as Hd.
  destruct (digits_of_uint (N.to_uint n)) as [|d more]; [contradiction|].
  simpl in Hd. apply andb_true_iff in Hd as [Hd _]. eauto.
Qed.

Lemma digit_not_minus d : is_digit d = true -> Ascii.eqb d "-" = false.
Proof.
  intros H. destruct (Ascii.eqb d "-") eqn:E; [|reflexivity].
  apply Ascii.eqb_eq in E. subst. discriminate.
Qed.

Lemma parse_number_print n rest :
  number_end rest = true ->
  parse_number (NumberToString n ++ rest) = Some (JNum n, rest).
Proof.
  intros Hend. unfold NumberToString.
  destruct (Z.ltb_spec n 0) as [Hneg|Hpos].
  - cbn [app parse_number]. rewrite Ascii.eqb_refl, parse_digits_print by assumption.
    rewrite N2Z.inj_abs_N, Z.abs_neq, Z.opp_involutive by lia. reflexivity.
  - destruct (digits_head (Z.abs_N n)) as (d & more & E & Hd).
    pose proof (parse_digits_print (Z.abs_N n) rest Hend) as Hp.
    rewrite E in *. cbn [app parse_number]. rewrite (digit_not_minus _ Hd).
    cbn [app] in Hp. rewrite Hp, N2Z.inj_abs_N, Z.abs_eq by lia. reflexivity.
Qed.

Lemma parse_value_unfold fuel s :
  parse_value (S fuel) s =
    match skip_ws s with
    | [] => None
    | c :: r =>
      if Ascii.eqb c "n" then keyword "null" JNull (c :: r)
      else if Ascii.eqb c "t" then keyword "true" (JBool true) (c :: r)
      else if Ascii.eqb c "f" then keyword "false" (JBool false) (c :: r)
      else if Ascii.eqb c "034" then
        match parse_string r with
        | Some (body, rest) => Some (JStr (str body), rest)
        | None => None
        end
      else if Ascii.eqb c "[" then
        match skip_ws r with
        | c' :: r' =>
          if Ascii.eqb c' "]" then Some (JArr [], r')
          else parse_elements fuel r []
        | [] => None
        end
      else if Ascii.eqb c "{" then
        match skip_ws r with
        | c' :: r' =>
          if Ascii.eqb c' "}" then Some (JObj [], r')
          else parse_members fuel r []
        | [] => None
        end
      else parse_number (c :: r)
    end.
Proof. reflexivity. Qed.

Lemma parse_elements_unfold fuel s acc :
  parse_elements (S fuel) s acc =
    match parse_value fuel s with
    | None => None
    | Some (v, rest) =>
      match skip_ws rest with
      | c :: r =>
        if Ascii.eqb c "," then parse_elements fuel r (acc ++ [v])
        else if Ascii.eqb c "]" then Some (JArr (acc ++ [v]), r)
        else None
      | [] => None
      end
    end.
Proof. reflexivity. Qed.

Lemma parse_members_unfold fuel s acc :
  parse_members (S fuel) s acc =
    match skip_ws s with
    | q :: r =>
      if Ascii.eqb q "034" then
        match parse_string r with
        | None => None
        | Some (key, rest) =>
          match skip_ws rest with
          | colon :: r1 =>
            if Ascii.eqb colon ":" then
              match parse_value fuel r1 with
              | None => None
              | Some (v, rest1) =>
                match skip_ws rest1 with
                | c :: r2 =>
                  if Ascii.eqb c ","
                  then parse_members fuel r2 (obj_set acc (str key) v)
                  else if Ascii.eqb c "}"
                  then Some (JObj (obj_set acc (str key) v), r2)
                  else None
                | [] => None
                end
              end
            else None
          | [] => None
          end
        end
      else None
    | [] => None
    end.
Proof. reflexivity. Qed.

Lemma parse_value_ws fuel ws s :
  forallb is_ws ws = true -> parse_value fuel (ws ++ s) = parse_value fuel s.
Proof.
  intros H. destruct fuel; [reflexivity|].
  rewrite !parse_value_unfold, skip_ws_app by assumption. reflexivity.
Qed.

Lemma parse_value_number fuel d r :
  is_digit d = true \/ d = "-"%char ->
  parse_value (S fuel) (d :: r) = parse_number (d :: r).
Proof.
  intros H. rewrite parse_value_unfold.
  destruct d as [[] [] [] [] [] [] [] []];
    solve [reflexivity | exfalso; destruct H as [H|H]; discriminate H].
Qed.

Lemma ws_number_end c s : is_ws c = true -> number_end (c :: s) = true.
Proof.
  destruct c as [[] [] [] [] [] [] [] []]; try discriminate; reflexivity.
Qed.

Lemma spaces_ws n : forallb is_ws (spaces n) = true.
Proof. induction n; simpl; auto. Qed.

Lemma line_break_ws gap indent : forallb is_ws (line_break gap indent) = true.
Proof. destruct gap; simpl; auto using spaces_ws. Qed.

Lemma colon_space_ws gap : forallb is_ws (colon_space gap) = true.
Proof. destruct gap; reflexivity. Qed.

Lemma closing_number_end ws c rest :
  forallb is_ws ws = true -> is_digit c = false -> starts_fraction (c :: rest) = false ->
  number_end (ws ++ c :: rest) = true.
Proof.
  intros Hws Hc Hf. destruct ws as [|w ws].
  - unfold number_end. cbn [app]. rewrite Hc, Hf. reflexivity.
  - simpl in Hws. apply andb_true_iff in Hws as [Hw _]. now apply ws_number_end.
Qed.

(** The elements of an array, one after the other. *)
Lemma parse_elements_print gap inner ws rest xs :
  Forall roundtrips xs -> forallb json_wf xs = true -> forallb is_ws ws = true ->
  forall x acc pre fuel,
    roundtrips x -> json_wf x = true -> forallb is_ws pre = true ->
    (sum_list (map (fun y => S (fuel_of y)) (x :: xs)) <= fuel)%nat ->
    parse_elements fuel
      (pre ++ join_with (","%char :: line_break gap inner)
                   (map (SerializeJSONProperty gap inner) (x :: xs))
           ++ ws ++ "]"%char :: rest) acc
    = Some (JArr (acc ++ x :: xs), rest).
Proof.
  intros HP Hwf Hws. induction HP as [|y ys Hy Hys IH];
    intros x acc pre fuel Hx Hwx Hpre Hfuel.
  - cbn [map join_with sum_list sum_list_with id] in *.
    destruct fuel as [|fuel]; [lia|].
    rewrite parse_elements_unfold, parse_value_ws by assumption.
    rewrite Hx; [| assumption | lia | now apply closing_number_end].
    rewrite skip_ws_closing by (assumption || reflexivity). reflexivity.
  - cbn [forallb] in Hwf. apply andb_true_iff in Hwf as [Hwy Hwys].
    change (map (SerializeJSONProperty gap inner) (x :: y :: ys))
      with (SerializeJSONProperty gap inner x
              :: map (SerializeJSONProperty gap inner) (y :: ys)).
    change (join_with ?sep (?p :: map ?f (y :: ys)))
      with (p ++ sep ++ join_with sep (map f (y :: ys))).
    cbn [map sum_list sum_list_with id] in Hfuel.
    destruct fuel as [|fuel]; [lia|].
    rewrite parse_elements_unfold, parse_value_ws by assumption.
    rewrite <- !app_assoc.
    rewrite Hx; [| assumption | lia | reflexivity].
    cbn [app skip_ws is_ws Ascii.eqb Bool.eqb orb andb].
    rewrite (IH Hwys y (acc ++ [x]) (line_break gap inner) fuel Hy Hwy);
      [| apply line_break_ws | cbn [map sum_list sum_list_with id]; lia].
    rewrite <- app_assoc. reflexivity.
Qed.

Lemma has_key_absent k (m : list (string * json)) :
  k ∉ map fst m -> has_key k m = false.
Proof.
  unfold has_key. induction m as [|[k' v'] m IH]; [reflexivity|].
  cbn [map fst existsb]. intros Hk.
  apply not_elem_of_cons in Hk as [Hne Hk].
  rewrite (IH Hk), orb_false_r. apply String.eqb_neq. congruence.
Qed.

Lemma obj_set_fresh m k v : k ∉ map fst m -> obj_set m k v = m ++ [(k, v)].
Proof. intros H. unfold obj_set. now rewrite has_key_absent. Qed.

Lemma NoDup_fresh_key (acc : list (string * json)) x xs :
  NoDup (map fst (acc ++ x :: xs)) -> fst x ∉ map fst acc.
Proof.
  rewrite map_app. intros H Hin.
  apply NoDup_app in H as (_ & Hdisj & _).
  apply (Hdisj _ Hin). cbn [map]. apply elem_of_cons. now left.
Qed.

(** The members of an object, one after the other; no name comes
    twice, so each is appended. *)
Lemma parse_members_print gap inner ws rest xs :
  Forall (fun kv => roundtrips (snd kv)) xs ->
  forallb (fun kv => json_wf (snd kv)) xs = true -> forallb is_ws ws = true ->
  forall x acc pre fuel,
    roundtrips (snd x) -> json_wf (snd x) = true -> forallb is_ws pre = true ->
    NoDup (map fst (acc ++ x :: xs)) ->
    (sum_list (map (fun kv => S (fuel_of (snd kv))) (x :: xs)) <= fuel)%nat ->
    parse_members fuel
      (pre ++ join_with (","%char :: line_break gap inner)
                   (map (print_member gap inner) (x :: xs))
           ++ ws ++ "}"%char :: rest) acc
    = Some (JObj (acc ++ x :: xs), rest).
Proof.
  intros HP Hwf Hws. induction HP as [|y ys Hy Hys IH];
    intros [k v] acc pre fuel Hx Hwx Hpre Hnd Hfuel; cbn [fst snd] in *.
  - cbn [map join_with sum_list sum_list_with id fst snd] in *.
    destruct fuel as [|fuel]; [lia|].
    rewrite parse_members_unfold. unfold print_member, QuoteJSONString. cbn [fst snd].
    rewrite <- !app_assoc. cbn [app].
    rewrite skip_ws_closing by (assumption || reflexivity).
    rewrite Ascii.eqb_refl, <- !app_assoc. cbn [app].
    rewrite parse_string_quote.
    cbn [skip_ws is_ws Ascii.eqb Bool.eqb orb andb].
    rewrite parse_value_ws by apply colon_space_ws.
    rewrite Hx; [| assumption | lia | now apply closing_number_end].
    rewrite skip_ws_closing by (assumption || reflexivity).
    cbn [Ascii.eqb Bool.eqb andb]. unfold str, chars.
    rewrite string_of_list_ascii_of_string, obj_set_fresh; [reflexivity|].
    apply (NoDup_fresh_key acc (k, v) [] Hnd).
  - cbn [forallb] in Hwf. apply andb_true_iff in Hwf as [Hwy Hwys].
    change (map (print_member gap inner) ((k, v) :: y :: ys))
      with (print_member gap inner (k, v) :: map (print_member gap inner) (y :: ys)).
    change (join_with ?sep (?p :: map ?f (y :: ys)))
      with (p ++ sep ++ join_with sep (map f (y :: ys))).
    cbn [map sum_list sum_list_with id snd] in Hfuel.
    destruct fuel as [|fuel]; [lia|].
    rewrite parse_members_unfold. unfold print_member at 1, QuoteJSONString.
    cbn [fst snd].
    rewrite <- !app_assoc. cbn [app].
    rewrite skip_ws_closing by (assumption || reflexivity).
    rewrite Ascii.eqb_refl, <- !app_assoc. cbn [app].
    rewrite parse_string_quote.
    cbn [skip_ws is_ws Ascii.eqb Bool.eqb orb andb].
    rewrite parse_value_ws by apply colon_space_ws.
    rewrite Hx; [| assumption | lia | reflexivity].
    cbn [app skip_ws is_ws Ascii.eqb Bool.eqb orb andb]. unfold str, chars.
    rewrite string_of_list_ascii_of_string, obj_set_fresh
      by apply (NoDup_fresh_key acc (k, v) (y :: ys) Hnd).
    rewrite (IH Hwys y (acc ++ [(k, v)]) (line_break gap inner) fuel Hy Hwy);
      [| apply line_break_ws | now rewrite <- app_assoc
       | cbn [map sum_list sum_list_with id]; lia].
    rewrite <- app_assoc. reflexivity.
Qed.

Lemma digit_head_plain d :
  is_digit d = true \/ d = "-"%char ->
  is_ws d = false /\ Ascii.eqb d "]" = false.
Proof.
  destruct d as [[] [] [] [] [] [] [] []]; intros [H|H];
    solve [discriminate H | split; reflexivity].
Qed.

(** A serialization starts with a character that is neither white
    space nor a closing bracket. *)
Lemma print_head gap indent v :
  exists c r, SerializeJSONProperty gap indent v = c :: r
              /\ is_ws c = false /\ Ascii.eqb c "]" = false.
Proof.
  destruct v as [|[]|n|s|[|x xs]|[|x xs]];
    try (eexists _, _; split; [reflexivity|split; reflexivity]).
  cbn [SerializeJSONProperty]. unfold NumberToString.
  destruct (n <? 0).
  - eexists _, _; split; [reflexivity|split; reflexivity].
  - destruct (digits_head (Z.abs_N n)) as (d & more & E & Hd). rewrite E.
    exists d, more. split; [reflexivity|]. apply digit_head_plain. now left.
Qed.

Lemma join_with_head sep p ps : exists t, join_with sep (p :: ps) = p ++ t.
Proof.
  destruct ps as [|q ps].
  - exists []. cbn [join_with]. now rewrite List.app_nil_r.
  - eexists. reflexivity.
Qed.

Lemma skip_to_first_element gap inner x xs pre tail :
  forallb is_ws pre = true ->
  exists c r,
    skip_ws (pre ++ join_with (","%char :: line_break gap inner)
                      (map (SerializeJSONProperty gap inner) (x :: xs)) ++ tail)
    = c :: r
    /\ Ascii.eqb c "]" = false.
Proof.
  intros Hpre. rewrite skip_ws_app by assumption. cbn [map].
  destruct (join_with_head (","%char :: line_break gap inner)
              (SerializeJSONProperty gap inner x)
              (map (SerializeJSONProperty gap inner) xs)) as [t ->].
  destruct (print_head gap inner x) as (c & r & -> & Hws & Hc).
  cbn [app]. rewrite skip_ws_head by assumption. eauto.
Qed.

Lemma skip_to_first_member gap inner x xs pre tail :
  forallb is_ws pre = true ->
  exists r,
    skip_ws (pre ++ join_with (","%char :: line_break gap inner)
                      (map (print_member gap inner) (x :: xs)) ++ tail)
    = "034"%char :: r.
Proof.
  intros Hpre. rewrite skip_ws_app by assumption. cbn [map].
  destruct (join_with_head (","%char :: line_break gap inner)
              (print_member gap inner x)
              (map (print_member gap inner) xs)) as [t ->].
  unfold print_member, QuoteJSONString. cbn [app]. eexists. reflexivity.
Qed.

Lemma print_value_roundtrips v : roundtrips v.
Proof.
  induction v using json_ind; intros Hwf gap indent fuel rest Hfuel Hend;
    cbn [fuel_of] in Hfuel; (destruct fuel as [|fuel]; [lia|]).
  - reflexivity.
  - destruct b; reflexivity.
  - destruct (Z.ltb_spec n 0) as [Hneg|Hpos].
    + pose proof (parse_number_print n rest Hend) as Hp.
      cbn [SerializeJSONProperty] in *. unfold NumberToString in *.
      destruct (n <? 0) eqn:E; [|lia]. cbn [app] in *.
      rewrite parse_value_number by now right. exact Hp.
    + pose proof (parse_number_print n rest Hend) as Hp.
      cbn [SerializeJSONProperty] in *. unfold NumberToString in *.
      destruct (n <? 0) eqn:E; [lia|].
      destruct (digits_head (Z.abs_N n)) as (d & more & Ed & Hd).
      rewrite Ed in *. cbn [app] in *.
      rewrite parse_value_number by now left. exact Hp.
  - cbn [SerializeJSONProperty]. unfold QuoteJSONString.
    rewrite parse_value_unfold. cbn [app skip_ws is_ws Ascii.eqb Bool.eqb orb andb].
    rewrite <- app_assoc. cbn [app]. rewrite parse_string_quote.
    unfold str, chars. now rewrite string_of_list_ascii_of_string.
  - destruct elems as [|x xs]; [reflexivity|].
    cbn [json_wf forallb] in Hwf. apply andb_true_iff in Hwf as [Hwx Hwxs].
    apply Forall_cons in H as [Hx Hxs].
    cbn [SerializeJSONProperty]. rewrite parse_value_unfold.
    cbn [app skip_ws is_ws Ascii.eqb Bool.eqb orb andb].
    rewrite <- !app_assoc. change (["]"%char] ++ rest) with ("]"%char :: rest).
    destruct (skip_to_first_element gap (indent + gap) x xs
                (line_break gap (indent + gap))
                (line_break gap indent ++ "]"%char :: rest) (line_break_ws _ _))
      as (c & r & -> & ->).
    apply (parse_elements_print gap (indent + gap) (line_break gap indent) rest xs
             Hxs Hwxs (line_break_ws _ _) x [] (line_break gap (indent + gap)) fuel
             Hx Hwx (line_break_ws _ _)). lia.
  - destruct members as [|x xs]; [reflexivity|].
    cbn [json_wf forallb] in Hwf. apply andb_true_iff in Hwf as [Hnd Hwf].
    apply andb_true_iff in Hwf as [Hwx Hwxs]. apply bool_decide_eq_true in Hnd.
    apply Forall_cons in H as [Hx Hxs].
    cbn [SerializeJSONProperty]. rewrite parse_value_unfold.
    cbn [app skip_ws is_ws Ascii.eqb Bool.eqb orb andb].
    rewrite <- !app_assoc. change (["}"%char] ++ rest) with ("}"%char :: rest).
    fold (print_member gap (indent + gap)).
    destruct (skip_to_first_member gap (indent + gap) x xs
                (line_break gap (indent + gap))
                (line_break gap indent ++ "}"%char :: rest) (line_break_ws _ _))
      as (r & ->).
    cbn [Ascii.eqb Bool.eqb andb].
    apply (parse_members_print gap (indent + gap) (line_break gap indent) rest xs
             Hxs Hwxs (line_break_ws _ _) x [] (line_break gap (indent + gap)) fuel
             Hx Hwx (line_break_ws _ _) Hnd). lia.
Qed.

Lemma join_with_length sep parts :
  (1 <= List.length sep)%nat ->
  (sum_list (map (fun p => S (List.length p)) parts)
   <= S (List.length (join_with sep parts)))%nat.
Proof.
  intros Hsep. induction parts as [|p [|q ps] IH].
  - cbn. lia.
  - cbn. lia.
  - change (join_with sep (p :: q :: ps)) with (p ++ sep ++ join_with sep (q :: ps)).
    rewrite !length_app. cbn [map sum_list sum_list_with id] in *. lia.
Qed.

Lemma sum_list_le {A} (f g : A -> nat) l :
  Forall (fun x => f x <= g x)%nat l ->
  (sum_list (map f l) <= sum_list (map g l))%nat.
Proof.
  induction 1; cbn [map sum_list sum_list_with id]; lia.
Qed.

(** The text is at least as long as the parser needs fuel. *)
Lemma fuel_of_bound v gap indent :
  (fuel_of v <= List.length (SerializeJSONProperty gap indent v))%nat.
Proof.
  revert indent. induction v using json_ind; intros indent.
  - cbn. lia.
  - destruct b; cbn; lia.
  - cbn [fuel_of SerializeJSONProperty]. unfold NumberToString.
    destruct (digits_head (Z.abs_N n)) as (d & more & E & _). rewrite E.
    destruct (n <? 0); cbn [List.length]; lia.
  - cbn [fuel_of SerializeJSONProperty]. unfold QuoteJSONString.
    cbn [List.length]. lia.
  - destruct elems as [|x xs]; [cbn; lia|].
    cbn [fuel_of SerializeJSONProperty List.length]. rewrite !length_app.
    pose proof (join_with_length (","%char :: line_break gap (indent + gap))
                  (map (SerializeJSONProperty gap (indent + gap)) (x :: xs))) as Hj.
    rewrite map_map in Hj.
    assert (sum_list (map (fun y => S (fuel_of y)) (x :: xs))
            <= sum_list (map (fun y => S (List.length
                                (SerializeJSONProperty gap (indent + gap) y)))
                             (x :: xs)))%nat as Hs.
    { apply sum_list_le. eapply Forall_impl; [exact H|].
      intros y Hy. cbn beta. specialize (Hy (indent + gap)%nat). lia. }
    cbn [List.length] in *. lia.
  - destruct members as [|x xs]; [cbn; lia|].
    cbn [fuel_of SerializeJSONProperty List.length]. rewrite !length_app.
    fold (print_member gap (indent + gap)).
    pose proof (join_with_length (","%char :: line_break gap (indent + gap))
                  (map (print_member gap (indent + gap)) (x :: xs))) as Hj.
    rewrite map_map in Hj.
    assert (sum_list (map (fun kv => S (fuel_of (snd kv))) (x :: xs))
            <= sum_list (map (fun kv => S (List.length
                                (print_member gap (indent + gap) kv)))
                             (x :: xs)))%nat as Hs.
    { apply sum_list_le. eapply Forall_impl; [exact H|].
      intros y Hy. cbn beta in *. specialize (Hy (indent + gap)%nat).
      unfold print_member. rewrite length_app. cbn [List.length].
      rewrite length_app. lia. }
    cbn [List.length] in *. lia.
Qed.

(** Parsing what [JSON.stringify] wrote gives the value back, in the
    compact form and in the indented one. *)
Lemma JSON_parse_stringify v space :
  json_wf v = true -> parse (stringify v space) = Return v.
Proof.
  intros Hwf. unfold parse, stringify, str, chars.
  rewrite list_ascii_of_string_of_list_ascii.
  pose proof (print_value_roundtrips v Hwf (Nat.min space 10) 0%nat
                (S (List.length (SerializeJSONProperty (Nat.min space 10) 0 v))) [])
    as H.
  rewrite List.app_nil_r in H. rewrite H; [reflexivity| |reflexivity].
  pose proof (fuel_of_bound v (Nat.min space 10) 0%nat). lia.
Qed.

(** [JSON.stringify] never writes the empty text. *)
Lemma stringify_not_empty v space : is_empty (stringify v space) = false.
Proof.
  unfold stringify, str.
  destruct (print_head (Nat.min space 10) 0 v) as (c & r & -> & _).
  reflexivity.
Qed.

End JSON_facts.

(** *** Pattern matching *)

Section RegExp_facts.
Import RegExp.

Lemma test_without_g re s :
  global re = false ->
  test re s = (found (search (ignoreCase re) (source re) 0 s), None).
Proof.
  intros Hg. unfold test. rewrite Hg.
  replace (List.length s <? 0)%nat with false by (symmetry; apply Nat.ltb_ge; lia).
  change (drop 0 s) with s.
  destruct (search (ignoreCase re) (source re) 0 s); reflexivity.
Qed.

Lemma test_literal_search r ci s :
  test_literal r ci s = found (search ci r 0 s).
Proof. unfold test_literal. now rewrite test_without_g. Qed.

(** An alternation is found where one of its branches is. *)
Lemma search_alt ci a b s :
  forall pos,
    found (search ci (Alt a b) pos s)
    = found (search ci a pos s) || found (search ci b pos s).
Proof.
  induction s as [|c s IH]; intros pos; cbn [search ends].
  - destruct (ends ci a pos []) as [|[e1 r1] l1];
      destruct (ends ci b pos []) as [|[e2 r2] l2]; reflexivity.
  - destruct (ends ci a pos (c :: s)) as [|[e1 r1] l1];
      destruct (ends ci b pos (c :: s)) as [|[e2 r2] l2]; cbn [app found orb];
      rewrite ?orb_true_r; try reflexivity.
    apply IH.
Qed.

(** A literal under the [i] flag is found where the text includes it,
    up to case. *)
Lemma search_lit l s :
  forall pos, found (search true (Lit l) pos s) = includes_ci (chars l) s.
Proof.
  induction s as [|c s IH]; intros pos; cbn [search ends includes_ci].
  - destruct (match_literal true (chars l) []); reflexivity.
  - destruct (match_literal true (chars l) (c :: s)); [reflexivity|].
    apply IH.
Qed.

Lemma match_literal_app ci lit s t rest :
  match_literal ci lit s = Some rest ->
  match_literal ci lit (s ++ t) = Some (rest ++ t).
Proof.
  revert s. induction lit as [|a lit IH]; intros s; cbn [match_literal].
  - intros [= <-]. reflexivity.
  - destruct s as [|b s]; [discriminate|]. cbn [app].
    destruct (char_eq ci a b); [apply IH|discriminate].
Qed.

(** Text added after an occurrence leaves it in place. *)
Lemma includes_ci_app needle hay t :
  includes_ci needle hay = true -> includes_ci needle (hay ++ t) = true.
Proof.
  induction hay as [|c hay IH]; cbn [includes_ci app].
  - destruct (match_literal true needle []) eqn:E; [|discriminate].
    intros _. apply (match_literal_app _ _ _ t) in E. cbn [app] in E.
    destruct t; cbn [includes_ci]; now rewrite E.
  - destruct (match_literal true needle (c :: hay)) eqn:E.
    + intros _. apply (match_literal_app _ _ _ t) in E. cbn [app] in E.
      now rewrite E.
    + intros H. destruct (match_literal true needle (c :: hay ++ t)); auto.
Qed.

Lemma match_literal_spec lit s rest :
  match_literal true lit s = Some rest
  <-> exists mid, s = mid ++ rest /\ map to_lower mid = map to_lower lit.
Proof.
  revert s. induction lit as [|a lit IH]; intros s; cbn [match_literal].
  - split.
    + intros [= <-]. exists []. split; reflexivity.
    + intros (mid & -> & Hmid). destruct mid; [reflexivity|discriminate].
  - destruct s as [|b s].
    + split; [discriminate|]. intros (mid & Hs & Hmid).
      destruct mid; discriminate.
    + unfold char_eq. destruct (Ascii.eqb_spec (to_lower a) (to_lower b)) as [Hab|Hab].
      * rewrite IH. split.
        -- intros (mid & -> & Hmid). exists (b :: mid). split; [reflexivity|].
           cbn [map]. congruence.
        -- intros (mid & Hs & Hmid). destruct mid as [|c mid]; [discriminate|].
           cbn [app map] in *. injection Hs as -> ->. injection Hmid as _ Hmid.
           eauto.
      * split; [discriminate|]. intros (mid & Hs & Hmid).
        destruct mid as [|c mid]; [discriminate|].
        cbn [app map] in *. injection Hs as -> _. injection Hmid as Hc _.
        congruence.
Qed.

(** [includes_ci] says what its name says: some stretch of the text
    is the needle up to the case of letters. *)
Lemma includes_ci_spec needle hay :
  includes_ci needle hay = true
  <-> exists before mid after,
        hay = before ++ mid ++ after /\ map to_lower mid = map to_lower needle.
Proof.
  induction hay as [|c hay IH]; cbn [includes_ci].
  - destruct (match_literal true needle []) as [rest|] eqn:E.
    + split; [|reflexivity]. intros _.
      apply match_literal_spec in E as (mid & Hs & Hmid).
      exists [], mid, rest. auto.
    + split; [discriminate|]. intros (before & mid & after & Hs & Hmid).
      destruct before; [|discriminate]. cbn [app] in Hs.
      assert (match_literal true needle [] = Some after) as E'
        by (apply match_literal_spec; eauto).
      congruence.
  - destruct (match_literal true needle (c :: hay)) as [rest|] eqn:E.
    + split; [|reflexivity]. intros _.
      apply match_literal_spec in E as (mid & Hs & Hmid).
      exists [], mid, rest. auto.
    + rewrite IH. split.
      * intros (before & mid & after & -> & Hmid).
        exists (c :: before), mid, after. auto.
      * intros (before & mid & after & Hs & Hmid).
        destruct before as [|b before].
        -- cbn [app] in Hs.
           assert (match_literal true needle (c :: hay) = Some after) as E'
             by (apply match_literal_spec; eauto).
           congruence.
        -- cbn [app] in Hs. injection Hs as _ ->. eauto.
Qed.

End RegExp_facts.

(** *** The error handler *)

(** A declared pattern answers as its literal does and assigns nothing. *)
Lemma test_pattern_declared name s lastIndexes store :
  test_pattern name s (browser lastIndexes store)
  = (tested name s, browser lastIndexes store).
Proof.
  unfold test_pattern, tested, RegExp.test_literal. cbn [patterns browser].
  rewrite !test_without_g by reflexivity. reflexivity.
Qed.

Lemma when_matches_declared name s hit otherwise lastIndexes store :
  when_matches name s hit otherwise (browser lastIndexes store)
  = if tested name s then (hit, browser lastIndexes store)
    else otherwise (browser lastIndexes store).
Proof.
  unfold when_matches, bind. rewrite test_pattern_declared.
  destruct (tested name s); reflexivity.
Qed.

(** In any state of the page [analyzeError] answers as [classify]
    does and hands the state back. *)
Lemma analyzeError_classify error context lastIndexes store :
  analyzeError error context (browser lastIndexes store)
  = (classify error context, browser lastIndexes store).
Proof.
  unfold analyzeError, classify. rewrite !when_matches_declared.
  repeat match goal with
         | |- context [tested ?n ?s] => destruct (tested n s); [reflexivity|]
         end.
  reflexivity.
Qed.

(** The text that the patterns see starts with the extracted message. *)
Lemma errorString_starts_with_message error context :
  exists t,
    errorString error context = ToString (extractErrorMessage error) ++ t.
Proof. unfold errorString. eexists. reflexivity. Qed.

Lemma network_failed_on_fetch_failure s :
  includes_ci (chars "Failed to fetch") s = true -> tested NETWORK_FAILED s = true.
Proof.
  intros H. unfold tested. rewrite test_literal_search.
  unfold pattern_source, alt3. rewrite !search_alt, !search_lit, H.
  apply orb_true_iff. right. reflexivity.
Qed.

(** C5. Whenever the message extracted from the error includes
    "Failed to fetch", in any letter case, [analyzeError] returns the
    network-failure diagnosis: type [network], retry allowed, offline
    mode suggested.  The network-failed pattern is tested first, so
    whatever else the message, the stack or the context match plays no
    part. *)
Theorem analyzeError_failed_to_fetch error context lastIndexes store :
  includes_ci (chars "Failed to fetch") (ToString (extractErrorMessage error)) = true ->
  let info := fst (analyzeError error context (browser lastIndexes store)) in
  info = createNetworkFailedError (extractErrorMessage error)
  /\ type info = network
  /\ canRetry info = true
  /\ shouldEnableOfflineMode info = Some true.
Proof.
  intros Hmsg. rewrite analyzeError_classify. unfold classify.
  destruct (errorString_starts_with_message error context) as [t ->].
  rewrite network_failed_on_fetch_failure by now apply includes_ci_app.
  cbn. auto.
Qed.

Lemma analyzeError_failed_to_fetch_witness :
  let info :=
    fst (analyzeError (error_with_message "TypeError: FAILED TO FETCH (401)")
                      (Some "Invalid token"%string)
                      (browser (fun _ => 7%nat) ∅)) in
  info = createNetworkFailedError
           (extractErrorMessage (error_with_message "TypeError: FAILED TO FETCH (401)"))
  /\ type info = network
  /\ canRetry info = true
  /\ shouldEnableOfflineMode info = Some true.
Proof.
  apply (analyzeError_failed_to_fetch
           (error_with_message "TypeError: FAILED TO FETCH (401)")
           (Some "Invalid token"%string) (fun _ => 7%nat) ∅).
  vm_compute. reflexivity.
Defined.

(** C9. [analyzeError] is a function of its two arguments alone: run
    in any state of the page (whatever the [lastIndex] of the pattern
    objects and whatever the store holds) it returns the diagnosis that
    it returns in any other state, and it leaves the state as it found
    it. *)
Theorem analyzeError_deterministic_and_pure
  error context lastIndexes store lastIndexes' store' :
  analyzeError error context (browser lastIndexes store)
  = (fst (analyzeError error context (browser lastIndexes' store')),
     browser lastIndexes store).
Proof. rewrite !analyzeError_classify. reflexivity. Qed.

(** Two calls in a row on the same error: the same diagnosis twice. *)
Lemma analyzeError_twice error context lastIndexes store :
  let first := analyzeError error context (browser lastIndexes store) in
  let second := analyzeError error context (snd first) in
  fst second = fst first /\ snd second = browser lastIndexes store.
Proof. cbn zeta. rewrite !analyzeError_classify. cbn [fst snd].
  rewrite analyzeError_classify. auto.
Qed.

(** The purity rests on the flags: were a pattern to carry [g], its
    [test] would start at [lastIndex] and move it, and a second call
    would see another answer. *)
Lemma test_with_g_is_stateful :
  let re := {| RegExp.source := RegExp.Lit "timeout"; RegExp.ignoreCase := true;
               RegExp.global := true; RegExp.lastIndex := 0 |} in
  RegExp.test re (chars "timeout") = (true, Some 7%nat)
  /\ RegExp.test {| RegExp.source := RegExp.source re;
                    RegExp.ignoreCase := true; RegExp.global := true;
                    RegExp.lastIndex := 7 |} (chars "timeout")
     = (false, Some 0%nat).
Proof. split; reflexivity. Qed.

(** Some diagnoses, computed. *)

Lemma classify_unauthorized :
  let info := classify (error_with_message "401 Unauthorized") None in
  type info = auth /\ severity info = high /\ canRetry info = false.
Proof. vm_compute. auto. Qed.

Lemma classify_first_match_wins :
  type (classify (error_with_message "Request timed out: failed to fetch") None)
  = network
  /\ type (classify (error_with_message "Request timed out") None) = timeout.
Proof. vm_compute. auto. Qed.

Lemma classify_worker_id_required :
  type (classify (Some (JStr "Worker ID is required")) None) = config
  /\ severity (classify (Some (JStr "Worker ID is required")) None) = critical
  /\ type (classify (Some (JStr "Worker ID missing")) None) = unknown.
Proof. vm_compute. auto. Qed.

Lemma classify_server_error :
  type (classify (Some (JObj [("statusText"%string, JStr "HTTP 502")])) None) = api
  /\ type (classify None (Some "upload step 5"%string)) = unknown
  /\ message (classify None None) = "未知错误"%string
  /\ details (classify None None) = JStr "未知错误".
Proof. vm_compute. auto. Qed.

(** C6. A diagnosis of type [auth] or [config] is never retried,
    whatever the retry count and the allowed number of retries. *)
Theorem shouldRetry_auth_config_false errorInfo retryCount maxRetries :
  type errorInfo = auth \/ type errorInfo = config ->
  shouldRetry errorInfo retryCount maxRetries = false.
Proof.
  intros H. unfold shouldRetry.
  destruct (negb (canRetry errorInfo) || _); [reflexivity|].
  destruct H as [-> | ->]; reflexivity.
Qed.

Lemma shouldRetry_auth_config_false_witness :
  shouldRetry (createAuthError (JStr "401 Unauthorized")) 0 (Some 5) = false.
Proof.
  apply (shouldRetry_auth_config_false (createAuthError (JStr "401 Unauthorized")) 0 (Some 5)).
  left. reflexivity.
Defined.

(** The delay for a positive base delay: the capped product, a finite
    number whatever the retry count. *)
Lemma calculateRetryDelay_positive_base retryCount baseDelay :
  0 < baseDelay ->
  calculateRetryDelay retryCount (Some baseDelay)
  = Int (Z.min (baseDelay * 2 ^ Z.of_N retryCount) 10000).
Proof.
  intros Hb. unfold calculateRetryDelay, Math_pow2.
  assert (Hcap : 10000 < 2 ^ 1024) by reflexivity.
  assert (Hone : 1 <= 2 ^ Z.of_N retryCount)
    by (apply (Z.pow_le_mono_r 2 0); lia).
  destruct (N.leb_spec 1024 retryCount) as [Hbig|Hsmall].
  - cbn [double_mul]. unfold times_infinity.
    destruct (Z.eqb_spec baseDelay 0); [lia|].
    destruct (Z.ltb_spec 0 baseDelay); [|lia]. cbn [Bool.eqb Math_min].
    assert (2 ^ 1024 <= 2 ^ Z.of_N retryCount) by (apply Z.pow_le_mono_r; lia).
    f_equal. nia.
  - cbn [double_mul]. unfold double_of_Z.
    destruct (Z.leb_spec (2 ^ 1024) (baseDelay * 2 ^ Z.of_N retryCount)).
    + cbn [Math_min]. f_equal. lia.
    + destruct (Z.leb_spec (baseDelay * 2 ^ Z.of_N retryCount) (- 2 ^ 1024));
        [nia|reflexivity].
Qed.

(** C7, as the code has it.  For a base delay that is positive, the
    delay is the base delay doubled once per retry and capped at
    10000 ms, whatever the retry count; with the default base of
    1000 ms that is 1000 for no retry, 8000 for three and 10000 for
    ten.  (Without a positive base delay the doubles of JavaScript show:
    [Math.pow(2, 1024)] is [Infinity], and zero times it is [NaN].) *)
Theorem calculateRetryDelay_capped_backoff retryCount baseDelay :
  0 < baseDelay ->
  calculateRetryDelay retryCount (Some baseDelay)
  = Int (Z.min (baseDelay * 2 ^ Z.of_N retryCount) 10000)
  /\ calculateRetryDelay retryCount None
     = Int (Z.min (1000 * 2 ^ Z.of_N retryCount) 10000)
  /\ calculateRetryDelay 0 None = Int 1000
  /\ calculateRetryDelay 3 None = Int 8000
  /\ calculateRetryDelay 10 None = Int 10000.
Proof.
  intros Hb. split; [now apply calculateRetryDelay_positive_base|].
  split; [apply (calculateRetryDelay_positive_base retryCount 1000); lia|].
  repeat split; reflexivity.
Qed.

Lemma calculateRetryDelay_capped_backoff_witness :
  calculateRetryDelay 3 (Some 1000) = Int (Z.min (1000 * 2 ^ Z.of_N 3) 10000)
  /\ calculateRetryDelay 3 None = Int (Z.min (1000 * 2 ^ Z.of_N 3) 10000)
  /\ calculateRetryDelay 0 None = Int 1000
  /\ calculateRetryDelay 3 None = Int 8000
  /\ calculateRetryDelay 10 None = Int 10000.
Proof.
  apply (calculateRetryDelay_capped_backoff 3 1000). lia.
Defined.

(** The claim as the specification has it, for every base delay, fails
    at a base delay of zero and a retry count of 1024: the code
    returns [NaN] where the formula gives 0. *)
Lemma calculateRetryDelay_zero_base_is_NaN :
  calculateRetryDelay 1024 (Some 0) = NaN
  /\ calculateRetryDelay 1024 (Some 0) <> Int (Z.min (0 * 2 ^ Z.of_N 1024) 10000).
Proof. split; [reflexivity|discriminate]. Qed.

(** With the default base the cap is reached from the fourth retry on. *)
Lemma calculateRetryDelay_default_cap retryCount :
  (4 <= retryCount)%N -> calculateRetryDelay retryCount None = Int 10000.
Proof.
  intros H.
  change (calculateRetryDelay retryCount None)
    with (calculateRetryDelay retryCount (Some 1000)).
  rewrite calculateRetryDelay_positive_base by lia. f_equal.
  assert (2 ^ 4 <= 2 ^ Z.of_N retryCount) by (apply Z.pow_le_mono_r; lia).
  change (2 ^ 4) with 16 in *. lia.
Qed.

(** The delay is never above the cap, and never [Infinity]. *)
Lemma calculateRetryDelay_bounded retryCount baseDelay :
  match calculateRetryDelay retryCount baseDelay with
  | Int delay => delay <= 10000
  | Infinity => False
  | _ => True
  end.
Proof.
  unfold calculateRetryDelay.
  destruct (double_mul _ (Math_pow2 retryCount)); cbn [Math_min]; try lia; exact I.
Qed.

(** *** Network diagnostics *)

(** C1, as the code has it. When the basic-connectivity probe fails
    and the three other probes succeed, the report lists the
    basic-connectivity failure as its one issue, and its overall status
    is [failed]: the status is [failed] as soon as basic connectivity
    or the API probe fails, and [degraded] is left for runs in which
    both succeed and another probe fails. *)
Theorem report_when_connectivity_fails net apiToken :
  success (testBasicConnectivity net) = false ->
  success (testDnsResolution net) = true ->
  success (testCloudflareApi net apiToken) = true ->
  success (testCorsSupport net) = true ->
  let report := generateDiagnosticReport net apiToken in
  status (overall report) = failed
  /\ issues (overall report) = ["基础网络连接失败"%string]
  /\ recommendations (overall report) = ["检查网络连接和防火墙设置"%string].
Proof.
  intros Hbasic Hdns Hapi Hcors. unfold generateDiagnosticReport.
  cbn [overall status issues recommendations].
  rewrite Hbasic, Hdns, Hapi, Hcors. cbn. auto.
Qed.

Lemma report_when_connectivity_fails_witness :
  status (overall (generateDiagnosticReport connectivity_down None)) = failed
  /\ issues (overall (generateDiagnosticReport connectivity_down None))
     = ["基础网络连接失败"%string]
  /\ recommendations (overall (generateDiagnosticReport connectivity_down None))
     = ["检查网络连接和防火墙设置"%string].
Proof.
  apply (report_when_connectivity_fails connectivity_down None); reflexivity.
Defined.

(** C1, as stated, fails: in the run where only the connectivity
    probe fails the status is not [degraded]. *)
Lemma report_when_connectivity_fails_not_degraded :
  success (testBasicConnectivity connectivity_down) = false
  /\ success (testDnsResolution connectivity_down) = true
  /\ success (testCloudflareApi connectivity_down None) = true
  /\ success (testCorsSupport connectivity_down) = true
  /\ status (overall (generateDiagnosticReport connectivity_down None)) <> degraded.
Proof. repeat split; try reflexivity. discriminate. Qed.

(** [degraded] is the status of the runs in which connectivity and
    the API are fine and something else is not. *)
Lemma report_degraded_iff net apiToken :
  status (overall (generateDiagnosticReport net apiToken)) = degraded
  <-> success (testBasicConnectivity net) = true
      /\ success (testCloudflareApi net apiToken) = true
      /\ (success (testDnsResolution net) = false
          \/ success (testCorsSupport net) = false).
Proof.
  unfold generateDiagnosticReport. cbn [overall status].
  destruct (success (testBasicConnectivity net)),
           (success (testDnsResolution net)),
           (success (testCloudflareApi net apiToken)),
           (success (testCorsSupport net)); cbn;
    intuition discriminate.
Qed.

(** *** The cache of the offline manager *)

Lemma cache_record_wf data now : value_wf data = true -> json_wf (cache_record data now) = true.
Proof.
  destruct data as [d|]; cbn [value_wf]; intros H; unfold cache_record;
    cbn [app json_wf map fst snd forallb]; rewrite ?H; reflexivity.
Qed.

Lemma cache_record_timestamp data now :
  get_member (Some (cache_record data now)) "timestamp" = Return (Some (JNum now)).
Proof. destruct data; reflexivity. Qed.

Lemma cache_record_data data now :
  get_member (Some (cache_record data now)) "data" = Return data.
Proof. destruct data; reflexivity. Qed.

Lemma isExpired_number now t :
  isExpired now (Some (JNum t)) = (CACHE_DURATION <? now - t).
Proof. reflexivity. Qed.

(** What [getCachedData] does right after [cacheData] wrote the key. *)
Lemma getCachedData_after_cacheData w key v t0 t1 :
  value_wf v = true ->
  getCachedData key t1 (cacheData key v t0 w)
  = if CACHE_DURATION <? t1 - t0
    then (null, removeItem (cache_key key) (cacheData key v t0 w))
    else (v, cacheData key v t0 w).
Proof.
  intros Hwf. unfold getCachedData, getItem.
  unfold cacheData at 1. cbn [setItem localStorage].
  rewrite lookup_insert_eq, stringify_not_empty. unfold read_cached.
  rewrite JSON_parse_stringify by now apply cache_record_wf.
  rewrite cache_record_timestamp, isExpired_number, cache_record_data.
  destruct (CACHE_DURATION <? t1 - t0); reflexivity.
Qed.

(** C2. A value written by [cacheData] is what [getCachedData] returns
    for that key for as long as no more than the 86 400 000 ms of
    [CACHE_DURATION] have passed since the write, and the store keeps
    it; once more time has passed, [getCachedData] returns [null] and
    deletes the entry from the store. *)
Theorem cache_roundtrip_until_expiry w key v t0 t1 :
  value_wf v = true ->
  CACHE_DURATION = 86400000
  /\ (t1 - t0 <= CACHE_DURATION ->
      getCachedData key t1 (cacheData key v t0 w) = (v, cacheData key v t0 w))
  /\ (CACHE_DURATION < t1 - t0 ->
      fst (getCachedData key t1 (cacheData key v t0 w)) = null
      /\ getItem (cache_key key) (snd (getCachedData key t1 (cacheData key v t0 w)))
         = None
      /\ snd (getCachedData key t1 (cacheData key v t0 w))
         = removeItem (cache_key key) w).
Proof.
  intros Hwf. split; [reflexivity|].
  rewrite (getCachedData_after_cacheData w key v t0 t1 Hwf).
  split; intros Ht.
  - destruct (Z.ltb_spec CACHE_DURATION (t1 - t0)); [lia|reflexivity].
  - destruct (Z.ltb_spec CACHE_DURATION (t1 - t0)); [|lia].
    cbn [fst snd]. unfold getItem, removeItem, cacheData, setItem.
    cbn [localStorage patterns].
    rewrite lookup_delete_eq, delete_insert_eq. auto.
Qed.

Lemma cache_roundtrip_until_expiry_witness :
  getCachedData "worker-code" (1000 + 86400000)
    (cacheData "worker-code" (Some (JArr [JStr "v1"; JNum 2])) 1000 (fresh_page ∅))
  = (Some (JArr [JStr "v1"; JNum 2]),
     cacheData "worker-code" (Some (JArr [JStr "v1"; JNum 2])) 1000 (fresh_page ∅))
  /\ fst (getCachedData "worker-code" (1001 + 86400000)
            (cacheData "worker-code" (Some (JArr [JStr "v1"; JNum 2])) 1000
                       (fresh_page ∅)))
     = null.
Proof.
  destruct (cache_roundtrip_until_expiry (fresh_page ∅) "worker-code"
              (Some (JArr [JStr "v1"; JNum 2])) 1000 (1000 + 86400000))
    as (_ & Hfresh & _); [reflexivity|].
  destruct (cache_roundtrip_until_expiry (fresh_page ∅) "worker-code"
              (Some (JArr [JStr "v1"; JNum 2])) 1000 (1001 + 86400000))
    as (_ & _ & Hstale); [reflexivity|].
  split.
  - apply Hfresh. vm_compute. discriminate.
  - apply Hstale. reflexivity.
Defined.

(** *** Corrupt entries *)

(** [getCachedData] on an entry whose text does not parse: the answer
    is [null] and the store is as it was, the entry still in it. *)
Lemma getCachedData_corrupt w key stored now e :
  getItem (cache_key key) w = Some stored ->
  is_empty stored = false ->
  JSON.parse stored = Throw e ->
  getCachedData key now w = (null, w).
Proof.
  intros Hget Hne Hparse. unfold getCachedData, read_cached.
  rewrite Hget, Hne, Hparse. reflexivity.
Qed.

(** C3, on the code. The entry under [cache-version-info] holds text
    that is not JSON. [getCachedData] returns [null], as the claim
    says, but the entry is still in the store afterwards, where the
    claim has it removed; the periodic [cleanExpiredCache] is what
    removes it. *)
Theorem getCachedData_leaves_corrupt_entry :
  JSON.parse "{oops" = Throw SyntaxError
  /\ fst (getCachedData "version-info" 1000 (fresh_page corrupt_store)) = null
  /\ getItem "cache-version-info"
       (snd (getCachedData "version-info" 1000 (fresh_page corrupt_store)))
     = Some "{oops"%string
  /\ getItem "cache-version-info"
       (fst (cleanExpiredCache 1000 (fresh_page corrupt_store)))
     = None.
Proof. vm_compute. auto. Qed.

(** C4, on the code. With a corrupt entry next to a sound one,
    [getCacheStats] counts two items and adds the five characters of
    the corrupt text to the size: against the store without the corrupt
    entry, one item more and five characters more. Only the oldest
    timestamp is that of the sound entry alone. *)
Theorem getCacheStats_counts_corrupt_entry :
  JSON.parse "{oops" = Throw SyntaxError
  /\ totalItems (getCacheStats 1000 (fresh_page mixed_store)) = 2%nat
  /\ totalItems (getCacheStats 1000
                   (removeItem "cache-version-info" (fresh_page mixed_store)))
     = 1%nat
  /\ totalSize (getCacheStats 1000 (fresh_page mixed_store))
     = (5 + totalSize (getCacheStats 1000
                         (removeItem "cache-version-info" (fresh_page mixed_store))))%nat
  /\ oldestItem (getCacheStats 1000 (fresh_page mixed_store)) = Some 500
  /\ oldestItem (getCacheStats 1000
                   (removeItem "cache-version-info" (fresh_page mixed_store)))
     = Some 500.
Proof. vm_compute. repeat split; reflexivity. Qed.

(** The same in any store: an entry that does not parse is one of the
    counted items and its length is part of the size. *)

Lemma stats_entry_size w state key :
  fst (stats_entry w state key) = (fst state + entry_size w key)%nat.
Proof.
  destruct state as [size oldest]. unfold stats_entry, entry_size. cbn [fst].
  destruct (getItem key w) as [stored|]; [|cbn [fst]; lia].
  destruct (is_empty stored); [cbn [fst]; lia|].
  destruct (JSON.parse stored) as [cacheData|]; [|reflexivity].
  destruct (get_member (Some cacheData) "timestamp") as [ts|]; [|reflexivity].
  destruct (ToNumber ts) as [t|]; [|reflexivity].
  destruct (t <? oldest); reflexivity.
Qed.

Lemma fold_stats_size w keys :
  forall state,
    fst (fold_left (stats_entry w) keys state)
    = (fst state + sum_list_with (entry_size w) keys)%nat.
Proof.
  induction keys as [|k keys IH]; intros state; cbn [fold_left sum_list_with].
  - lia.
  - rewrite IH, stats_entry_size. lia.
Qed.

Lemma totalSize_sum now w :
  totalSize (getCacheStats now w) = sum_list_with (entry_size w) (cacheKeys w).
Proof.
  unfold getCacheStats.
  pose proof (fold_stats_size w (cacheKeys w) (0%nat, now)) as H.
  destruct (fold_left (stats_entry w) (cacheKeys w) (0%nat, now)) as [size oldest].
  cbn [fst totalSize] in *. lia.
Qed.

Lemma totalItems_length now w :
  totalItems (getCacheStats now w) = List.length (cacheKeys w).
Proof.
  unfold getCacheStats.
  destruct (fold_left (stats_entry w) (cacheKeys w) (0%nat, now)). reflexivity.
Qed.

Lemma cacheKeys_with_entry w key stored :
  getItem key w = Some stored ->
  startsWith (chars key) (chars "cache-") = true ->
  cacheKeys w ≡ₚ key :: cacheKeys (removeItem key w).
Proof.
  intros Hget Hprefix. unfold cacheKeys, removeItem, getItem in *.
  cbn [localStorage].
  rewrite <- (insert_delete_id (localStorage w) key stored Hget) at 1.
  rewrite map_to_list_insert by apply lookup_delete_eq.
  cbn [map fst]. now rewrite filter_cons_True.
Qed.

Lemma cacheKeys_stored w key : key ∈ cacheKeys w -> is_Some (getItem key w).
Proof.
  unfold cacheKeys, getItem. intros H.
  apply list_elem_of_filter in H as [_ H].
  apply list_elem_of_fmap in H as ([k v] & -> & H).
  apply elem_of_map_to_list in H. cbn [fst]. eauto.
Qed.

Lemma entry_size_other w key k :
  k <> key -> entry_size (removeItem key w) k = entry_size w k.
Proof.
  intros Hne. unfold entry_size, getItem, removeItem. cbn [localStorage].
  now rewrite lookup_delete_ne by congruence.
Qed.

Lemma sum_list_with_agree {A} (f g : A -> nat) l :
  (forall x, x ∈ l -> f x = g x) -> sum_list_with f l = sum_list_with g l.
Proof.
  induction l as [|x l IH]; intros H; cbn [sum_list_with]; [reflexivity|].
  rewrite (H x), IH; [reflexivity| |]; intros; try apply H; set_solver.
Qed.

Lemma getCacheStats_corrupt_entry_counted w key stored now e :
  getItem key w = Some stored ->
  startsWith (chars key) (chars "cache-") = true ->
  is_empty stored = false ->
  JSON.parse stored = Throw e ->
  totalItems (getCacheStats now w)
  = S (totalItems (getCacheStats now (removeItem key w)))
  /\ totalSize (getCacheStats now w)
     = (utf16_length stored + totalSize (getCacheStats now (removeItem key w)))%nat.
Proof.
  intros Hget Hprefix Hne _.
  pose proof (cacheKeys_with_entry w key stored Hget Hprefix) as Hperm.
  rewrite !totalItems_length, !totalSize_sum, Hperm. split; [reflexivity|].
  cbn [sum_list_with]. unfold entry_size at 1. rewrite Hget, Hne. f_equal.
  apply sum_list_with_agree. intros k Hk. symmetry. apply entry_size_other.
  intros ->. apply cacheKeys_stored in Hk as [v Hv].
  unfold getItem, removeItem in Hv. cbn [localStorage] in Hv.
  now rewrite lookup_delete_eq in Hv.
Qed.

(** The sweep, in any store: [cleanExpiredCache] removes every cache
    entry whose text does not parse. *)

Lemma clean_entry_other now state key k :
  k <> key ->
  getItem k (fst (clean_entry now state key)) = getItem k (fst state).
Proof.
  intros Hne. destruct state as [w n]. unfold clean_entry. cbn [fst].
  assert (getItem k (removeItem key w) = getItem k w) as Hrm.
  { unfold getItem, removeItem. cbn [localStorage].
    now rewrite lookup_delete_ne by congruence. }
  destruct (getItem key w) as [stored|]; [|reflexivity].
  destruct (is_empty stored); [reflexivity|].
  destruct (JSON.parse stored) as [cacheData|]; [|exact Hrm].
  destruct (get_member (Some cacheData) "timestamp") as [ts|]; [|exact Hrm].
  destruct (isExpired now ts); [exact Hrm|reflexivity].
Qed.

Lemma clean_entry_absent now state key k :
  getItem k (fst state) = None ->
  getItem k (fst (clean_entry now state key)) = None.
Proof.
  intros Hnone. destruct (decide (k = key)) as [->|Hne].
  - destruct state as [w n]. unfold clean_entry. cbn [fst] in *.
    now rewrite Hnone.
  - now rewrite clean_entry_other.
Qed.

Lemma fold_clean_absent now keys k :
  forall state,
    getItem k (fst state) = None ->
    getItem k (fst (fold_left (clean_entry now) keys state)) = None.
Proof.
  induction keys as [|key keys IH]; intros state H; cbn [fold_left]; [exact H|].
  apply IH. now apply clean_entry_absent.
Qed.

Lemma clean_entry_corrupt now state key stored e :
  getItem key (fst state) = Some stored ->
  is_empty stored = false ->
  JSON.parse stored = Throw e ->
  getItem key (fst (clean_entry now state key)) = None.
Proof.
  intros Hget Hne Hparse. destruct state as [w n].
  unfold clean_entry. cbn [fst] in *. rewrite Hget, Hne, Hparse. cbn [fst].
  unfold getItem, removeItem. cbn [localStorage]. apply lookup_delete_eq.
Qed.

Lemma fold_clean_corrupt now keys key stored e :
  key ∈ keys ->
  is_empty stored = false ->
  JSON.parse stored = Throw e ->
  forall state,
    getItem key (fst state) = Some stored ->
    getItem key (fst (fold_left (clean_entry now) keys state)) = None.
Proof.
  intros Hin Hne Hparse. revert Hin.
  induction keys as [|k keys IH]; intros Hin state Hget.
  - now apply elem_of_nil in Hin.
  - cbn [fold_left]. apply elem_of_cons in Hin as [<-|Hin].
    + apply fold_clean_absent.
      now apply (clean_entry_corrupt now state key stored e).
    + destruct (decide (key = k)) as [<-|Hneq].
      * apply fold_clean_absent.
        now apply (clean_entry_corrupt now state key stored e).
      * apply (IH Hin). now rewrite clean_entry_other.
Qed.

Lemma cacheKeys_member w key stored :
  getItem key w = Some stored ->
  startsWith (chars key) (chars "cache-") = true ->
  key ∈ cacheKeys w.
Proof.
  intros Hget Hprefix. unfold cacheKeys, getItem in *.
  apply list_elem_of_filter. split; [assumption|].
  apply list_elem_of_fmap. exists (key, stored). split; [reflexivity|].
  now apply elem_of_map_to_list.
Qed.

Lemma cleanExpiredCache_removes_corrupt w key stored now e :
  getItem key w = Some stored ->
  startsWith (chars key) (chars "cache-") = true ->
  is_empty stored = false ->
  JSON.parse stored = Throw e ->
  getItem key (fst (cleanExpiredCache now w)) = None.
Proof.
  intros Hget Hprefix Hne Hparse. unfold cleanExpiredCache.
  apply (fold_clean_corrupt now (cacheKeys w) key stored e);
    eauto using cacheKeys_member.
Qed.

(** *** Configuration files *)

Lemma lookup_member_has k m v :
  lookup_member k m = Some v -> existsb (fun kv => String.eqb (fst kv) k) m = true.
Proof.
  induction m as [|[k' v'] m IH]; cbn [lookup_member existsb fst]; [discriminate|].
  destruct (String.eqb k' k); [reflexivity|]. exact IH.
Qed.

Lemma string_member_has cfg field :
  is_string_type (member cfg field) = true -> has_member field cfg = true.
Proof.
  destruct cfg as [| | | | |m]; try discriminate. cbn [member has_member].
  destruct (lookup_member field m) eqn:E; [|discriminate].
  intros _. exact (lookup_member_has _ _ _ E).
Qed.

Lemma field_errors_string cfg field :
  is_string_type (member cfg field) = true -> field_errors cfg field = [].
Proof.
  intros H. unfold field_errors. now rewrite (string_member_has _ _ H), H.
Qed.

Lemma required_fields_strings cfg :
  forallb (fun field => is_string_type (member cfg field)) requiredFields = true ->
  flat_map (field_errors cfg) requiredFields = [].
Proof.
  induction requiredFields as [|f fs IH]; [reflexivity|].
  cbn [forallb flat_map]. intros H. apply andb_true_iff in H as [Hf Hfs].
  now rewrite (field_errors_string _ _ Hf), (IH Hfs).
Qed.

Lemma string_member_object cfg field :
  is_string_type (member cfg field) = true ->
  truthy (Some cfg) = true /\ is_object_type (Some cfg) = true.
Proof. destruct cfg; try discriminate. intros _. split; reflexivity. Qed.

Section ConfigFile_facts.

Variable Date_valid : string -> bool.

(** The text with no character is not a date. *)
Hypothesis Date_valid_empty : Date_valid EmptyString = false.

(** A file with a version, a timestamp that parses and the seven
    fields as strings passes validation without an error. *)
Lemma well_formed_file_valid data v t cfg :
  member data "version" = Some (JStr v) -> is_empty v = false ->
  member data "timestamp" = Some (JStr t) -> Date_valid t = true ->
  member data "config" = Some cfg ->
  forallb (fun field => is_string_type (member cfg field)) requiredFields = true ->
  validateConfigFileDetailed Date_valid data
  = {| isValid := true; errors := []; warnings := config_warnings cfg |}.
Proof.
  intros Hv Hvne Ht Htv Hc Hfields.
  assert (is_empty t = false) as Htne.
  { destruct t; [congruence|reflexivity]. }
  destruct (string_member_object cfg "cloudflareApiToken") as [Htruthy Hobj].
  { cbn [requiredFields forallb] in Hfields.
    now apply andb_true_iff in Hfields as [H _]. }
  unfold validateConfigFileDetailed.
  destruct data as [| | | | |m]; try discriminate.
  cbn [truthy is_object_type typeof negb orb].
  unfold version_errors, timestamp_errors.
  rewrite Hv, Ht, Hc, Htruthy, Hobj. cbn [truthy is_string_type typeof negb].
  rewrite Hvne, Htne, Htv. cbn [negb app].
  now rewrite (required_fields_strings cfg Hfields).
Qed.

(** C10. A file whose version is a string with at least one
    character, whose timestamp parses as a date and whose config
    object has the seven required fields as strings is valid and
    raises no error, whatever the seven strings are, the empty string
    included: what they contain can only add warnings. *)
Theorem validate_accepts_any_string_fields data v t cfg :
  member data "version" = Some (JStr v) -> is_empty v = false ->
  member data "timestamp" = Some (JStr t) -> Date_valid t = true ->
  member data "config" = Some cfg ->
  forallb (fun field => is_string_type (member cfg field)) requiredFields = true ->
  isValid (validateConfigFileDetailed Date_valid data) = true
  /\ errors (validateConfigFileDetailed Date_valid data) = []
  /\ warnings (validateConfigFileDetailed Date_valid data) = config_warnings cfg.
Proof.
  intros Hv Hvne Ht Htv Hc Hfields.
  rewrite (well_formed_file_valid data v t cfg Hv Hvne Ht Htv Hc Hfields).
  auto.
Qed.

(** C8. The file that [exportConfigToFile] writes for a configuration
    is one that [importConfigFromFile] accepts, and the configuration
    that the import resolves to is the exported one, equal in its seven
    fields.  The timestamp of the export is the platform's own ISO
    text of the current time, which the platform reads back as a date. *)
Theorem export_then_import c filename now :
  Date_valid now = true ->
  importConfigFromFile Date_valid (Some (content (exportConfigToFile c filename now)))
  = Return (Some (json_of_config c)).
Proof.
  intros Hnow. unfold importConfigFromFile, exportConfigToFile. cbn [content].
  rewrite JSON_parse_stringify by reflexivity.
  unfold validateConfigFile.
  rewrite (well_formed_file_valid _ "1.0.0" now (json_of_config c));
    try reflexivity; assumption.
Qed.

End ConfigFile_facts.

Lemma validate_accepts_any_string_fields_witness :
  isValid (validateConfigFileDetailed iso_date_valid
             (config_file empty_config "2026-11-02T01:28:00.000Z" "saved")) = true
  /\ errors (validateConfigFileDetailed iso_date_valid
               (config_file empty_config "2026-11-02T01:28:00.000Z" "saved")) = []
  /\ warnings (validateConfigFileDetailed iso_date_valid
                 (config_file empty_config "2026-11-02T01:28:00.000Z" "saved"))
     = config_warnings (json_of_config empty_config).
Proof.
  apply (validate_accepts_any_string_fields iso_date_valid eq_refl
           (config_file empty_config "2026-11-02T01:28:00.000Z" "saved")
           "1.0.0" "2026-11-02T01:28:00.000Z" (json_of_config empty_config));
    reflexivity.
Defined.

Lemma export_then_import_witness :
  importConfigFromFile iso_date_valid
    (Some (content (exportConfigToFile odd_config None "2026-11-02T01:28:00.000Z")))
  = Return (Some (json_of_config odd_config)).
Proof.
  apply (export_then_import iso_date_valid eq_refl odd_config None
           "2026-11-02T01:28:00.000Z").
  reflexivity.
Defined.

(** Seven empty strings: no error and no warning either. *)
Lemma empty_config_no_warning :
  validateConfigFileDetailed iso_date_valid
    (config_file empty_config "2026-11-02T01:28:00.000Z" "saved")
  = {| isValid := true; errors := []; warnings := [] |}.
Proof. vm_compute. reflexivity. Qed.

(** A short token, an account ID that is not hexadecimal, an unknown
    region and a half-filled group: four warnings, still valid. *)
Lemma odd_config_only_warnings :
  validateConfigFileDetailed iso_date_valid
    (config_file odd_config "2026-11-02T01:28:00.000Z" "saved")
  = {| isValid := true;
       errors := [];
       warnings :=
         [ "腾讯云COS配置不完整，缺少: cosSecretId, cosSecretKey, cosBucket";
           "COS地域 'mars-1' 可能不是有效的地域代码";
           "Cloudflare API Token 长度可能不正确";
           "Cloudflare Account ID 格式可能不正确（应为32位十六进制字符串）" ]%string |}.
Proof. vm_compute. reflexivity. Qed.

(** A field that is not a string is an error. *)
Lemma number_field_rejected :
  isValid (validateConfigFileDetailed iso_date_valid
             (JObj [ ("version"%string, JStr "1.0.0");
                     ("timestamp"%string, JStr "2026-11-02T01:28:00.000Z");
                     ("config"%string,
                      JObj [ ("cloudflareApiToken"%string, JNum 42) ]) ]))
  = false.
Proof. vm_compute. reflexivity. Qed.

(* ================================================================= *)
(** ** Part III: further properties of the code *)
(* ================================================================= *)

(** *** The diagnostic report *)

(** X1. The summary of a report follows the four probe results: there
    is one issue and one recommendation for each failed probe, the
    issues come in the order connectivity, DNS, API, CORS, the status
    is [healthy] exactly when no probe failed and [failed] exactly when
    connectivity or the API failed. *)
Theorem report_summary_counts net apiToken :
  let r := generateDiagnosticReport net apiToken in
  List.length (issues (overall r)) = failed_probes r
  /\ List.length (recommendations (overall r)) = failed_probes r
  /\ sublist (issues (overall r)) all_issues
  /\ (status (overall r) = healthy <-> failed_probes r = 0%nat)
  /\ (status (overall r) = failed
      <-> success (basicConnectivity r) && success (cloudflareApi r) = false).
Proof.
  unfold generateDiagnosticReport, failed_probes, all_issues.
  cbn [overall status issues recommendations basicConnectivity dnsResolution
       cloudflareApi corsSupport].
  destruct (success (testBasicConnectivity net)),
           (success (testDnsResolution net)),
           (success (testCloudflareApi net apiToken)),
           (success (testCorsSupport net)); cbn;
    (split; [reflexivity|]); (split; [reflexivity|]);
    (split; [repeat first [apply sublist_nil | apply sublist_skip | apply sublist_cons]|]);
    split; split; intros; first [reflexivity | discriminate].
Qed.

(** *** Diagnoses *)

(** X2. Whatever the error and the context, and in any state of the
    pattern objects, the diagnosis of [analyzeError] carries the
    extracted message as its details, is never of severity [low],
    gives three to five suggestions, cannot be retried when its type is
    [auth] or [config], and either asks for offline mode or leaves the
    flag out (it is never [false]). *)
Theorem analyzeError_diagnosis_shape error context lastIndexes store :
  let info := fst (analyzeError error context (browser lastIndexes store)) in
  details info = extractErrorMessage error
  /\ severity info <> low
  /\ (3 <= List.length (suggestions info) <= 5)%nat
  /\ (is_no_retry_type (type info) = true -> canRetry info = false)
  /\ shouldEnableOfflineMode info <> Some false.
Proof.
  rewrite analyzeError_classify. cbn [fst]. unfold classify.
  repeat match goal with
         | |- context [tested ?n ?s] => destruct (tested n s)
         end;
    cbn; (repeat split; try reflexivity; try discriminate; try lia).
Qed.

(** X3. On a diagnosis of [analyzeError] the check of [shouldRetry]
    against the types that are not retried decides nothing: the answer
    is [canRetry] as long as retries are left. *)
Theorem shouldRetry_of_diagnosis error context lastIndexes store retryCount maxRetries :
  let info := fst (analyzeError error context (browser lastIndexes store)) in
  shouldRetryError info retryCount maxRetries
  = canRetry info
    && (retryCount <? match maxRetries with Some m => m | None => 3 end).
Proof.
  rewrite analyzeError_classify. cbn [fst].
  unfold shouldRetryError, shouldRetry, classify.
  set (m := match maxRetries with Some m => m | None => 3 end).
  assert (Hm : (m <=? retryCount) = negb (retryCount <? m)).
  { destruct (Z.leb_spec m retryCount), (Z.ltb_spec retryCount m); try reflexivity; lia. }
  rewrite Hm.
  repeat match goal with
         | |- context [tested ?n ?s] => destruct (tested n s)
         end;
    cbn; destruct (retryCount <? m); reflexivity.
Qed.

(** X4. With a base delay that is positive, the retry delay is a
    finite number whatever the retry count (it is never [NaN] or
    infinite), it grows with the retry count, and it stays between the
    smaller of the base delay and the cap, and the cap of ten seconds. *)
Theorem calculateRetryDelay_monotone baseDelay r1 r2 :
  0 < baseDelay -> (r1 <= r2)%N ->
  exists d1 d2,
    getRetryDelay r1 (Some baseDelay) = Int d1
    /\ getRetryDelay r2 (Some baseDelay) = Int d2
    /\ Z.min baseDelay 10000 <= d1 /\ d1 <= d2 /\ d2 <= 10000.
Proof.
  intros Hb Hr. unfold getRetryDelay.
  rewrite !calculateRetryDelay_positive_base by assumption.
  eexists _, _. split; [reflexivity|]. split; [reflexivity|].
  assert (H1 : 1 <= 2 ^ Z.of_N r1) by (apply (Z.pow_le_mono_r 2 0); lia).
  assert (H12 : 2 ^ Z.of_N r1 <= 2 ^ Z.of_N r2) by (apply Z.pow_le_mono_r; lia).
  assert (baseDelay * 1 <= baseDelay * 2 ^ Z.of_N r1)
    by (apply Z.mul_le_mono_nonneg_l; lia).
  assert (baseDelay * 2 ^ Z.of_N r1 <= baseDelay * 2 ^ Z.of_N r2)
    by (apply Z.mul_le_mono_nonneg_l; lia).
  lia.
Qed.

Lemma calculateRetryDelay_monotone_witness :
  exists d1 d2,
    getRetryDelay 1 (Some 1000) = Int d1
    /\ getRetryDelay 2000 (Some 1000) = Int d2
    /\ Z.min 1000 10000 <= d1 /\ d1 <= d2 /\ d2 <= 10000.
Proof. apply (calculateRetryDelay_monotone 1000 1 2000); lia. Defined.

(** *** Objects: assignment and spread *)

Section Object_facts.
Import JSON.

Lemma lookup_member_absent k (m : list (string * json)) :
  k ∉ map fst m -> lookup_member k m = None.
Proof.
  induction m as [|[k' v'] m IH]; [reflexivity|].
  cbn [map fst lookup_member]. intros Hk.
  apply not_elem_of_cons in Hk as [Hne Hk].
  destruct (String.eqb_spec k' k); [congruence|]. now apply IH.
Qed.

Lemma has_key_elem k (m : list (string * json)) :
  has_key k m = true <-> k ∈ map fst m.
Proof.
  unfold has_key. induction m as [|[k' v'] m IH]; cbn [existsb map fst].
  - split; [discriminate|]. intros H. now apply elem_of_nil in H.
  - rewrite elem_of_cons, orb_true_iff, IH.
    destruct (String.eqb_spec k' k); intuition congruence.
Qed.

Lemma lookup_replace_key k k' v (m : list (string * json)) :
  has_key k' m = true ->
  lookup_member k (replace_key k' v m)
  = if String.eqb k' k then Some v else lookup_member k m.
Proof.
  unfold has_key. induction m as [|[k0 v0] m IH]; cbn [existsb fst]; [discriminate|].
  cbn [replace_key lookup_member].
  destruct (String.eqb_spec k0 k') as [->|Hne]; cbn [orb lookup_member].
  - intros _. destruct (String.eqb k' k); reflexivity.
  - intros H. rewrite (IH H).
    destruct (String.eqb_spec k0 k) as [->|]; [|reflexivity].
    destruct (String.eqb_spec k' k); [congruence|reflexivity].
Qed.

Lemma lookup_member_app k (m m' : list (string * json)) :
  lookup_member k (m ++ m')
  = match lookup_member k m with
    | Some v => Some v
    | None => lookup_member k m'
    end.
Proof.
  induction m as [|[k0 v0] m IH]; [reflexivity|].
  cbn [app lookup_member]. destruct (String.eqb k0 k); [reflexivity|apply IH].
Qed.

(** Reading a member after an assignment. *)
Lemma lookup_obj_set m k' v k :
  lookup_member k (obj_set m k' v)
  = if String.eqb k' k then Some v else lookup_member k m.
Proof.
  unfold obj_set. destruct (has_key k' m) eqn:Hhas.
  - now apply lookup_replace_key.
  - rewrite lookup_member_app. cbn [lookup_member].
    destruct (String.eqb_spec k' k) as [->|].
    + rewrite lookup_member_absent; [reflexivity|].
      rewrite <- has_key_elem. congruence.
    + now destruct (lookup_member k m).
Qed.

Lemma replace_key_keys k v (m : list (string * json)) :
  map fst (replace_key k v m) = map fst m.
Proof.
  induction m as [|[k0 v0] m IH]; [reflexivity|].
  cbn [replace_key]. destruct (String.eqb k0 k); cbn [map fst]; congruence.
Qed.

Lemma obj_set_NoDup m k v :
  NoDup (map fst m) -> NoDup (map fst (obj_set m k v)).
Proof.
  intros Hm. unfold obj_set. destruct (has_key k m) eqn:Hhas.
  - now rewrite replace_key_keys.
  - rewrite map_app. cbn [map fst]. apply NoDup_app. split; [assumption|].
    split; [|apply NoDup_singleton].
    intros x Hx Hin. apply list_elem_of_singleton in Hin as ->.
    apply has_key_elem in Hx. congruence.
Qed.

Lemma replace_key_values k v (m : list (string * json)) :
  json_wf v = true ->
  forallb (fun kv => json_wf (snd kv)) m = true ->
  forallb (fun kv => json_wf (snd kv)) (replace_key k v m) = true.
Proof.
  intros Hv. induction m as [|[k0 v0] m IH]; [reflexivity|].
  cbn [replace_key forallb snd]. intros H.
  apply andb_true_iff in H as [H0 H].
  destruct (String.eqb k0 k); cbn [forallb snd]; apply andb_true_iff; auto.
Qed.

(** An assignment keeps an object well formed. *)
Lemma obj_set_wf m k v :
  json_wf (JObj m) = true -> json_wf v = true ->
  json_wf (JObj (obj_set m k v)) = true.
Proof.
  cbn [json_wf]. intros Hm Hv. apply andb_true_iff in Hm as [Hnd Hvals].
  apply bool_decide_eq_true in Hnd.
  apply andb_true_iff. split.
  - apply bool_decide_eq_true. now apply obj_set_NoDup.
  - unfold obj_set. destruct (has_key k m).
    + now apply replace_key_values.
    + rewrite forallb_app. cbn [forallb snd]. now rewrite Hvals, Hv.
Qed.

Lemma lookup_fold_obj_set (entries : list (string * json)) target k :
  NoDup (map fst entries) ->
  lookup_member k
    (fold_left (fun acc kv => obj_set acc (fst kv) (snd kv)) entries target)
  = match lookup_member k entries with
    | Some v => Some v
    | None => lookup_member k target
    end.
Proof.
  revert target. induction entries as [|[k0 v0] entries IH]; intros target Hnd;
    [reflexivity|].
  cbn [map fst] in Hnd. apply NoDup_cons in Hnd as [Hk0 Hnd].
  cbn [fold_left fst snd lookup_member]. rewrite (IH _ Hnd), lookup_obj_set.
  destruct (String.eqb_spec k0 k) as [->|]; [|reflexivity].
  now rewrite lookup_member_absent.
Qed.

(** Reading a member of [{ ...target, ...source }] for an object
    [source]: the member of [source], or else that of [target]. *)
Lemma lookup_spread target m k :
  NoDup (map fst m) ->
  lookup_member k (spread target (Some (JObj m)))
  = match lookup_member k m with
    | Some v => Some v
    | None => lookup_member k target
    end.
Proof. apply lookup_fold_obj_set. Qed.

Lemma json_wf_members m : json_wf (JObj m) = true -> NoDup (map fst m).
Proof.
  cbn [json_wf]. intros H. apply andb_true_iff in H as [H _].
  now apply bool_decide_eq_true in H.
Qed.

End Object_facts.

(** *** The offline mode *)

Lemma set_world_same p : set_world (world p) p = p.
Proof. now destruct p. Qed.

(** What a reload finds after [saveOfflineConfig]: the members of the
    saved configuration, over the defaults. *)
Lemma reload_after_save p k :
  json_wf (JObj (offlineConfig p)) = true ->
  lookup_member k (offlineConfig (new_OfflineManager (saveOfflineConfig p)))
  = match lookup_member k (offlineConfig p) with
    | Some v => Some v
    | None => lookup_member k default_offlineConfig
    end.
Proof.
  intros Hwf.
  unfold new_OfflineManager, loadOfflineConfig, saveOfflineConfig, getItem, setItem.
  cbn [world set_world set_offlineConfig offlineConfig localStorage].
  rewrite lookup_insert_eq, stringify_not_empty, JSON_parse_stringify by assumption.
  cbn [offlineConfig set_offlineConfig].
  now rewrite lookup_spread by now apply json_wf_members.
Qed.

(** X5. The offline mode survives a reload of the page: after
    [setOfflineMode(enabled)] the constructor of the manager reads the
    saved configuration back, member by member, whatever else was kept
    in it, and [isOfflineMode] answers as before the reload. *)
Theorem setOfflineMode_survives_reload enabled p :
  json_wf (JObj (offlineConfig p)) = true ->
  let p' := setOfflineMode enabled p in
  let reloaded := new_OfflineManager p' in
  (forall k, lookup_member k (offlineConfig reloaded)
             = lookup_member k (offlineConfig p'))
  /\ lookup_member "enabled" (offlineConfig reloaded) = Some (JBool enabled)
  /\ isOfflineMode reloaded = isOfflineMode p'.
Proof.
  intros Hwf p' reloaded.
  assert (Hwf' : json_wf (JObj (JSON.obj_set (offlineConfig p) "enabled" (JBool enabled))) = true)
    by now apply obj_set_wf.
  assert (Hall : forall k, lookup_member k (offlineConfig reloaded)
                           = lookup_member k (offlineConfig p')).
  { intros k. subst reloaded p'. unfold setOfflineMode.
    set (q := set_offlineConfig _ p).
    assert (Hq : offlineConfig q = JSON.obj_set (offlineConfig p) "enabled" (JBool enabled))
      by reflexivity.
    assert (Hload : forall q', world q' = world (saveOfflineConfig q) ->
              offlineConfig q' = offlineConfig q ->
              lookup_member k (offlineConfig (new_OfflineManager q'))
              = lookup_member k (offlineConfig q')).
    { intros q' Hw Hc.
      transitivity (lookup_member k (offlineConfig (new_OfflineManager (saveOfflineConfig q)))).
      - unfold new_OfflineManager, loadOfflineConfig.
        cbn [world set_offlineConfig offlineConfig]. rewrite Hw.
        destruct (getItem STORAGE_KEY (world (saveOfflineConfig q))); [|reflexivity].
        destruct (is_empty s); [reflexivity|].
        destruct (JSON.parse s); reflexivity.
      - rewrite reload_after_save by now rewrite Hq.
        rewrite Hc, Hq, !lookup_obj_set.
        destruct (String.eqb_spec "enabled" k) as [<-|Hne]; [reflexivity|].
        destruct (lookup_member k (offlineConfig p)) eqn:Hk; [reflexivity|].
        cbn [default_offlineConfig lookup_member].
        destruct (String.eqb_spec "enabled" k); [congruence|reflexivity]. }
    destruct enabled; apply Hload; reflexivity. }
  split; [exact Hall|]. split.
  - rewrite Hall. subst p'. unfold setOfflineMode.
    destruct enabled; cbn [toast set_offlineConfig saveOfflineConfig set_world offlineConfig];
      now rewrite lookup_obj_set.
  - unfold isOfflineMode. rewrite Hall.
    replace (onLine reloaded) with (onLine p'); [reflexivity|].
    subst reloaded. unfold new_OfflineManager, loadOfflineConfig.
    cbn [world set_offlineConfig].
    destruct (getItem STORAGE_KEY (world p')); [|reflexivity].
    destruct (is_empty s); [reflexivity|].
    destruct (JSON.parse s); reflexivity.
Qed.

Lemma setOfflineMode_survives_reload_witness :
  let p' := setOfflineMode true (loaded_page ∅ true) in
  let reloaded := new_OfflineManager p' in
  (forall k, lookup_member k (offlineConfig reloaded)
             = lookup_member k (offlineConfig p'))
  /\ lookup_member "enabled" (offlineConfig reloaded) = Some (JBool true)
  /\ isOfflineMode reloaded = isOfflineMode p'.
Proof. apply (setOfflineMode_survives_reload true (loaded_page ∅ true)). reflexivity. Defined.

(** *** The cache: reads, writes and the sweep *)

Lemma cache_key_inj key key' : cache_key key = cache_key key' -> key = key'.
Proof. unfold cache_key. cbv [String.append]. congruence. Qed.

Lemma world_eq w w' :
  patterns w = patterns w' -> localStorage w = localStorage w' -> w = w'.
Proof. destruct w, w'. cbn. now intros -> ->. Qed.

(** What a read does to the store: nothing, or it deletes its own
    entry and returns [null]. *)
Lemma getCachedData_store key now w :
  snd (getCachedData key now w) = w
  \/ getCachedData key now w = (null, removeItem (cache_key key) w).
Proof.
  unfold getCachedData, read_cached.
  destruct (getItem (cache_key key) w) as [stored|]; [|now left].
  destruct (is_empty stored); [now left|].
  destruct (JSON.parse stored) as [cacheData|]; [|now left].
  destruct (get_member (Some cacheData) "timestamp") as [ts|]; [|now left].
  destruct (isExpired now ts); [now right|].
  destruct (get_member (Some cacheData) "data"); now left.
Qed.

(** X6. A read never writes: [getCachedData] hands the store back as
    it was, or without the entry of its own key, and in that case it
    returns [null]; the entries of all other keys stay. *)
Theorem getCachedData_touches_own_entry key now w :
  let r := getCachedData key now w in
  patterns (snd r) = patterns w
  /\ (localStorage (snd r) = localStorage w
      \/ (fst r = null
          /\ localStorage (snd r) = delete (cache_key key) (localStorage w)))
  /\ forall k, k <> cache_key key -> getItem k (snd r) = getItem k w.
Proof.
  cbn zeta. destruct (getCachedData_store key now w) as [H|H]; rewrite H.
  - auto.
  - cbn [fst snd removeItem patterns localStorage]. repeat split; auto.
    intros k Hk. unfold getItem, removeItem. cbn [localStorage].
    now rewrite lookup_delete_ne by congruence.
Qed.

(** X7. Entries of different keys do not interfere: writing one key
    changes neither what a read of another key returns nor what that
    read does to the store. *)
Theorem cacheData_other_key key key' v t now w :
  key <> key' ->
  fst (getCachedData key now (cacheData key' v t w)) = fst (getCachedData key now w)
  /\ snd (getCachedData key now (cacheData key' v t w))
     = cacheData key' v t (snd (getCachedData key now w)).
Proof.
  intros Hne.
  assert (Hk : cache_key key' <> cache_key key).
  { intros H. apply cache_key_inj in H. congruence. }
  assert (Hget : getItem (cache_key key) (cacheData key' v t w)
                 = getItem (cache_key key) w).
  { unfold getItem, cacheData, setItem. cbn [localStorage].
    now rewrite lookup_insert_ne by assumption. }
  assert (Hrm : removeItem (cache_key key) (cacheData key' v t w)
                = cacheData key' v t (removeItem (cache_key key) w)).
  { unfold cacheData, setItem, removeItem. cbn [patterns localStorage]. f_equal.
    now rewrite delete_insert_ne by congruence. }
  unfold getCachedData, read_cached. rewrite Hget.
  destruct (getItem (cache_key key) w) as [stored|]; [|now split].
  destruct (is_empty stored); [now split|].
  destruct (JSON.parse stored) as [parsed|]; [|now split].
  destruct (get_member (Some parsed) "timestamp") as [ts|]; [|now split].
  destruct (isExpired now ts).
  - rewrite Hrm. now split.
  - destruct (get_member (Some parsed) "data"); now split.
Qed.

Lemma cacheData_other_key_witness :
  fst (getCachedData "a" 10 (cacheData "b" (Some (JNum 2)) 5
                               (cacheData "a" (Some (JNum 1)) 0 (fresh_page ∅))))
  = fst (getCachedData "a" 10 (cacheData "a" (Some (JNum 1)) 0 (fresh_page ∅)))
  /\ snd (getCachedData "a" 10 (cacheData "b" (Some (JNum 2)) 5
                                  (cacheData "a" (Some (JNum 1)) 0 (fresh_page ∅))))
     = cacheData "b" (Some (JNum 2)) 5
         (snd (getCachedData "a" 10 (cacheData "a" (Some (JNum 1)) 0 (fresh_page ∅)))).
Proof. apply (cacheData_other_key "a" "b"). discriminate. Defined.

Lemma parse_not_empty stored v : JSON.parse stored = Return v -> is_empty stored = false.
Proof. destruct stored; [discriminate|reflexivity]. Qed.

(** One round of the sweep, on the entry of its own key. *)
Lemma clean_entry_self now state key :
  getItem key (fst (clean_entry now state key))
  = match getItem key (fst state) with
    | Some stored => if stale now stored then None else Some stored
    | None => None
    end.
Proof.
  destruct state as [w n]. unfold clean_entry, stale. cbn [fst].
  assert (Hrm : getItem key (removeItem key w) = None).
  { unfold getItem, removeItem. cbn [localStorage]. apply lookup_delete_eq. }
  destruct (getItem key w) as [stored|] eqn:Hget; [|exact Hget].
  destruct (is_empty stored); [exact Hget|].
  destruct (JSON.parse stored) as [parsed|]; [|exact Hrm].
  destruct (get_member (Some parsed) "timestamp") as [ts|]; [|exact Hrm].
  destruct (isExpired now ts); [exact Hrm|exact Hget].
Qed.

(** One round of the sweep counts what it removes. *)
Lemma clean_entry_count now state key :
  patterns (fst (clean_entry now state key)) = patterns (fst state)
  /\ (snd (clean_entry now state key)
      + size (localStorage (fst (clean_entry now state key)))
      = snd state + size (localStorage (fst state)))%nat.
Proof.
  destruct state as [w n]. unfold clean_entry. cbn [fst snd].
  assert (Hrm : forall stored, getItem key w = Some stored ->
            (S n + size (localStorage (removeItem key w))
             = n + size (localStorage w))%nat).
  { intros stored Hget. unfold removeItem, getItem in *. cbn [localStorage].
    rewrite map_size_delete_Some by eauto.
    assert (size (localStorage w) <> 0%nat).
    { intros Hz. apply map_size_empty_iff in Hz. rewrite Hz in Hget.
      now rewrite lookup_empty in Hget. }
    lia. }
  destruct (getItem key w) as [stored|] eqn:Hget; [|now split].
  destruct (is_empty stored); [now split|].
  destruct (JSON.parse stored) as [cacheData|]; [|split; [reflexivity|eauto]].
  destruct (get_member (Some cacheData) "timestamp") as [ts|];
    [|split; [reflexivity|eauto]].
  destruct (isExpired now ts); [split; [reflexivity|eauto]|now split].
Qed.

Lemma fold_clean_count now keys :
  forall state,
    patterns (fst (fold_left (clean_entry now) keys state)) = patterns (fst state)
    /\ (snd (fold_left (clean_entry now) keys state)
        + size (localStorage (fst (fold_left (clean_entry now) keys state)))
        = snd state + size (localStorage (fst state)))%nat.
Proof.
  induction keys as [|key keys IH]; intros state; cbn [fold_left]; [now split|].
  destruct (IH (clean_entry now state key)) as [Hp Hn].
  destruct (clean_entry_count now state key) as [Hp' Hn'].
  split; [congruence|lia].
Qed.

(** The rounds of the sweep over keys that are all different. *)
Lemma fold_clean_lookup now keys :
  NoDup keys ->
  forall state k,
    getItem k (fst (fold_left (clean_entry now) keys state))
    = match getItem k (fst state) with
      | Some stored =>
        if bool_decide (k ∈ keys) && stale now stored then None else Some stored
      | None => None
      end.
Proof.
  induction 1 as [|key keys Hnotin Hnd IH]; intros state k; cbn [fold_left].
  - destruct (getItem k (fst state)); [|reflexivity].
    rewrite bool_decide_eq_false_2; [reflexivity|apply not_elem_of_nil].
  - rewrite IH. destruct (decide (k = key)) as [->|Hne].
    + rewrite clean_entry_self.
      rewrite (bool_decide_eq_false_2 (key ∈ keys)) by assumption.
      rewrite (bool_decide_eq_true_2 (key ∈ key :: keys)) by (apply elem_of_cons; now left).
      destruct (getItem key (fst state)) as [stored|]; [|reflexivity].
      cbn [andb]. now destruct (stale now stored).
    + rewrite clean_entry_other by assumption.
      destruct (getItem k (fst state)) as [stored|]; [|reflexivity].
      assert (Hiff : bool_decide (k ∈ key :: keys) = bool_decide (k ∈ keys)).
      { apply bool_decide_ext. rewrite elem_of_cons. intuition congruence. }
      now rewrite Hiff.
Qed.

Lemma cacheKeys_NoDup w : NoDup (cacheKeys w).
Proof. unfold cacheKeys. apply NoDup_filter, NoDup_fst_map_to_list. Qed.

Lemma cacheKeys_elem w key :
  key ∈ cacheKeys w <-> is_cache_key key = true /\ is_Some (getItem key w).
Proof.
  split.
  - intros H. split; [|now apply cacheKeys_stored].
    unfold cacheKeys in H. now apply list_elem_of_filter in H as [H _].
  - intros [Hk [stored Hget]]. now apply (cacheKeys_member w key stored).
Qed.

(** The sweep leaves the store without its stale cache entries. *)
Lemma cleanExpiredCache_store now w :
  localStorage (fst (cleanExpiredCache now w)) = swept now (localStorage w).
Proof.
  apply map_eq. intros k. unfold cleanExpiredCache.
  pose proof (fold_clean_lookup now (cacheKeys w) (cacheKeys_NoDup w) (w, 0%nat) k) as H.
  unfold getItem in H. cbn [fst] in H. rewrite H. clear H.
  apply option_eq. intros x. unfold swept. rewrite map_lookup_filter_Some.
  cbn [fst snd].
  destruct (localStorage w !! k) as [stored|] eqn:Hget; [|intuition discriminate].
  destruct (stale now stored) eqn:Hstale.
  - destruct (is_cache_key k) eqn:Hkey.
    + rewrite bool_decide_eq_true_2.
      * cbn [andb]. split; [discriminate|]. intros [Hx Hn]. inversion Hx; subst.
        exfalso. apply Hn. now split.
      * apply cacheKeys_elem. unfold getItem. rewrite Hget. eauto.
    + rewrite bool_decide_eq_false_2.
      * cbn [andb]. split; [|tauto]. intros Hx. split; [assumption|].
        intros [Hc _]. congruence.
      * rewrite cacheKeys_elem. intros [Hc _]. congruence.
  - rewrite andb_false_r. split; [|tauto]. intros Hx. split; [assumption|].
    inversion Hx; subst. intros [_ Hs]. congruence.
Qed.

Lemma cleanExpiredCache_world now w :
  fst (cleanExpiredCache now w)
  = {| patterns := patterns w; localStorage := swept now (localStorage w) |}.
Proof.
  apply world_eq; cbn [patterns localStorage].
  - unfold cleanExpiredCache.
    now destruct (fold_clean_count now (cacheKeys w) (w, 0%nat)) as [-> _].
  - apply cleanExpiredCache_store.
Qed.

(** X8. The sweep removes exactly the stale entries of the cache:
    the cache entries whose text does not parse (or parses to [null])
    and those older than the cache duration.  Every other entry of the
    store stays as it is, the keys outside the cache included, and the
    count that the sweep reports is the number of entries removed. *)
Theorem cleanExpiredCache_removes_stale now w :
  let r := cleanExpiredCache now w in
  patterns (fst r) = patterns w
  /\ localStorage (fst r) = swept now (localStorage w)
  /\ (forall k stored, getItem k w = Some stored ->
        getItem k (fst r)
        = if is_cache_key k && stale now stored then None else Some stored)
  /\ (snd r + size (localStorage (fst r)) = size (localStorage w))%nat.
Proof.
  cbn zeta. split; [|split; [|split]].
  - now rewrite cleanExpiredCache_world.
  - apply cleanExpiredCache_store.
  - intros k stored Hget. unfold getItem in *. rewrite cleanExpiredCache_store.
    unfold swept. apply option_eq. intros x. rewrite map_lookup_filter_Some, Hget.
    cbn [fst snd].
    split.
    + intros [Hx Hn]. inversion Hx; subst x.
      destruct (is_cache_key k), (stale now stored); cbn [andb]; try reflexivity.
      exfalso. now apply Hn.
    + destruct (is_cache_key k) eqn:Hc, (stale now stored) eqn:Hs; cbn [andb];
        try discriminate;
        intros Hx; inversion Hx; subst x; (split; [reflexivity|]);
        intros [? ?]; congruence.
  - unfold cleanExpiredCache.
    destruct (fold_clean_count now (cacheKeys w) (w, 0%nat)) as [_ H].
    cbn [fst snd] in H. lia.
Qed.

(** An entry is stale for good: time only adds to the stale entries. *)
Lemma isExpired_later t1 t2 ts :
  t1 <= t2 -> isExpired t1 ts = true -> isExpired t2 ts = true.
Proof.
  unfold isExpired. intros Hle.
  destruct (ToNumber ts) as [t|]; cbn; [|auto].
  intros H. apply Z.ltb_lt in H. apply Z.ltb_lt. lia.
Qed.

Lemma stale_later t1 t2 stored :
  t1 <= t2 -> stale t1 stored = true -> stale t2 stored = true.
Proof.
  unfold stale. intros Hle.
  destruct (is_empty stored); [auto|].
  destruct (JSON.parse stored) as [cacheData|]; [|auto].
  destruct (get_member (Some cacheData) "timestamp") as [ts|]; [|auto].
  now apply isExpired_later.
Qed.

Lemma swept_swept t1 t2 store :
  t1 <= t2 -> swept t2 (swept t1 store) = swept t2 store.
Proof.
  intros Hle. apply map_eq. intros k. apply option_eq. intros x.
  unfold swept. rewrite !map_lookup_filter_Some. cbn [fst snd].
  split; [tauto|]. intros [Hx Hn]. repeat split; try assumption.
  intros [Hk Hs]. apply Hn. split; [assumption|]. now apply (stale_later t1 t2).
Qed.

(** X9. Sweeping twice is sweeping once: a sweep that follows a sweep
    at the same time removes nothing and reports zero, and a sweep at
    a later time leaves the same store whether or not the earlier one
    ran. *)
Theorem cleanExpiredCache_twice t1 t2 w :
  t1 <= t2 ->
  fst (cleanExpiredCache t2 (fst (cleanExpiredCache t1 w)))
  = fst (cleanExpiredCache t2 w)
  /\ cleanExpiredCache t1 (fst (cleanExpiredCache t1 w))
     = (fst (cleanExpiredCache t1 w), 0%nat).
Proof.
  intros Hle.
  assert (Hsame : forall t t', t <= t' ->
            fst (cleanExpiredCache t' (fst (cleanExpiredCache t w)))
            = fst (cleanExpiredCache t' w)).
  { intros t t' H. rewrite !cleanExpiredCache_world. cbn [patterns localStorage].
    now rewrite swept_swept. }
  split; [now apply Hsame|].
  assert (Hfix : fst (cleanExpiredCache t1 (fst (cleanExpiredCache t1 w)))
                 = fst (cleanExpiredCache t1 w)).
  { rewrite Hsame by lia. reflexivity. }
  destruct (cleanExpiredCache t1 (fst (cleanExpiredCache t1 w))) as [w' n] eqn:Hr.
  cbn [fst] in Hfix. subst w'. f_equal.
  unfold cleanExpiredCache in Hr at 1.
  destruct (fold_clean_count t1 (cacheKeys (fst (cleanExpiredCache t1 w)))
              (fst (cleanExpiredCache t1 w), 0%nat)) as [_ H].
  rewrite Hr in H. cbn [fst snd] in H. lia.
Qed.

Lemma cleanExpiredCache_twice_witness :
  fst (cleanExpiredCache 5 (fst (cleanExpiredCache 3 (fresh_page mixed_store))))
  = fst (cleanExpiredCache 5 (fresh_page mixed_store))
  /\ cleanExpiredCache 3 (fst (cleanExpiredCache 3 (fresh_page mixed_store)))
     = (fst (cleanExpiredCache 3 (fresh_page mixed_store)), 0%nat).
Proof. apply (cleanExpiredCache_twice 3 5). lia. Defined.

(** X10. An entry whose object carries no timestamp never expires:
    whatever the time, a read returns its data and leaves the store
    alone, and a sweep keeps it. *)
Theorem entry_without_timestamp_stays key stored m now w :
  getItem (cache_key key) w = Some stored ->
  JSON.parse stored = Return (JObj m) ->
  lookup_member "timestamp" m = None ->
  getCachedData key now w = (lookup_member "data" m, w)
  /\ getItem (cache_key key) (fst (cleanExpiredCache now w)) = Some stored.
Proof.
  intros Hget Hparse Hts.
  pose proof (parse_not_empty _ _ Hparse) as Hne. split.
  - unfold getCachedData, read_cached. rewrite Hget, Hne, Hparse.
    cbn [get_member member]. now rewrite Hts.
  - unfold getItem in *. rewrite cleanExpiredCache_store. unfold swept.
    apply map_lookup_filter_Some. split; [assumption|]. cbn [fst snd].
    intros [_ Hs]. unfold stale in Hs. rewrite Hne, Hparse in Hs.
    cbn [get_member member] in Hs. rewrite Hts in Hs. discriminate.
Qed.

Lemma entry_without_timestamp_stays_witness :
  getCachedData "note" 1900000000000
    (fresh_page {[ "cache-note"%string
                   := JSON.stringify (JObj [("data"%string, JNum 7)]) 0 ]})
  = (Some (JNum 7),
     fresh_page {[ "cache-note"%string
                   := JSON.stringify (JObj [("data"%string, JNum 7)]) 0 ]})
  /\ getItem (cache_key "note")
       (fst (cleanExpiredCache 1900000000000
               (fresh_page {[ "cache-note"%string
                              := JSON.stringify (JObj [("data"%string, JNum 7)]) 0 ]})))
     = Some (JSON.stringify (JObj [("data"%string, JNum 7)]) 0).
Proof.
  apply (entry_without_timestamp_stays "note"
           (JSON.stringify (JObj [("data"%string, JNum 7)]) 0)
           [("data"%string, JNum 7)]); reflexivity.
Defined.

(** *** The statistics of the cache *)

Lemma stats_entry_le w state key : snd (stats_entry w state key) <= snd state.
Proof.
  destruct state as [size oldest]. unfold stats_entry. cbn [snd].
  destruct (getItem key w) as [stored|]; [|cbn [snd]; lia].
  destruct (is_empty stored); [cbn [snd]; lia|].
  destruct (JSON.parse stored) as [parsed|]; [|cbn [snd]; lia].
  destruct (get_member (Some parsed) "timestamp") as [ts|]; [|cbn [snd]; lia].
  destruct (ToNumber ts) as [t|]; [|cbn [snd]; lia].
  destruct (Z.ltb_spec t oldest); cbn [snd]; lia.
Qed.

Lemma stats_entry_ge now w state key :
  (forall stored, getItem key w = Some stored -> stale now stored = false) ->
  now - CACHE_DURATION <= snd state ->
  now - CACHE_DURATION <= snd (stats_entry w state key).
Proof.
  intros Hfresh Hlo. destruct state as [size oldest]. unfold stats_entry.
  cbn [snd] in *.
  destruct (getItem key w) as [stored|]; [|cbn [snd]; lia].
  specialize (Hfresh stored eq_refl). unfold stale in Hfresh.
  destruct (is_empty stored); [cbn [snd]; lia|].
  destruct (JSON.parse stored) as [parsed|]; [|discriminate].
  destruct (get_member (Some parsed) "timestamp") as [ts|]; [|discriminate].
  unfold isExpired in Hfresh.
  destruct (ToNumber ts) as [t|]; [|cbn [snd]; lia].
  cbn in Hfresh. apply Z.ltb_ge in Hfresh.
  destruct (Z.ltb_spec t oldest); cbn [snd]; lia.
Qed.

Lemma fold_stats_bounds now w keys :
  forall state,
    snd (fold_left (stats_entry w) keys state) <= snd state
    /\ ((forall key stored, key ∈ keys -> getItem key w = Some stored ->
           stale now stored = false) ->
        now - CACHE_DURATION <= snd state ->
        now - CACHE_DURATION <= snd (fold_left (stats_entry w) keys state)).
Proof.
  induction keys as [|key keys IH]; intros state; cbn [fold_left].
  - split; [lia|auto].
  - destruct (IH (stats_entry w state key)) as [Hle Hge].
    pose proof (stats_entry_le w state key). split; [lia|].
    intros Hfresh Hlo. apply Hge.
    + intros k stored Hk. apply Hfresh. now apply elem_of_cons; right.
    + apply (stats_entry_ge now); [|assumption].
      intros stored. apply Hfresh. now apply elem_of_cons; left.
Qed.

(** The cache keys of the store and the count of a sweep. *)
Lemma cacheKeys_remove w key stored :
  getItem key w = Some stored -> is_cache_key key = true ->
  List.length (cacheKeys w) = S (List.length (cacheKeys (removeItem key w))).
Proof.
  intros Hget Hkey.
  now rewrite (cacheKeys_with_entry w key stored Hget Hkey).
Qed.

Lemma clean_entry_items now state key :
  is_cache_key key = true ->
  (snd (clean_entry now state key)
   + List.length (cacheKeys (fst (clean_entry now state key)))
   = snd state + List.length (cacheKeys (fst state)))%nat.
Proof.
  intros Hkey. destruct state as [w n]. unfold clean_entry. cbn [fst snd].
  destruct (getItem key w) as [stored|] eqn:Hget; [|reflexivity].
  pose proof (cacheKeys_remove w key stored Hget Hkey) as Hlen.
  destruct (is_empty stored); [reflexivity|].
  destruct (JSON.parse stored) as [parsed|]; [|cbn [fst snd]; lia].
  destruct (get_member (Some parsed) "timestamp") as [ts|]; [|cbn [fst snd]; lia].
  destruct (isExpired now ts); cbn [fst snd]; lia.
Qed.

Lemma fold_clean_items now keys :
  Forall (fun key => is_cache_key key = true) keys ->
  forall state,
    (snd (fold_left (clean_entry now) keys state)
     + List.length (cacheKeys (fst (fold_left (clean_entry now) keys state)))
     = snd state + List.length (cacheKeys (fst state)))%nat.
Proof.
  induction 1 as [|key keys Hkey _ IH]; intros state; cbn [fold_left];
    [reflexivity|].
  rewrite IH. now apply clean_entry_items.
Qed.

(** Where the oldest timestamp of the statistics comes from: it is the
    one the rounds started with, or the number that the timestamp of
    one of the entries converts to. *)
Lemma stats_entry_source w state key :
  snd (stats_entry w state key) = snd state
  \/ exists stored parsed timestamp,
       getItem key w = Some stored
       /\ JSON.parse stored = Return parsed
       /\ member parsed "timestamp" = timestamp
       /\ ToNumber timestamp = Some (snd (stats_entry w state key)).
Proof.
  destruct state as [size oldest]. unfold stats_entry. cbn [snd].
  destruct (getItem key w) as [stored|] eqn:Hget; [|now left].
  destruct (is_empty stored); [now left|].
  destruct (JSON.parse stored) as [parsed|] eqn:Hparse; [|now left].
  destruct (get_member (Some parsed) "timestamp") as [ts|] eqn:Hts; [|now left].
  destruct (ToNumber ts) as [t|] eqn:Ht; [|now left].
  destruct (t <? oldest); [|now left].
  right. exists stored, parsed, ts. cbn [snd].
  split; [reflexivity|]. split; [exact Hparse|]. split; [|exact Ht].
  destruct parsed; try discriminate Hts; now inversion Hts.
Qed.

Lemma fold_stats_source w keys :
  forall state,
    snd (fold_left (stats_entry w) keys state) = snd state
    \/ exists key stored parsed timestamp,
         key ∈ keys
         /\ getItem key w = Some stored
         /\ JSON.parse stored = Return parsed
         /\ member parsed "timestamp" = timestamp
         /\ ToNumber timestamp = Some (snd (fold_left (stats_entry w) keys state)).
Proof.
  induction keys as [|key keys IH]; intros state; cbn [fold_left]; [now left|].
  destruct (IH (stats_entry w state key))
    as [Hsame|(k & stored & parsed & ts & Hk & H)].
  - rewrite Hsame.
    destruct (stats_entry_source w state key) as [Hs|(stored & parsed & ts & H)].
    + now left.
    + right. exists key, stored, parsed, ts. split; [|exact H].
      apply elem_of_cons. now left.
  - right. exists k, stored, parsed, ts. split; [|exact H].
    apply elem_of_cons. now right.
Qed.

(** X11. The statistics and the sweep agree on a cache whose entries
    carry numbers as timestamps, as [cacheData] writes them.  The
    oldest timestamp that [getCacheStats] reports is the time of the
    call or the timestamp of an entry of the cache, and it is never
    later than the time of the call; right after a sweep it is also no
    older than the cache duration, and the number of items has dropped
    by the count that the sweep reported. *)
Theorem getCacheStats_after_sweep now w :
  numeric_timestamps w ->
  let swept_world := fst (cleanExpiredCache now w) in
  (forall t, oldestItem (getCacheStats now w) = Some t ->
     t <= now /\ (t = now \/ timestamp_of_entry w t))
  /\ (forall t, oldestItem (getCacheStats now swept_world) = Some t ->
        now - CACHE_DURATION <= t <= now)
  /\ (snd (cleanExpiredCache now w) + totalItems (getCacheStats now swept_world)
      = totalItems (getCacheStats now w))%nat.
Proof.
  intros Hnumeric. cbn zeta.
  assert (Hupper : forall w' t, oldestItem (getCacheStats now w') = Some t -> t <= now).
  { intros w' t. unfold getCacheStats.
    destruct (fold_stats_bounds now w' (cacheKeys w') (0%nat, now)) as [Hle _].
    destruct (fold_left (stats_entry w') (cacheKeys w') (0%nat, now)) as [size old].
    cbn [oldestItem snd] in *. destruct (cacheKeys w'); [discriminate|].
    intros [= <-]. exact Hle. }
  split; [|split].
  - intros t Ht. split; [exact (Hupper _ t Ht)|].
    revert Ht. unfold getCacheStats.
    destruct (fold_stats_source w (cacheKeys w) (0%nat, now))
      as [Hsame|(key & stored & parsed & ts & Hk & Hget & Hparse & Hts & Hnum)].
    + destruct (fold_left (stats_entry w) (cacheKeys w) (0%nat, now)) as [size old].
      cbn [oldestItem snd] in *. destruct (cacheKeys w); [discriminate|].
      intros [= <-]. now left.
    + destruct (fold_left (stats_entry w) (cacheKeys w) (0%nat, now)) as [size old].
      cbn [oldestItem snd] in *. destruct (cacheKeys w) eqn:Hkeys; [discriminate|].
      intros [= <-]. right. rewrite <- Hkeys in Hk.
      apply cacheKeys_elem in Hk as [Hck _].
      destruct ts as [j|]; [|discriminate Hnum].
      destruct (Hnumeric key stored parsed j Hck Hget Hparse Hts) as [t' ->].
      cbn [ToNumber] in Hnum. injection Hnum as ->.
      exists key, stored, parsed. auto.
  - intros t Ht. split; [|exact (Hupper _ t Ht)].
    revert Ht. unfold getCacheStats.
    set (w' := fst (cleanExpiredCache now w)).
    destruct (fold_stats_bounds now w' (cacheKeys w') (0%nat, now)) as [_ Hge].
    destruct (fold_left (stats_entry w') (cacheKeys w') (0%nat, now)) as [size old].
    cbn [oldestItem snd] in *. destruct (cacheKeys w') eqn:Hkeys; [discriminate|].
    intros [= <-]. apply Hge; [|unfold CACHE_DURATION; lia].
    intros key stored Hk Hget. subst w'. unfold getItem in Hget.
    rewrite cleanExpiredCache_store in Hget. unfold swept in Hget.
    apply map_lookup_filter_Some in Hget as [Hget Hn]. cbn [fst snd] in Hn.
    rewrite <- Hkeys in Hk. apply cacheKeys_elem in Hk as [Hck _].
    destruct (stale now stored); [|reflexivity]. exfalso. now apply Hn.
  - rewrite !totalItems_length. unfold cleanExpiredCache.
    pose proof (fold_clean_items now (cacheKeys w)) as H.
    rewrite H; [reflexivity|].
    apply Forall_forall. intros key Hin.
    now apply cacheKeys_elem in Hin as [Hck _].
Qed.

Lemma getCacheStats_after_sweep_witness :
  let w := cacheData "worker-code" (Some (JStr "code")) 500 (fresh_page ∅) in
  let swept_world := fst (cleanExpiredCache 1000 w) in
  (forall t, oldestItem (getCacheStats 1000 w) = Some t ->
     t <= 1000 /\ (t = 1000 \/ timestamp_of_entry w t))
  /\ (forall t, oldestItem (getCacheStats 1000 swept_world) = Some t ->
        1000 - CACHE_DURATION <= t <= 1000)
  /\ (snd (cleanExpiredCache 1000 w) + totalItems (getCacheStats 1000 swept_world)
      = totalItems (getCacheStats 1000 w))%nat.
Proof.
  apply (getCacheStats_after_sweep 1000
           (cacheData "worker-code" (Some (JStr "code")) 500 (fresh_page ∅))).
  intros key stored parsed timestamp _ Hget Hparse Hts.
  unfold getItem, cacheData, setItem in Hget. cbn [localStorage fresh_page] in Hget.
  apply lookup_insert_Some in Hget as [[_ <-]|[_ Hget]];
    [|rewrite lookup_empty in Hget; discriminate].
  rewrite JSON_parse_stringify in Hparse by reflexivity.
  injection Hparse as <-. cbn in Hts. injection Hts as <-. now exists 500.
Defined.

(** *** The offline manager on the page *)

Lemma lookup_enabled_after_set enabled p :
  lookup_member "enabled" (offlineConfig (setOfflineMode enabled p))
  = Some (JBool enabled).
Proof.
  unfold setOfflineMode.
  destruct enabled;
    cbn [toast set_offlineConfig saveOfflineConfig set_world offlineConfig];
    now rewrite lookup_obj_set.
Qed.

Lemma onLine_after_set enabled p : onLine (setOfflineMode enabled p) = onLine p.
Proof. unfold setOfflineMode. now destruct enabled. Qed.

Lemma offline_after_set enabled p :
  offline (setOfflineMode enabled p) = enabled || negb (onLine p).
Proof.
  unfold offline, isOfflineMode.
  rewrite lookup_enabled_after_set, onLine_after_set. now destruct enabled.
Qed.

(** X12. The connection events decide the mode: once the browser
    reports the connection lost the manager is in offline mode, and
    once it reports the connection back the manager is out of it and
    its [enabled] flag is off, also when offline mode had been switched
    on by hand before. *)
Theorem connection_events_set_mode p :
  offline (goes_offline p) = true
  /\ offline (goes_online p) = false
  /\ truthy (lookup_member "enabled" (offlineConfig (goes_online p))) = false
  /\ offline (goes_online (enableOfflineMode p)) = false.
Proof.
  assert (Honline : forall q,
            offline (goes_online q) = false
            /\ truthy (lookup_member "enabled" (offlineConfig (goes_online q))) = false).
  { intros q. unfold goes_online, online_listener.
    cbn [set_onLine offlineConfig].
    destruct (truthy (lookup_member "enabled" (offlineConfig q))) eqn:Hen.
    - rewrite offline_after_set, lookup_enabled_after_set. now split.
    - split; [|exact Hen]. unfold offline, isOfflineMode.
      cbn [set_onLine offlineConfig onLine negb].
      destruct (lookup_member "enabled" (offlineConfig q)); [|reflexivity].
      now rewrite Hen. }
  split; [|split; [apply Honline|split; apply Honline]].
  unfold goes_offline, offline_listener. now rewrite offline_after_set.
Qed.

(** X13. What the constructor of the manager makes of the stored
    settings: the members of a stored object take the place of the
    defaults, and a text that does not parse is passed over, the
    manager starting from the defaults with the store as it was. *)
Theorem new_OfflineManager_reads_settings p stored :
  getItem STORAGE_KEY (world p) = Some stored ->
  (forall m, JSON.parse stored = Return (JObj m) -> NoDup (map fst m) ->
     forall k, lookup_member k (offlineConfig (new_OfflineManager p))
               = match lookup_member k m with
                 | Some v => Some v
                 | None => lookup_member k default_offlineConfig
                 end)
  /\ (forall e, JSON.parse stored = Throw e ->
        new_OfflineManager p = set_offlineConfig default_offlineConfig p
        /\ offline (new_OfflineManager p) = negb (onLine p)).
Proof.
  intros Hget. unfold new_OfflineManager, loadOfflineConfig.
  cbn [world set_offlineConfig]. rewrite Hget. split.
  - intros m Hparse Hnd k. rewrite (parse_not_empty _ _ Hparse), Hparse.
    cbn [offlineConfig set_offlineConfig]. now apply lookup_spread.
  - intros e Hparse. rewrite Hparse.
    destruct (is_empty stored); now split.
Qed.

Lemma new_OfflineManager_reads_settings_witness :
  (forall m, JSON.parse "{oops" = Return (JObj m) -> NoDup (map fst m) ->
     forall k,
       lookup_member k
         (offlineConfig
            (new_OfflineManager
               (loaded_page {[ STORAGE_KEY := "{oops"%string ]} true)))
       = match lookup_member k m with
         | Some v => Some v
         | None => lookup_member k default_offlineConfig
         end)
  /\ (forall e, JSON.parse "{oops" = Throw e ->
        new_OfflineManager (loaded_page {[ STORAGE_KEY := "{oops"%string ]} true)
        = set_offlineConfig default_offlineConfig
            (loaded_page {[ STORAGE_KEY := "{oops"%string ]} true)
        /\ offline (new_OfflineManager
                      (loaded_page {[ STORAGE_KEY := "{oops"%string ]} true))
           = negb (onLine (loaded_page {[ STORAGE_KEY := "{oops"%string ]} true))).
Proof.
  apply (new_OfflineManager_reads_settings
           (loaded_page {[ STORAGE_KEY := "{oops"%string ]} true) "{oops").
  reflexivity.
Defined.

(** *** The mock calls *)

Lemma page_getCachedData_fresh key v t0 t1 w q :
  world q = cacheData key v t0 w -> value_wf v = true ->
  t1 - t0 <= CACHE_DURATION ->
  page_getCachedData key t1 q = (v, q).
Proof.
  intros Hw Hwf Hfresh. unfold page_getCachedData.
  rewrite Hw, getCachedData_after_cacheData by assumption.
  destruct (Z.ltb_spec CACHE_DURATION (t1 - t0)); [lia|].
  rewrite <- Hw. now rewrite set_world_same.
Qed.

Lemma getMockWorkerCode_cached code t0 t1 w q :
  world q = cacheData "worker-code" (Some (JStr code)) t0 w ->
  is_empty code = false -> t1 - t0 <= CACHE_DURATION ->
  getMockWorkerCode t1 q = (Return (JStr code), q).
Proof.
  intros Hw Hne Hfresh. unfold getMockWorkerCode.
  rewrite (page_getCachedData_fresh _ _ t0 t1 w q Hw eq_refl Hfresh).
  cbn [truthy]. now rewrite Hne.
Qed.

(** X14. The code that [mockUpdateWorkerCode] takes is what the mock
    calls hand out afterwards, for as long as the cache keeps it:
    [mockFetchWorkerCode] resolves to it and [getMockWorkerData] wraps
    it, in offline mode or not.  The update itself answers [false] in
    offline mode although it has stored the code. *)
Theorem mock_update_then_fetch code t0 t1 p :
  is_empty code = false -> t1 - t0 <= CACHE_DURATION ->
  let r := mockUpdateWorkerCode code t0 p in
  fst r = negb (offline p)
  /\ getItem (cache_key "worker-code") (world (snd r))
     = Some (JSON.stringify (cache_record (Some (JStr code)) t0) 0)
  /\ fst (mockFetchWorkerCode t1 (snd r)) = Return (JStr code)
  /\ fst (getMockWorkerData t1 (snd r))
     = Return (JObj [ ("code"%string, JStr code); ("status"%string, JStr "running");
                      ("lastUpdated"%string, JNum t1) ]).
Proof.
  intros Hne Hfresh r.
  assert (Hw : world (snd r) = cacheData "worker-code" (Some (JStr code)) t0 (world p)).
  { subst r. unfold mockUpdateWorkerCode. now destruct (offline p). }
  split; [subst r; unfold mockUpdateWorkerCode; now destruct (offline p)|].
  split; [rewrite Hw; unfold getItem, cacheData, setItem; cbn [localStorage];
          apply lookup_insert_eq|].
  split.
  - unfold mockFetchWorkerCode. destruct (offline (snd r)).
    + now rewrite (getMockWorkerCode_cached code t0 t1 (world p)).
    + now rewrite (getMockWorkerCode_cached code t0 t1 (world p)).
  - unfold getMockWorkerData.
    now rewrite (getMockWorkerCode_cached code t0 t1 (world p)).
Qed.

Lemma mock_update_then_fetch_witness :
  let r := mockUpdateWorkerCode "export default {}" 1000 (loaded_page ∅ false) in
  fst r = negb (offline (loaded_page ∅ false))
  /\ getItem (cache_key "worker-code") (world (snd r))
     = Some (JSON.stringify (cache_record (Some (JStr "export default {}")) 1000) 0)
  /\ fst (mockFetchWorkerCode 2000 (snd r)) = Return (JStr "export default {}")
  /\ fst (getMockWorkerData 2000 (snd r))
     = Return (JObj [ ("code"%string, JStr "export default {}");
                      ("status"%string, JStr "running");
                      ("lastUpdated"%string, JNum 2000) ]).
Proof.
  apply (mock_update_then_fetch "export default {}" 1000 2000 (loaded_page ∅ false));
    [reflexivity|vm_compute; discriminate].
Defined.

(** X15. The mock version information is the cached one only while
    the cache keeps it and it is truthy; in every other case it is the
    built-in default. *)
Theorem getMockVersionInfo_cached_or_default info t0 t1 p :
  json_wf info = true ->
  fst (getMockVersionInfo t1 (page_cacheData "version-info" (Some info) t0 p))
  = if (t1 - t0 <=? CACHE_DURATION) && truthy (Some info)
    then info else default_version_info.
Proof.
  intros Hwf. unfold getMockVersionInfo, page_getCachedData, page_cacheData.
  cbn [world set_world].
  rewrite getCachedData_after_cacheData by assumption.
  destruct (Z.ltb_spec CACHE_DURATION (t1 - t0)),
           (Z.leb_spec (t1 - t0) CACHE_DURATION); try lia; cbn [andb].
  - reflexivity.
  - destruct (truthy (Some info)); reflexivity.
Qed.

Lemma getMockVersionInfo_cached_or_default_witness :
  fst (getMockVersionInfo 2000
         (page_cacheData "version-info" (Some (JNum 0)) 1000 (loaded_page ∅ true)))
  = if (2000 - 1000 <=? CACHE_DURATION) && truthy (Some (JNum 0))
    then JNum 0 else default_version_info.
Proof.
  apply (getMockVersionInfo_cached_or_default (JNum 0) 1000 2000 (loaded_page ∅ true)).
  reflexivity.
Defined.

(** X16. A cached version information without a change-log array
    breaks the mock worker code: with no cached code to fall back on,
    [getMockWorkerCode] throws a [TypeError] for as long as the cache
    keeps that value. *)
Theorem getMockWorkerCode_needs_changelog info t0 t1 p :
  json_wf info = true -> truthy (Some info) = true ->
  (forall items, member info "changelog" <> Some (JArr items)) ->
  t1 - t0 <= CACHE_DURATION ->
  getItem (cache_key "worker-code") (world p) = None ->
  fst (getMockWorkerCode t1 (page_cacheData "version-info" (Some info) t0 p))
  = Throw TypeError.
Proof.
  intros Hwf Htruthy Hlog Hfresh Hnone.
  set (q := page_cacheData "version-info" (Some info) t0 p).
  assert (Hq : world q = cacheData "version-info" (Some info) t0 (world p))
    by reflexivity.
  assert (Hcode : page_getCachedData "worker-code" t1 q = (null, q)).
  { unfold page_getCachedData, getCachedData. rewrite Hq.
    assert (Hget : getItem (cache_key "worker-code")
                     (cacheData "version-info" (Some info) t0 (world p)) = None).
    { unfold getItem, cacheData, setItem in *. cbn [localStorage].
      rewrite lookup_insert_ne; [assumption|discriminate]. }
    rewrite Hget, <- Hq. now rewrite set_world_same. }
  unfold getMockWorkerCode. rewrite Hcode. cbn [null truthy].
  unfold getMockVersionInfo.
  rewrite (page_getCachedData_fresh _ _ t0 t1 (world p) q Hq Hwf Hfresh), Htruthy.
  cbn [fst]. unfold worker_code_template.
  destruct (member info "changelog") as [[| | | |items|]|] eqn:Hm; try reflexivity.
  now destruct (Hlog items).
Qed.

Lemma getMockWorkerCode_needs_changelog_witness :
  fst (getMockWorkerCode 2000
         (page_cacheData "version-info"
            (Some (JObj [("version"%string, JStr "2.0.0")])) 1000
            (loaded_page ∅ true)))
  = Throw TypeError.
Proof.
  apply (getMockWorkerCode_needs_changelog
           (JObj [("version"%string, JStr "2.0.0")]) 1000 2000 (loaded_page ∅ true));
    try reflexivity; [discriminate|vm_compute; discriminate].
Defined.

(** *** The error handler on the page *)

Lemma declared_world w :
  declared w -> exists lastIndexes, w = browser lastIndexes (localStorage w).
Proof.
  intros [li H]. exists li. now apply world_eq.
Qed.

Lemma analyzeError_on_page error context w :
  declared w -> analyzeError error context w = (classify error context, w).
Proof.
  intros H. destruct (declared_world w H) as [li Hw].
  rewrite Hw at 1. rewrite analyzeError_classify. now rewrite <- Hw.
Qed.

Lemma classify_severity error context : severity (classify error context) <> low.
Proof.
  unfold classify.
  repeat match goal with
         | |- context [tested ?n ?s] => destruct (tested n s)
         end; discriminate.
Qed.

Lemma classify_details error context :
  details (classify error context) = extractErrorMessage error.
Proof.
  unfold classify.
  repeat match goal with
         | |- context [tested ?n ?s] => destruct (tested n s)
         end; reflexivity.
Qed.

(** The handling under the default options, step by step. *)
Lemma handleError_default_steps error context p :
  declared (world p) ->
  handleError error context None p
  = (classify error context,
     if flag_set (shouldEnableOfflineMode (classify error context))
     then setOfflineMode true (showErrorToast (classify error context) p)
     else showErrorToast (classify error context) p).
Proof.
  intros Hdecl. unfold handleError.
  rewrite (analyzeError_on_page error context (world p) Hdecl), set_world_same.
  cbn [fst snd spread own_entries fold_left default_options lookup_member
       String.eqb Ascii.eqb Bool.eqb truthy andb].
  now destruct (flag_set (shouldEnableOfflineMode (classify error context))).
Qed.

Lemma offline_after_toast errorInfo p : offline (showErrorToast errorInfo p) = offline p.
Proof. unfold showErrorToast. now destruct (severity errorInfo). Qed.

Lemma handleError_default_mode error context p :
  declared (world p) ->
  offline (snd (handleError error context None p))
  = flag_set (shouldEnableOfflineMode (classify error context)) || offline p.
Proof.
  intros Hdecl. rewrite (handleError_default_steps error context p Hdecl). cbn [snd].
  destruct (flag_set (shouldEnableOfflineMode (classify error context))); cbn [orb].
  - now rewrite offline_after_set.
  - apply offline_after_toast.
Qed.

(** X17. With its default options [handleError] resolves to the
    diagnosis of [analyzeError], shows it in one notification that is
    an error or a warning and carries the extracted message, sets no
    timer, and leaves the page in offline mode exactly when the
    diagnosis asks for it or the page was in it already; the notice of
    the offline mode follows in that case only. *)
Theorem handleError_by_default error context p :
  declared (world p) ->
  let info := fst (analyzeError error context (world p)) in
  let p' := snd (handleError error context None p) in
  fst (handleError error context None p) = info
  /\ timers p' = timers p
  /\ offline p' = flag_set (shouldEnableOfflineMode info) || offline p
  /\ exists shown,
       toasts p'
       = toasts p ++ shown ::
           (if flag_set (shouldEnableOfflineMode info) then [offline_notice] else [])
       /\ (toast_kind shown = toast_error \/ toast_kind shown = toast_warning)
       /\ toast_description shown = Some (extractErrorMessage error).
Proof.
  intros Hdecl. cbn zeta.
  rewrite (handleError_default_mode error context p Hdecl).
  rewrite (handleError_default_steps error context p Hdecl).
  rewrite (analyzeError_on_page error context (world p) Hdecl).
  cbn [fst snd].
  pose proof (classify_severity error context) as Hsev.
  pose proof (classify_details error context) as Hdet.
  set (info := classify error context) in *.
  assert (Hshow : exists shown,
            showErrorToast info p
            = toast (toast_kind shown) (toast_text shown) (toast_description shown)
                    (toast_duration shown) p
            /\ (toast_kind shown = toast_error \/ toast_kind shown = toast_warning)
            /\ toast_description shown = Some (extractErrorMessage error)).
  { unfold showErrorToast. rewrite Hdet.
    destruct (severity info); [congruence| | |];
      eexists {| toast_kind := _ |}; cbn [toast_kind toast_text toast_description
                                          toast_duration];
      (split; [reflexivity|split; [auto|reflexivity]]). }
  destruct Hshow as (shown & Hshow & Hkind & Hdesc). rewrite Hshow.
  split; [reflexivity|].
  destruct (flag_set (shouldEnableOfflineMode info)); cbn [orb].
  - split; [reflexivity|]. split; [reflexivity|].
    exists shown. split; [|now split].
    unfold setOfflineMode, offline_notice.
    cbn [toast toasts saveOfflineConfig set_world set_offlineConfig].
    rewrite <- app_assoc. destruct shown. reflexivity.
  - split; [reflexivity|]. split; [reflexivity|].
    exists shown. split; [|now split]. cbn [toast toasts]. now destruct shown.
Qed.

Lemma handleError_by_default_witness :
  let p := loaded_page ∅ true in
  let info := fst (analyzeError (error_with_message "Request timed out") None (world p)) in
  let p' := snd (handleError (error_with_message "Request timed out") None None p) in
  fst (handleError (error_with_message "Request timed out") None None p) = info
  /\ timers p' = timers p
  /\ offline p' = flag_set (shouldEnableOfflineMode info) || offline p
  /\ exists shown,
       toasts p'
       = toasts p ++ shown ::
           (if flag_set (shouldEnableOfflineMode info) then [offline_notice] else [])
       /\ (toast_kind shown = toast_error \/ toast_kind shown = toast_warning)
       /\ toast_description shown
          = Some (extractErrorMessage (error_with_message "Request timed out")).
Proof.
  apply (handleError_by_default (error_with_message "Request timed out") None
           (loaded_page ∅ true)).
  exists (fun _ => 0%nat). reflexivity.
Defined.

(** X18. Offline mode switched on by the handler outlives the page:
    when the diagnosis asks for offline mode, the default handling
    saves the setting, and the manager of a page loaded afterwards
    starts with [enabled] on. *)
Theorem handleError_offline_survives_reload error context p :
  declared (world p) ->
  json_wf (JObj (offlineConfig p)) = true ->
  shouldEnableOfflineMode (fst (analyzeError error context (world p))) = Some true ->
  let p' := snd (handleError error context None p) in
  lookup_member "enabled" (offlineConfig (new_OfflineManager p')) = Some (JBool true)
  /\ offline (new_OfflineManager p') = true.
Proof.
  intros Hdecl Hwf Hflag. cbn zeta.
  rewrite (analyzeError_on_page error context (world p) Hdecl) in Hflag.
  cbn [fst] in Hflag.
  rewrite (handleError_default_steps error context p Hdecl), Hflag.
  cbn [snd flag_set].
  set (q := showErrorToast (classify error context) p).
  assert (Hq : offlineConfig q = offlineConfig p).
  { subst q. unfold showErrorToast. now destruct (severity (classify error context)). }
  assert (Hen : lookup_member "enabled"
                  (offlineConfig (new_OfflineManager (setOfflineMode true q)))
                = Some (JBool true)).
  { unfold setOfflineMode, new_OfflineManager, loadOfflineConfig, saveOfflineConfig,
      getItem, setItem.
    cbn [toast world set_world set_offlineConfig offlineConfig localStorage].
    rewrite lookup_insert_eq, stringify_not_empty.
    rewrite JSON_parse_stringify by (rewrite Hq; now apply obj_set_wf).
    cbn [offlineConfig set_offlineConfig].
    rewrite lookup_spread
      by (rewrite Hq; apply obj_set_NoDup; now apply json_wf_members).
    now rewrite lookup_obj_set. }
  split; [exact Hen|]. unfold offline, isOfflineMode. now rewrite Hen.
Qed.

Lemma handleError_offline_survives_reload_witness :
  let p' := snd (handleError (error_with_message "Failed to fetch") None None
                   (loaded_page ∅ true)) in
  lookup_member "enabled" (offlineConfig (new_OfflineManager p')) = Some (JBool true)
  /\ offline (new_OfflineManager p') = true.
Proof.
  apply (handleError_offline_survives_reload (error_with_message "Failed to fetch")
           None (loaded_page ∅ true)).
  - exists (fun _ => 0%nat). reflexivity.
  - reflexivity.
  - vm_compute. reflexivity.
Defined.

(** X19. With the notification and the automatic offline mode
    switched off in its options, and no diagnostics asked for,
    [handleError] only diagnoses: the page is left exactly as it was. *)
Theorem handleError_silenced error context m p :
  declared (world p) -> NoDup (map fst m) ->
  lookup_member "showToast" m = Some (JBool false) ->
  lookup_member "enableAutoOffline" m = Some (JBool false) ->
  truthy (lookup_member "runDiagnostics" m) = false ->
  handleError error context (Some (JObj m)) p
  = (fst (analyzeError error context (world p)), p).
Proof.
  intros Hdecl Hnd Hshow Hauto Hdiag. unfold handleError.
  rewrite (analyzeError_on_page error context (world p) Hdecl), set_world_same.
  rewrite !lookup_spread by assumption. rewrite Hshow, Hauto.
  cbn [truthy andb fst].
  destruct (lookup_member "runDiagnostics" m) as [v|] eqn:Hv.
  - rewrite Hdiag. reflexivity.
  - reflexivity.
Qed.

Lemma handleError_silenced_witness :
  handleError (error_with_message "Failed to fetch") None (Some (JObj quiet_options))
              (loaded_page ∅ true)
  = (fst (analyzeError (error_with_message "Failed to fetch") None
            (world (loaded_page ∅ true))),
     loaded_page ∅ true).
Proof.
  apply (handleError_silenced (error_with_message "Failed to fetch") None
           quiet_options (loaded_page ∅ true)); try reflexivity.
  - exists (fun _ => 0%nat). reflexivity.
  - apply (bool_decide_unpack (NoDup (map fst quiet_options))). vm_compute. exact I.
Defined.

(** X20. The handler and its suggestions agree on offline mode: on a
    page that is not in offline mode, handling an error with the
    default options ends in offline mode exactly when the suggestions
    for its diagnosis offer to switch it on; and there are never more
    than two suggestions. *)
Theorem suggestions_match_handling error context p :
  declared (world p) -> offline p = false ->
  let r := handleError error context None p in
  offline (snd r) = existsb offers_offline (generateDiagnosticSuggestions (fst r))
  /\ (List.length (generateDiagnosticSuggestions (fst r)) <= 2)%nat.
Proof.
  intros Hdecl Hoff. cbn zeta.
  rewrite (handleError_default_mode error context p Hdecl), Hoff, orb_false_r.
  rewrite (handleError_default_steps error context p Hdecl). cbn [fst].
  unfold generateDiagnosticSuggestions.
  destruct (type (classify error context)),
           (flag_set (shouldEnableOfflineMode (classify error context)));
    cbn; split; (reflexivity || lia).
Qed.

Lemma suggestions_match_handling_witness :
  let r := handleError (error_with_message "Failed to fetch") None None
             (loaded_page ∅ true) in
  offline (snd r) = existsb offers_offline (generateDiagnosticSuggestions (fst r))
  /\ (List.length (generateDiagnosticSuggestions (fst r)) <= 2)%nat.
Proof.
  apply (suggestions_match_handling (error_with_message "Failed to fetch") None
           (loaded_page ∅ true)).
  - exists (fun _ => 0%nat). reflexivity.
  - reflexivity.
Defined.

(** *** Configuration files: validation, storage, clipboard, batches *)

Lemma field_errors_none cfg field :
  field_errors cfg field = [] -> is_string_type (member cfg field) = true.
Proof.
  unfold field_errors.
  destruct (has_member field cfg); cbn [negb]; [|discriminate].
  now destruct (is_string_type (member cfg field)).
Qed.

Lemma no_field_errors cfg fields :
  flat_map (field_errors cfg) fields = [] ->
  forallb (fun field => is_string_type (member cfg field)) fields = true.
Proof.
  induction fields as [|field fields IH]; cbn [flat_map forallb]; [reflexivity|].
  intros H. apply app_eq_nil in H as [H1 H2].
  now rewrite (field_errors_none cfg field H1), IH.
Qed.

Lemma code_units_not_empty s : s <> [] -> code_units s <> [].
Proof.
  destruct s as [|b0 r0]; [congruence|]. intros _. cbn [code_units].
  destruct (N_of_ascii b0 <? 192)%N; [discriminate|].
  destruct r0 as [|b1 r1]; [discriminate|].
  destruct (negb (is_continuation b1)); [discriminate|].
  destruct (N_of_ascii b0 <? 224)%N; [discriminate|].
  destruct r1 as [|b2 r2]; [discriminate|].
  destruct (negb (is_continuation b2)); [discriminate|].
  destruct (N_of_ascii b0 <? 240)%N; [discriminate|].
  destruct r2 as [|b3 r3]; [discriminate|].
  destruct (negb (is_continuation b3)); discriminate.
Qed.

Lemma is_empty_str l : l <> [] -> is_empty (str l) = false.
Proof. destruct l; [congruence|reflexivity]. Qed.

(** A masked text is empty only when the text is. *)
Lemma maskString_filled s visible : filled (maskString s visible) = filled s.
Proof.
  unfold filled, maskString. destruct s as [|a s]; [reflexivity|].
  cbn [is_empty negb].
  set (units := code_units (chars (String a s))).
  assert (Hunits : units <> []) by (apply code_units_not_empty; discriminate).
  set (n := match visible with Some n => n | None => 4%nat end).
  assert (Hlen : (0 < List.length units)%nat).
  { destruct units; [congruence|cbn; lia]. }
  destruct (Nat.leb_spec (List.length units) n).
  - rewrite is_empty_str; [reflexivity|].
    destruct (List.length units); [lia|discriminate].
  - rewrite is_empty_str; [reflexivity|].
    intros Hnil. apply app_eq_nil in Hnil as [_ Hstars].
    destruct (List.length units - n)%nat eqn:Hd; [lia|discriminate].
Qed.

(** X21. The masked preview says as much about what is filled in as
    the configuration itself: [getConfigInfo] gives the same flags and
    the same completeness for a configuration and for its preview. *)
Theorem getConfigInfo_of_preview c :
  getConfigInfo (previewConfig c) = getConfigInfo c.
Proof.
  unfold getConfigInfo, previewConfig.
  cbn [cloudflareApiToken cloudflareAccountId cloudflareWorkerId cosSecretId
       cosSecretKey cosBucket cosRegion].
  now rewrite !maskString_filled.
Qed.

Lemma code_units_ascii l :
  Forall (fun c => (N_of_ascii c < 128)%N) l -> code_units l = map (fun c => [c]) l.
Proof.
  induction 1 as [|c l Hc _ IH]; [reflexivity|].
  cbn [code_units map].
  destruct (N.ltb_spec (N_of_ascii c) 192); [now rewrite IH|lia].
Qed.

Lemma text_of_units_ascii l : text_of_units (map (fun c => [c]) l) = l.
Proof.
  induction l as [|c l IH]; [reflexivity|].
  cbn [map text_of_units unit_value app]. now rewrite IH.
Qed.

(** The mask of a text of ASCII characters. *)
Lemma maskString_ascii s :
  Forall (fun c => (N_of_ascii c < 128)%N) (chars s) -> is_empty s = false ->
  chars (maskString s None)
  = if (List.length (chars s) <=? 4)%nat
    then repeat "*"%char (List.length (chars s))
    else take 4 (chars s) ++ repeat "*"%char (List.length (chars s) - 4).
Proof.
  intros Hascii Hne. unfold maskString. rewrite Hne.
  rewrite (code_units_ascii _ Hascii), length_map.
  destruct (List.length (chars s) <=? 4)%nat.
  - unfold str, chars. apply list_ascii_of_string_of_list_ascii.
  - unfold str. unfold chars at 1. rewrite list_ascii_of_string_of_list_ascii.
    now rewrite <- fmap_take, text_of_units_ascii.
Qed.

Lemma chars_inj s1 s2 : chars s1 = chars s2 -> s1 = s2.
Proof.
  unfold chars. intros H.
  rewrite <- (string_of_list_ascii_of_string s1),
          <- (string_of_list_ascii_of_string s2).
  now rewrite H.
Qed.

(** X22. What a mask gives away of a secret of ASCII characters: its
    length and its first four characters, and only its length when it
    has no more than four.  Two secrets that agree on these have the
    same mask. *)
Theorem maskString_shows_prefix_only s1 s2 :
  Forall (fun c => (N_of_ascii c < 128)%N) (chars s1) ->
  Forall (fun c => (N_of_ascii c < 128)%N) (chars s2) ->
  List.length (chars s1) = List.length (chars s2) ->
  ((List.length (chars s1) <= 4)%nat \/ take 4 (chars s1) = take 4 (chars s2)) ->
  maskString s1 None = maskString s2 None
  /\ List.length (chars (maskString s1 None)) = List.length (chars s1).
Proof.
  intros H1 H2 Hlen Hshown.
  assert (Hmask : forall s, Forall (fun c => (N_of_ascii c < 128)%N) (chars s) ->
            chars (maskString s None)
            = if (List.length (chars s) <=? 4)%nat
              then repeat "*"%char (List.length (chars s))
              else take 4 (chars s) ++ repeat "*"%char (List.length (chars s) - 4)).
  { intros s Hs. destruct s as [|a s]; [reflexivity|]. now apply maskString_ascii. }
  split.
  - apply chars_inj. rewrite (Hmask s1 H1), (Hmask s2 H2), <- Hlen.
    destruct (Nat.leb_spec (List.length (chars s1)) 4); [reflexivity|].
    destruct Hshown as [Hle|Htake]; [lia|now rewrite Htake].
  - rewrite (Hmask s1 H1).
    destruct (Nat.leb_spec (List.length (chars s1)) 4).
    + apply repeat_length.
    + rewrite length_app, length_take, repeat_length. lia.
Qed.

Lemma maskString_shows_prefix_only_witness :
  maskString "abcd-secret-1" None = maskString "abcd-SECRET-2" None
  /\ List.length (chars (maskString "abcd-secret-1" None))
     = List.length (chars "abcd-secret-1").
Proof.
  apply (maskString_shows_prefix_only "abcd-secret-1" "abcd-SECRET-2").
  - unfold chars. cbn [list_ascii_of_string].
    repeat (apply List.Forall_cons; [reflexivity|]). apply List.Forall_nil.
  - unfold chars. cbn [list_ascii_of_string].
    repeat (apply List.Forall_cons; [reflexivity|]). apply List.Forall_nil.
  - reflexivity.
  - right. reflexivity.
Defined.

(** The entries of a batch are well-formed objects. *)
Lemma batch_entries_wf now configs :
  forallb json_wf (map (batch_entry now) configs) = true.
Proof.
  induction configs as [|item configs IH]; [reflexivity|].
  cbn [map forallb]. rewrite IH. reflexivity.
Qed.

Lemma batch_file_wf configs now : json_wf (batch_file configs now) = true.
Proof.
  unfold batch_file. cbn [json_wf map fst snd forallb].
  rewrite batch_entries_wf. reflexivity.
Qed.

(** The keys that [getSavedConfigKeys] lists. *)
Lemma getSavedConfigKeys_elem k p :
  k ∈ getSavedConfigKeys p
  <-> is_Some (getItem k (world p))
      /\ startsWith (chars k) (chars "saved-config") = true.
Proof.
  unfold getSavedConfigKeys, getItem. rewrite list_elem_of_filter, list_elem_of_fmap.
  split.
  - intros [Hk ([k' v] & -> & Hin)]. apply elem_of_map_to_list in Hin.
    cbn [fst] in *. split; [eauto|].
    apply andb_true_iff in Hk. tauto.
  - intros [[v Hv] Hk]. split.
    + apply andb_true_iff. split; [|assumption].
      destruct k; [discriminate|reflexivity].
    + exists (k, v). split; [reflexivity|]. now apply elem_of_map_to_list.
Qed.

(** X23. A configuration saved under a key is listed by
    [getSavedConfigKeys] exactly when the key starts with
    [saved-config]; deleting takes the key off the list; and neither
    changes which of the other keys are listed. *)
Theorem saved_config_keys_listing c key now p :
  let k := key_or_default key in
  let p' := saveConfigToLocal c key now p in
  (k ∈ getSavedConfigKeys p'
   <-> startsWith (chars k) (chars "saved-config") = true)
  /\ (k ∉ getSavedConfigKeys (deleteSavedConfig k p'))
  /\ forall k', k' <> k ->
       (k' ∈ getSavedConfigKeys p' <-> k' ∈ getSavedConfigKeys p)
       /\ (k' ∈ getSavedConfigKeys (deleteSavedConfig k p)
           <-> k' ∈ getSavedConfigKeys p).
Proof.
  cbn zeta. set (k := key_or_default key).
  assert (Hsaved : forall k', getItem k' (world (saveConfigToLocal c key now p))
            = if decide (k' = k)
              then Some (JSON.stringify (local_config_file c now) 0)
              else getItem k' (world p)).
  { intros k'. unfold saveConfigToLocal, getItem, setItem.
    cbn [toast world set_world localStorage]. fold k.
    destruct (decide (k' = k)) as [->|Hne].
    - apply lookup_insert_eq.
    - now rewrite lookup_insert_ne by congruence. }
  assert (Hdeleted : forall q k', getItem k' (world (deleteSavedConfig k q))
            = if decide (k' = k) then None else getItem k' (world q)).
  { intros q k'. unfold deleteSavedConfig, getItem, removeItem.
    cbn [toast world set_world localStorage].
    destruct (decide (k' = k)) as [->|Hne].
    - apply lookup_delete_eq.
    - now rewrite lookup_delete_ne by congruence. }
  split; [|split].
  - rewrite getSavedConfigKeys_elem, Hsaved.
    destruct (decide (k = k)); [|congruence]. split; [tauto|eauto].
  - rewrite getSavedConfigKeys_elem, Hdeleted.
    destruct (decide (k = k)); [|congruence]. intros [[v Hv] _]. discriminate.
  - intros k' Hne. rewrite !getSavedConfigKeys_elem, Hsaved, Hdeleted.
    destruct (decide (k' = k)); [congruence|]. tauto.
Qed.

Section ConfigFile_more_facts.

Variable Date_valid : string -> bool.
Hypothesis Date_valid_empty : Date_valid EmptyString = false.
Variable SyntaxError_message : string -> string.

Lemma isValid_no_errors data :
  isValid (validateConfigFileDetailed Date_valid data) = true ->
  errors (validateConfigFileDetailed Date_valid data) = [].
Proof.
  unfold validateConfigFileDetailed.
  destruct (negb (truthy (Some data)) || negb (is_object_type (Some data)));
    [discriminate|].
  destruct (negb (truthy (member data "config"))); [discriminate|].
  destruct (negb (is_object_type (member data "config"))); [discriminate|].
  destruct (member data "config") as [cfg|]; [|discriminate].
  cbn [isValid errors].
  now destruct ((version_errors data ++ timestamp_errors Date_valid data)
                ++ flat_map (field_errors cfg) requiredFields).
Qed.

Lemma version_errors_none data :
  version_errors data = [] ->
  exists v, member data "version" = Some (JStr v) /\ is_empty v = false.
Proof.
  unfold version_errors.
  destruct (member data "version") as [[|b|n|v|l|o]|];
    cbn [truthy negb is_string_type typeof]; intros H;
    try discriminate H;
    try (destruct b; discriminate H);
    try (destruct (n =? 0); discriminate H).
  exists v. split; [reflexivity|]. destruct (is_empty v); [discriminate H|reflexivity].
Qed.

Lemma timestamp_errors_none data :
  timestamp_errors Date_valid data = [] ->
  exists t, member data "timestamp" = Some (JStr t) /\ Date_valid t = true.
Proof.
  unfold timestamp_errors.
  destruct (member data "timestamp") as [[|b|n|t|l|o]|]; intros H;
    try (destruct (negb (truthy _)); discriminate H).
  exists t. split; [reflexivity|].
  destruct (is_empty t); [discriminate H|].
  destruct (Date_valid t); [reflexivity|discriminate H].
Qed.

(** X24. Validation accepts only files of the expected shape: a file
    that [validateConfigFile] accepts is an object whose version is a
    string with at least one character, whose timestamp is a string
    that parses as a date and whose config has the seven required
    fields as strings; and it comes with an empty list of errors. *)
Theorem valid_file_has_shape data :
  validateConfigFile Date_valid data = true ->
  exists m v t cfg,
    data = JObj m
    /\ lookup_member "version" m = Some (JStr v) /\ is_empty v = false
    /\ lookup_member "timestamp" m = Some (JStr t) /\ Date_valid t = true
    /\ lookup_member "config" m = Some cfg
    /\ forallb (fun field => is_string_type (member cfg field)) requiredFields = true
    /\ errors (validateConfigFileDetailed Date_valid data) = [].
Proof.
  unfold validateConfigFile. intros Hvalid.
  pose proof (isValid_no_errors data Hvalid) as Herrors.
  revert Hvalid. unfold validateConfigFileDetailed.
  destruct data as [|b|n|s|l|m];
    try (intros H; cbn in H; discriminate H);
    try (intros H; cbn [is_object_type typeof negb] in H; rewrite orb_true_r in H;
         discriminate H).
  cbn [truthy is_object_type typeof negb orb member].
  destruct (negb (truthy (lookup_member "config" m))); [discriminate|].
  destruct (negb (is_object_type (lookup_member "config" m))); [discriminate|].
  destruct (lookup_member "config" m) as [cfg|] eqn:Hcfg; [|discriminate].
  cbn [isValid].
  destruct ((version_errors (JObj m) ++ timestamp_errors Date_valid (JObj m))
            ++ flat_map (field_errors cfg) requiredFields) eqn:Hnil; [|discriminate].
  intros _. apply app_eq_nil in Hnil as [Hnil Hfields].
  apply app_eq_nil in Hnil as [Hversion Htimestamp].
  destruct (version_errors_none _ Hversion) as (v & Hv & Hvne).
  destruct (timestamp_errors_none _ Htimestamp) as (t & Ht & Htv).
  exists m, v, t, cfg.
  repeat split; try assumption; try reflexivity. now apply no_field_errors.
Qed.

(** X25. A configuration saved with [saveConfigToLocal] is the one
    that [loadConfigFromLocal] returns for that key, and loading shows
    no further notification. *)
Theorem save_then_load_local c key now p :
  Date_valid now = true ->
  let p' := saveConfigToLocal c key now p in
  loadConfigFromLocal Date_valid key p' = (Some (json_of_config c), p')
  /\ toasts p' = toasts p ++ [ {| toast_kind := toast_success;
                                  toast_text := "配置已保存到本地";
                                  toast_description := None;
                                  toast_duration := None |} ].
Proof.
  intros Hnow. cbn zeta. split; [|reflexivity].
  unfold loadConfigFromLocal, saveConfigToLocal, getItem, setItem.
  cbn [toast world set_world localStorage].
  rewrite lookup_insert_eq, stringify_not_empty.
  rewrite JSON_parse_stringify by reflexivity. unfold validateConfigFile.
  rewrite (well_formed_file_valid Date_valid Date_valid_empty _ "1.0.0" now
             (json_of_config c)); try reflexivity; assumption.
Qed.

(** X26. What [exportConfigToClipboard] copies is what
    [importConfigFromClipboard] accepts, and the import resolves to the
    exported configuration. *)
Theorem clipboard_round_trip c now p :
  Date_valid now = true ->
  fst (importConfigFromClipboard Date_valid (exportConfigToClipboard c now p))
  = Return (Some (json_of_config c)).
Proof.
  intros Hnow. unfold importConfigFromClipboard, exportConfigToClipboard.
  cbn [toast clipboard set_clipboard].
  rewrite JSON_parse_stringify by reflexivity. unfold validateConfigFile.
  rewrite (well_formed_file_valid Date_valid Date_valid_empty _ "1.0.0" now
             (json_of_config c)); try reflexivity; assumption.
Qed.

(** X27. No import reads a batch back: the file that
    [exportMultipleConfigs] writes has no [config] member, so
    validation reports the configuration as missing and
    [importConfigFromFile] rejects the file, whatever the batch
    holds. *)
Theorem batch_export_is_not_importable configs now p :
  let file := content (fst (exportMultipleConfigs configs now p)) in
  JSON.parse file = Return (batch_file configs now)
  /\ validateConfigFile Date_valid (batch_file configs now) = false
  /\ last (errors (validateConfigFileDetailed Date_valid (batch_file configs now)))
     = Some "缺少配置信息"%string
  /\ importConfigFromFile Date_valid (Some file) = Throw (Error "配置文件格式无效").
Proof.
  cbn zeta. unfold exportMultipleConfigs. cbn [fst content].
  assert (Hparse : JSON.parse (JSON.stringify (batch_file configs now) 2)
                   = Return (batch_file configs now))
    by apply JSON_parse_stringify, batch_file_wf.
  split; [exact Hparse|].
  assert (Hdetail : validateConfigFileDetailed Date_valid (batch_file configs now)
            = {| isValid := false;
                 errors := (version_errors (batch_file configs now)
                            ++ timestamp_errors Date_valid (batch_file configs now))
                           ++ ["缺少配置信息"%string];
                 warnings := [] |}) by reflexivity.
  split; [unfold validateConfigFile; now rewrite Hdetail|].
  split; [rewrite Hdetail; cbn [errors]; apply last_snoc|].
  unfold importConfigFromFile. rewrite Hparse. unfold validateConfigFile.
  now rewrite Hdetail.
Qed.


End ConfigFile_more_facts.

Lemma valid_file_has_shape_witness :
  exists m v t cfg,
    config_file odd_config "2026-11-02T01:28:00.000Z" "saved" = JObj m
    /\ lookup_member "version" m = Some (JStr v) /\ is_empty v = false
    /\ lookup_member "timestamp" m = Some (JStr t) /\ iso_date_valid t = true
    /\ lookup_member "config" m = Some cfg
    /\ forallb (fun field => is_string_type (member cfg field)) requiredFields = true
    /\ errors (validateConfigFileDetailed iso_date_valid
                 (config_file odd_config "2026-11-02T01:28:00.000Z" "saved")) = [].
Proof.
  apply (valid_file_has_shape iso_date_valid
           (config_file odd_config "2026-11-02T01:28:00.000Z" "saved")).
  reflexivity.
Defined.

Lemma save_then_load_local_witness :
  let p' := saveConfigToLocal odd_config None "2026-11-02T01:28:00.000Z"
              (loaded_page ∅ true) in
  loadConfigFromLocal iso_date_valid None p' = (Some (json_of_config odd_config), p')
  /\ toasts p' = toasts (loaded_page ∅ true)
                 ++ [ {| toast_kind := toast_success;
                         toast_text := "配置已保存到本地";
                         toast_description := None;
                         toast_duration := None |} ].
Proof.
  apply (save_then_load_local iso_date_valid eq_refl odd_config None
           "2026-11-02T01:28:00.000Z" (loaded_page ∅ true)).
  reflexivity.
Defined.

Lemma clipboard_round_trip_witness :
  fst (importConfigFromClipboard iso_date_valid
         (exportConfigToClipboard odd_config "2026-11-02T01:28:00.000Z"
            (loaded_page ∅ true)))
  = Return (Some (json_of_config odd_config)).
Proof.
  apply (clipboard_round_trip iso_date_valid eq_refl odd_config
           "2026-11-02T01:28:00.000Z" (loaded_page ∅ true)).
  reflexivity.
Defined.

(** *** The probes and the report over the network *)

(** The results of the probes of one run. *)
Lemma probes_results message fetch clock :
  testBasicConnectivity (NetworkDiagnostics.probes message fetch clock)
  = NetworkDiagnostics.testBasicConnectivity fetch
      (NetworkDiagnostics.started clock) (NetworkDiagnostics.basic_done clock)
  /\ testDnsResolution (NetworkDiagnostics.probes message fetch clock)
     = NetworkDiagnostics.testDnsResolution fetch
         (NetworkDiagnostics.started clock) (NetworkDiagnostics.dns_done clock)
  /\ (forall apiToken,
        testCloudflareApi (NetworkDiagnostics.probes message fetch clock) apiToken
        = NetworkDiagnostics.testCloudflareApi message fetch apiToken
            (NetworkDiagnostics.started clock) (NetworkDiagnostics.token_answered clock)
            (NetworkDiagnostics.api_done clock))
  /\ testCorsSupport (NetworkDiagnostics.probes message fetch clock)
     = NetworkDiagnostics.testCorsSupport fetch
         (NetworkDiagnostics.started clock) (NetworkDiagnostics.cors_done clock).
Proof. repeat split. Qed.

Section Probe_facts.

Import NetworkDiagnostics.

Variable null_member_message : string.

Lemma response_ok_204 r : response_ok r || (response_status r =? 204) = response_ok r.
Proof.
  unfold response_ok.
  destruct (Z.leb_spec 200 (response_status r)), (Z.leb_spec (response_status r) 299),
           (Z.eqb_spec (response_status r) 204); cbn; try reflexivity; lia.
Qed.

Lemma dns_probe_success fetch startTime now :
  success (NetworkDiagnostics.testDnsResolution fetch startTime now)
  = negb (forallb (timed_out fetch) testDomains).
Proof.
  unfold NetworkDiagnostics.testDnsResolution, testDomains, timed_out.
  cbn [map forallb]. unfold dns_entry.
  destruct (fetch (head_request "api.cloudflare.com")) as [r1|e1];
    [|destruct (String.eqb (error_name e1) "AbortError")];
    (destruct (fetch (head_request "www.cloudflare.com")) as [r2|e2];
     [|destruct (String.eqb (error_name e2) "AbortError")]);
    (destruct (fetch (head_request "httpbin.org")) as [r3|e3];
     [|destruct (String.eqb (error_name e3) "AbortError")]);
    reflexivity.
Qed.

Lemma basic_probe_success fetch startTime now :
  success (NetworkDiagnostics.testBasicConnectivity fetch startTime now)
  = existsb (fun address => settled_ok (fetch (get_request address))) testEndpoints.
Proof.
  unfold NetworkDiagnostics.testBasicConnectivity, testEndpoints.
  cbn [map existsb List.filter].
  destruct (settled_ok (fetch (get_request trace))),
           (settled_ok (fetch (get_request "https://httpbin.org/get"))),
           (settled_ok (fetch (get_request "https://api.github.com")));
    reflexivity.
Qed.

Lemma cors_probe_success fetch startTime now :
  success (NetworkDiagnostics.testCorsSupport fetch startTime now)
  = settled_ok (fetch options_request).
Proof.
  unfold NetworkDiagnostics.testCorsSupport.
  destruct (fetch options_request) as [response|e]; [|reflexivity].
  cbn [settled_ok]. rewrite response_ok_204.
  now destruct (response_ok response).
Qed.

Lemma api_probe_success fetch apiToken startTime answered now :
  success (NetworkDiagnostics.testCloudflareApi null_member_message fetch apiToken
             startTime answered now)
  = settled_ok (fetch (get_request api_endpoint)) && token_verified fetch apiToken.
Proof.
  unfold NetworkDiagnostics.testCloudflareApi, token_verified.
  destruct (fetch (get_request api_endpoint)) as [apiResponse|e]; [|reflexivity].
  cbn [settled_ok]. destruct (response_ok apiResponse); [|reflexivity].
  cbn [negb andb]. destruct apiToken as [token|]; [|reflexivity].
  destruct (is_empty token); [reflexivity|].
  destruct (fetch (token_request token)) as [tokenResponse|e]; [|reflexivity].
  destruct (response_ok tokenResponse); [|reflexivity]. cbn [andb].
  destruct (json_body tokenResponse) as [data|e]; [|reflexivity].
  destruct data; cbn [get_member member truthy]; try reflexivity.
  now destruct (truthy (lookup_member "success" _)).
Qed.

(** X29. What makes each probe succeed, in terms of what the network
    answers.  Basic connectivity: some test endpoint answers with a
    success status.  DNS: some domain's request is not aborted by its
    timer; a request that fails in any other way counts as resolved.
    The API: the endpoint answers with a success status and the token,
    when one is given, is verified.  CORS: the preflight request is
    answered with a success status (the separate test for 204 adds
    nothing). *)
Theorem probe_success_conditions fetch apiToken startTime answered now :
  success (NetworkDiagnostics.testBasicConnectivity fetch startTime now)
  = existsb (fun address => settled_ok (fetch (get_request address))) testEndpoints
  /\ success (NetworkDiagnostics.testDnsResolution fetch startTime now)
     = negb (forallb (timed_out fetch) testDomains)
  /\ success (NetworkDiagnostics.testCloudflareApi null_member_message fetch apiToken
                startTime answered now)
     = settled_ok (fetch (get_request api_endpoint)) && token_verified fetch apiToken
  /\ success (NetworkDiagnostics.testCorsSupport fetch startTime now)
     = settled_ok (fetch options_request).
Proof.
  split; [apply basic_probe_success|].
  split; [apply dns_probe_success|].
  split; [apply api_probe_success|].
  apply cors_probe_success.
Qed.

(** X30. The report when no request gets through.  If every request
    is rejected, the status is [failed]; the report lists the
    connectivity, API and CORS issues, and the DNS issue only if all
    three DNS requests were aborted by their timers: requests that fail
    at once, as in a browser without a connection, leave the DNS probe
    successful. *)
Theorem report_when_requests_fail fetch clock apiToken :
  (forall request, exists e, fetch request = rejected e) ->
  let r := runQuickDiagnostic null_member_message fetch clock apiToken in
  status (overall r) = failed
  /\ success (dnsResolution r) = negb (forallb (timed_out fetch) testDomains)
  /\ issues (overall r)
     = if forallb (timed_out fetch) testDomains
       then all_issues
       else [ "基础网络连接失败"; "Cloudflare API连接失败"; "CORS支持异常" ]%string.
Proof.
  intros Hfail. cbn zeta.
  unfold runQuickDiagnostic, generateDiagnosticReport.
  cbn [overall status issues dnsResolution].
  destruct (probes_results null_member_message fetch clock)
    as (-> & -> & Hapi & ->).
  rewrite Hapi, basic_probe_success, dns_probe_success, api_probe_success,
    cors_probe_success.
  assert (Hrej : forall request, settled_ok (fetch request) = false).
  { intros request. destruct (Hfail request) as [e ->]. reflexivity. }
  unfold testEndpoints. cbn [existsb]. rewrite !Hrej. cbn [orb andb].
  destruct (forallb (timed_out fetch) testDomains); cbn; auto.
Qed.

End Probe_facts.

Lemma report_when_requests_fail_witness :
  let r := NetworkDiagnostics.runQuickDiagnostic "Cannot read properties of null"
             (unreachable fetch_failure) example_clock None in
  status (overall r) = failed
  /\ success (dnsResolution r)
     = negb (forallb (timed_out (unreachable fetch_failure))
               NetworkDiagnostics.testDomains)
  /\ issues (overall r)
     = if forallb (timed_out (unreachable fetch_failure)) NetworkDiagnostics.testDomains
       then all_issues
       else [ "基础网络连接失败"; "Cloudflare API连接失败"; "CORS支持异常" ]%string.
Proof.
  apply (report_when_requests_fail "Cannot read properties of null"
           (unreachable fetch_failure) example_clock None).
  intros request. exists fetch_failure. reflexivity.
Defined.
